(** * mlpack: BinarySpaceTree and DistributedBinaryTraversal

    A shallow embedding of
      - [binary_space_tree_impl.hpp]  (class [BinarySpaceTree]) and
      - [distributed_binary_traversal_impl.hpp]
        (class [DistributedBinaryTraversal]),
    together with the properties of the tree's construction, destruction,
    lookup, enumeration, copy and serialization code and of the
    coordinator's routing code.

    Conventions of the embedding.
    - [size_t] values are integers in [Z]; every arithmetic operation the
      C++ code performs on them is followed by [wrap], reduction modulo
      2^64.
    - [double] values are IEEE binary64 numbers ([PrimFloat.float]).
    - A node object lives at an address ([ptr]); [NULL] is [None].  The
      owning pointers [left] and [right] are modelled by containment of the
      child in its parent, the non-owning pointers [parent] and [dataset]
      by the address they hold.
    - The template parameters [BoundType], [StatisticType], [MatType] and
      [SplitType] are section variables, and so are the member functions of
      theirs that the tree calls. *)

From Stdlib Require Import ZArith List Lia Bool Floats.
From stdpp Require Import base option list list_numbers gmap.
From Equations Require Import Equations.

#[local] Set Warnings "-register-all,-inexact-float".
#[local] Open Scope Z_scope.

(** ** Machine integers and addresses *)

Definition size_t_modulus : Z := 2 ^ 64.

(** The value a [size_t] holds after an arithmetic result [z]. *)
Definition wrap (z : Z) : Z := z mod size_t_modulus.

(** Being representable in a [size_t]. *)
Definition is_size_t (z : Z) : Prop := 0 <= z < size_t_modulus.

Definition ptr : Type := positive.

(** ** Outcomes of a call

    A call returns normally, or stops: by a failed assertion
    ([assert], [Log::Assert]), by the exception [std::invalid_argument],
    by dereferencing a pointer that refers to no object or indexing an
    array outside its bounds, by a message addressed to a rank that the
    communicator does not have, or because the recursion budget of the
    model (not of the program) is used up. *)

Inductive failure : Type :=
| AssertionFailed
| InvalidArgument
| BadPointer
| BadRank
| OutOfFuel.

Inductive outcome (A : Type) : Type :=
| Ok (a : A)
| Stop (f : failure).
Arguments Ok {A} a.
Arguments Stop {A} f.

(** ** The node type *)

Section Tree.
Context {BoundType StatisticType : Type}.

(** The data members of [BinarySpaceTree], and [self], the address of the
    object (the value of [this]). *)
Inductive BinarySpaceTree : Type := Node {
  self : ptr;
  Left : option BinarySpaceTree;
  Right : option BinarySpaceTree;
  Parent : option ptr;
  Begin : Z;
  Count : Z;
  Bound : BoundType;
  Stat : StatisticType;
  ParentDistance : float;
  FurthestDescendantDistance : float;
  Dataset : option ptr }.

(** Assignments to single members. *)
Definition set_Left (l : option BinarySpaceTree) (n : BinarySpaceTree) :=
  Node (self n) l (Right n) (Parent n) (Begin n) (Count n) (Bound n) (Stat n)
       (ParentDistance n) (FurthestDescendantDistance n) (Dataset n).
Definition set_Right (r : option BinarySpaceTree) (n : BinarySpaceTree) :=
  Node (self n) (Left n) r (Parent n) (Begin n) (Count n) (Bound n) (Stat n)
       (ParentDistance n) (FurthestDescendantDistance n) (Dataset n).
Definition set_Parent (p : option ptr) (n : BinarySpaceTree) :=
  Node (self n) (Left n) (Right n) p (Begin n) (Count n) (Bound n) (Stat n)
       (ParentDistance n) (FurthestDescendantDistance n) (Dataset n).
Definition set_Bound (b : BoundType) (n : BinarySpaceTree) :=
  Node (self n) (Left n) (Right n) (Parent n) (Begin n) (Count n) b (Stat n)
       (ParentDistance n) (FurthestDescendantDistance n) (Dataset n).
Definition set_Stat (s : StatisticType) (n : BinarySpaceTree) :=
  Node (self n) (Left n) (Right n) (Parent n) (Begin n) (Count n) (Bound n) s
       (ParentDistance n) (FurthestDescendantDistance n) (Dataset n).
Definition set_ParentDistance (d : float) (n : BinarySpaceTree) :=
  Node (self n) (Left n) (Right n) (Parent n) (Begin n) (Count n) (Bound n)
       (Stat n) d (FurthestDescendantDistance n) (Dataset n).
Definition set_FurthestDescendantDistance (d : float) (n : BinarySpaceTree) :=
  Node (self n) (Left n) (Right n) (Parent n) (Begin n) (Count n) (Bound n)
       (Stat n) (ParentDistance n) d (Dataset n).
Definition set_Dataset (d : option ptr) (n : BinarySpaceTree) :=
  Node (self n) (Left n) (Right n) (Parent n) (Begin n) (Count n) (Bound n)
       (Stat n) (ParentDistance n) (FurthestDescendantDistance n) d.

(** The children a node has, left first. *)
Definition children (n : BinarySpaceTree) : list BinarySpaceTree :=
  option_list (Left n) ++ option_list (Right n).

(** Number of nodes of the subtree, as a natural number: the measure of
    the recursions and loops below. *)
Fixpoint node_count (n : BinarySpaceTree) : nat :=
  S (match Left n with Some l => node_count l | None => O end
     + match Right n with Some r => node_count r | None => O end).

(** All nodes of the subtree, the node itself first. *)
Fixpoint nodes (n : BinarySpaceTree) : list BinarySpaceTree :=
  n :: (match Left n with Some l => nodes l | None => [] end
        ++ match Right n with Some r => nodes r | None => [] end).

(** The nodes below a node. *)
Definition descendants (n : BinarySpaceTree) : list BinarySpaceTree :=
  tail (nodes n).

(** The leaves of the subtree, from left to right. *)
Fixpoint leaves (n : BinarySpaceTree) : list BinarySpaceTree :=
  match Left n, Right n with
  | None, None => [n]
  | l, r => match l with Some l => leaves l | None => [] end
            ++ match r with Some r => leaves r | None => [] end
  end.

(** *** Simple member functions *)

(** [End()]: [begin + count]. *)
Definition End (n : BinarySpaceTree) : Z := wrap (Begin n + Count n).

(** [IsLeaf()]: [!left]. *)
Definition IsLeaf (n : BinarySpaceTree) : bool :=
  match Left n with None => true | Some _ => false end.

(** [NumChildren()]. *)
Definition NumChildren (n : BinarySpaceTree) : Z :=
  match Left n, Right n with
  | Some _, Some _ => 2
  | Some _, None => 1
  | None, _ => 0
  end.

(** [NumPoints()]: 0 when there is a left child, [count] otherwise. *)
Definition NumPoints (n : BinarySpaceTree) : Z :=
  match Left n with Some _ => 0 | None => Count n end.

(** [Point(index)]: [begin + index]. *)
Definition Point (n : BinarySpaceTree) (index : Z) : Z :=
  wrap (Begin n + index).

(** The points a node holds, in the order of
    [for (i = 0; i < NumPoints(); ++i) Point(i)]. *)
Definition points (n : BinarySpaceTree) : list Z :=
  map (Point n) (seqZ 0 (NumPoints n)).

(** [TreeSize()]. *)
Fixpoint TreeSize (n : BinarySpaceTree) : Z :=
  wrap (wrap (1 + match Left n with Some l => TreeSize l | None => 0 end)
        + match Right n with Some r => TreeSize r | None => 0 end).

(** [TreeDepth()]. *)
Fixpoint TreeDepth (n : BinarySpaceTree) : Z :=
  wrap (1 + Z.max (match Left n with Some l => TreeDepth l | None => 0 end)
                  (match Right n with Some r => TreeDepth r | None => 0 end)).

(** [NumDescendantNodes()]. *)
Fixpoint NumDescendantNodes (n : BinarySpaceTree) : Z :=
  match Left n, Right n with
  | Some l, Some r =>
      wrap (wrap (2 + NumDescendantNodes l) + NumDescendantNodes r)
  | Some l, None => wrap (1 + NumDescendantNodes l)
  | None, Some r => wrap (1 + NumDescendantNodes r)
  | None, None => 0
  end.

(** [NumDescendants()]: [count]. *)
Definition NumDescendants (n : BinarySpaceTree) : Z := Count n.

(** [Descendant(index)]: [begin + index]. *)
Definition Descendant (n : BinarySpaceTree) (index : Z) : Z :=
  wrap (Begin n + index).

(** [Child(child)]: [*left] when [child == 0], [*right] otherwise. *)
Definition Child (n : BinarySpaceTree) (child : Z) : outcome BinarySpaceTree :=
  match (if child =? 0 then Left n else Right n) with
  | Some c => Ok c
  | None => Stop BadPointer
  end.

End Tree.
Arguments BinarySpaceTree : clear implicits.
Arguments nodes : simpl never.
Arguments leaves : simpl never.

(** ** Lookup by range: [FindByBeginCount] *)

Section Lookup.
Context {BoundType StatisticType : Type}.
Abbreviation tree := (BinarySpaceTree BoundType StatisticType).

(** Modelled from the spec: [Log::Assert] ([log.hpp] is not among the
    sources) stops the call when its condition is false: the
    ConsistencyViolation of section 7 is "fail-fast (assertion)". *)
Definition Log_Assert (condition : bool) : outcome unit :=
  if condition then Ok tt else Stop AssertionFailed.

(** The non-[const] overload (lines 345-367).  The result is the node
    found, or [None] for [NULL].  It comes first because the other
    overload calls it. *)
Fixpoint FindByBeginCount (this : tree) (queryBegin queryCount : Z)
  : outcome (option tree) :=
  match Log_Assert (queryBegin <=? Begin this) with
  | Stop f => Stop f
  | Ok _ =>
    match Log_Assert (Count this <=? queryCount) with
    | Stop f => Stop f
    | Ok _ =>
      if (Begin this =? queryBegin) && (Count this =? queryCount) then
        Ok (Some this)
      else if IsLeaf this then Ok None
      else
        match Left this with
        | None => Stop BadPointer
        | Some l =>
          if queryBegin <? End l then
            FindByBeginCount l queryBegin queryCount
          else
            match Right this with
            | Some r => FindByBeginCount r queryBegin queryCount
            | None => Ok None
            end
        end
    end
  end.

(** The [const] overload (lines 312-332).  [left] and [right] are
    members of type [BinarySpaceTree*]: in a [const] member function the
    pointers are [const] but the nodes they point to are not, so the calls
    [left->FindByBeginCount] and [right->FindByBeginCount] of lines 329
    and 331 are calls of the non-[const] overload above. *)
Definition FindByBeginCount_const (this : tree) (queryBegin queryCount : Z)
  : outcome (option tree) :=
  match Log_Assert (Begin this <=? queryBegin) with
  | Stop f => Stop f
  | Ok _ =>
    match Log_Assert (queryCount <=? Count this) with
    | Stop f => Stop f
    | Ok _ =>
      if (Begin this =? queryBegin) && (Count this =? queryCount) then
        Ok (Some this)
      else if IsLeaf this then Ok None
      else
        match Right this with
        | None => Stop BadPointer
        | Some r =>
          if queryBegin <? Begin r then
            match Left this with
            | None => Stop BadPointer
            | Some l => FindByBeginCount l queryBegin queryCount
            end
          else FindByBeginCount r queryBegin queryCount
        end
    end
  end.
End Lookup.

(** ** Enumeration of descendants: [DescendantNode] *)

Section Enumeration.
Context {BoundType StatisticType : Type}.
Abbreviation tree := (BinarySpaceTree BoundType StatisticType).

(** Number of nodes held by the subtrees of a queue. *)
Definition forest_count (queue : list tree) : nat :=
  foldr (fun n k => (node_count n + k)%nat) O queue.

Lemma forest_count_app (q1 q2 : list tree) :
  forest_count (q1 ++ q2) = (forest_count q1 + forest_count q2)%nat.
Proof. induction q1 as [|n q1 IH]; simpl; [reflexivity | rewrite IH; lia]. Qed.

Lemma forest_count_children (n : tree) :
  node_count n = S (forest_count (children n)).
Proof.
  destruct n as [a [l|] [r|] p b c bd st pd fd ds]; unfold children; simpl; lia.
Qed.

(** The loop of [DescendantNode] (lines 580-593): [queue] is the
    [std::queue], front first. *)
Equations? DescendantNode_loop (queue : list tree) (currentIndex index : Z)
  : outcome tree by wf (forest_count queue) lt :=
  DescendantNode_loop [] _ _ := Stop InvalidArgument;
  DescendantNode_loop (node :: queue) currentIndex index
    with Z.eqb currentIndex index => {
    | true := Ok node;
    | false :=
        DescendantNode_loop (queue ++ children node)
                            (wrap (currentIndex + 1)) index }.
Proof.
  rewrite forest_count_app, (forest_count_children node). simpl. lia.
Qed.

(** [DescendantNode(index)] (lines 563-598). *)
Definition DescendantNode (this : tree) (index : Z) : outcome tree :=
  DescendantNode_loop (children this) 0 index.

(** The breadth-first walk of a forest, level by level: the roots from
    left to right, then the walk of all their children.  [depth] bounds
    the number of levels. *)
Fixpoint level_order (depth : nat) (forest : list tree) : list tree :=
  match depth with
  | O => []
  | S depth => forest ++ level_order depth (concat (map children forest))
  end.

(** Number of levels of a subtree. *)
Fixpoint height (n : tree) : nat :=
  S (Nat.max (match Left n with Some l => height l | None => O end)
             (match Right n with Some r => height r | None => O end)).

(** The breadth-first walk of the proper descendants of a node. *)
Definition breadth_first_descendants (n : tree) : list tree :=
  level_order (height n) (children n).
End Enumeration.

(** ** Construction *)

(** The memory beside the nodes: the allocator ([next_free], the first
    address not in use) and the matrices, by address. *)
Record memory {MatType : Type} : Type := Memory {
  next_free : ptr;
  matrices : gmap ptr MatType }.
Arguments memory : clear implicits.
Arguments Memory {MatType} next_free matrices.

(** One call of the split strategy, as the tree observes it: the range
    passed and the answer. *)
Record split_call : Type := SplitCall {
  call_begin : Z;
  call_count : Z;
  call_split : bool }.

(** What construction reads and writes besides the node it builds: the
    memory, the local variable [splitter] of the public constructor, and
    the calls made to it so far, oldest first. *)
Record machine {MatType SplitType : Type} : Type := Machine {
  mem : memory MatType;
  splitter : SplitType;
  split_calls : list split_call }.
Arguments machine : clear implicits.
Arguments Machine {MatType SplitType} mem splitter split_calls.

(** [new] of an object: the next free address. *)
Definition allocate {MatType} (m : memory MatType) : ptr * memory MatType :=
  (next_free m, Memory (Pos.succ (next_free m)) (matrices m)).

(** [new MatType(data)]. *)
Definition allocate_matrix {MatType} (data : MatType) (m : memory MatType)
  : ptr * memory MatType :=
  (next_free m, Memory (Pos.succ (next_free m)) (<[next_free m := data]> (matrices m))).

(** [*dataset] for a [MatType* dataset]. *)
Definition matrix_at {MatType} (dataset : option ptr) (m : memory MatType)
  : outcome MatType :=
  match dataset with
  | None => Stop BadPointer
  | Some d => match matrices m !! d with
              | Some data => Ok data
              | None => Stop BadPointer
              end
  end.

(** *** [std::vector<size_t>]

    [operator[]] outside the vector is undefined in C++: the model stops
    there. *)
Definition vector_resize (n : Z) (v : list Z) : list Z :=
  take (Z.to_nat n) (v ++ replicate (Z.to_nat n) 0).

Definition vector_get (v : list Z) (i : Z) : outcome Z :=
  if (0 <=? i) && (i <? Z.of_nat (length v)) then
    match v !! Z.to_nat i with Some x => Ok x | None => Stop BadPointer end
  else Stop BadPointer.

Definition vector_set (v : list Z) (i x : Z) : outcome (list Z) :=
  if (0 <=? i) && (i <? Z.of_nat (length v)) then Ok (<[Z.to_nat i := x]> v)
  else Stop BadPointer.

(** [for (size_t i = first; i < ...; i++) body]: [iterations] is the number
    of times the test succeeds. *)
Fixpoint for_loop {State : Type} (iterations : nat) (i : Z)
    (body : Z -> State -> outcome State) (s : State) : outcome State :=
  match iterations with
  | O => Ok s
  | S iterations =>
    match body i s with
    | Ok s' => for_loop iterations (wrap (i + 1)) body s'
    | Stop f => Stop f
    end
  end.

Section Build.
Context {BoundType StatisticType MatType SplitType VecType : Type}.
Abbreviation tree := (BinarySpaceTree BoundType StatisticType).
Abbreviation state := (machine MatType SplitType).

(** A computation on the machine. *)
Definition M (A : Type) : Type := state -> outcome (A * state).

Definition ret {A} (a : A) : M A := fun s => Ok (a, s).
Definition bind {A B} (m : M A) (k : A -> M B) : M B :=
  fun s => match m s with
           | Ok (a, s') => k a s'
           | Stop f => Stop f
           end.
Definition stop {A} (f : failure) : M A := fun _ => Stop f.
Definition lift {A} (o : outcome A) : M A :=
  fun s => match o with Ok a => Ok (a, s) | Stop f => Stop f end.

Notation "x <- m ;; k" := (bind m (fun x => k))
  (at level 100, m at next level, right associativity).

Definition alloc : M ptr :=
  fun s => let '(a, m) := allocate (mem s) in
           Ok (a, Machine m (splitter s) (split_calls s)).

Definition new_matrix (data : MatType) : M ptr :=
  fun s => let '(a, m) := allocate_matrix data (mem s) in
           Ok (a, Machine m (splitter s) (split_calls s)).

Definition deref (dataset : option ptr) : M MatType :=
  fun s => match matrix_at dataset (mem s) with
           | Ok data => Ok (data, s)
           | Stop f => Stop f
           end.

(** [SplitType splitter;] *)
Definition declare_splitter (sp : SplitType) : M unit :=
  fun s => Ok (tt, Machine (mem s) sp (split_calls s)).

(** The members of the template parameters that the tree calls. *)
Variable n_rows n_cols : MatType -> Z.
(** [BoundType(dimension)]. *)
Variable new_BoundType : Z -> BoundType.
(** [bound |= dataset->cols(first, last)]. *)
Variable expand_to_cols : BoundType -> MatType -> Z -> Z -> BoundType.
Variable Diameter : BoundType -> float.
(** [Centroid(c)], which is [bound.Centroid(c)]. *)
Variable Centroid : BoundType -> VecType.
(** [bound.Metric().Evaluate(a, b)]. *)
Variable Metric_Evaluate : BoundType -> VecType -> VecType -> float.
(** [StatisticType()] and [StatisticType(node)]. *)
Variable default_StatisticType : StatisticType.
Variable new_StatisticType : tree -> StatisticType.
(** [SplitType()]. *)
Variable new_SplitType : SplitType.
(** [splitter.SplitNode(bound, data, begin, count, splitCol)]: the
    answer, [splitCol], and the matrix and the splitter afterwards. *)
Variable splitter_SplitNode :
  SplitType -> BoundType -> MatType -> Z -> Z -> bool * Z * MatType * SplitType.
(** [splitter.SplitNode(bound, data, begin, count, splitCol, oldFromNew)]. *)
Variable splitter_SplitNode_tracking :
  SplitType -> BoundType -> MatType -> Z -> Z -> list Z ->
  bool * Z * MatType * list Z * SplitType.
(** The value of a [double] member that no initializer has set. *)
Variable indeterminate : float.

(** [FurthestPointDistance()] (lines 434-446). *)
Definition FurthestPointDistance (n : tree) : float :=
  if negb (IsLeaf n) then 0%float
  else PrimFloat.mul 0.5%float (Diameter (Bound n)).

(** The call [splitter.SplitNode(bound, *dataset, begin, count, splitCol)]
    of lines 651-652, on the machine. *)
Definition call_splitter (bound : BoundType) (dataset : option ptr)
    (begin count : Z) : M (bool * Z) :=
  fun s =>
    match dataset with
    | None => Stop BadPointer
    | Some d =>
      match matrices (mem s) !! d with
      | None => Stop BadPointer
      | Some data =>
        let '(split, splitCol, data', sp') :=
          splitter_SplitNode (splitter s) bound data begin count in
        Ok ((split, splitCol),
            Machine (Memory (next_free (mem s))
                            (<[d := data']> (matrices (mem s))))
                    sp' (split_calls s ++ [SplitCall begin count split]))
      end
    end.

(** The same for lines 708-709, with [oldFromNew]. *)
Definition call_splitter_tracking (bound : BoundType) (dataset : option ptr)
    (begin count : Z) (oldFromNew : list Z) : M (bool * Z * list Z) :=
  fun s =>
    match dataset with
    | None => Stop BadPointer
    | Some d =>
      match matrices (mem s) !! d with
      | None => Stop BadPointer
      | Some data =>
        let '(split, splitCol, data', oldFromNew', sp') :=
          splitter_SplitNode_tracking (splitter s) bound data begin count
                                      oldFromNew in
        Ok ((split, splitCol, oldFromNew'),
            Machine (Memory (next_free (mem s))
                            (<[d := data']> (matrices (mem s))))
                    sp' (split_calls s ++ [SplitCall begin count split]))
      end
    end.

(** The private constructor
    [BinarySpaceTree(parent, begin, count, splitter, maxLeafSize)]
    (lines 116-135) reached through [new]; [SplitNode] is the function it
    calls to split. *)
Definition new_BinarySpaceTree_child (SplitNode : Z -> tree -> M tree)
    (parent : tree) (begin count : Z) (maxLeafSize : Z) : M tree :=
  this <- alloc ;;
  data <- deref (Dataset parent) ;;
  let node :=
    Node this None None (Some (self parent)) begin count
         (new_BoundType (n_rows data)) default_StatisticType
         indeterminate indeterminate (Dataset parent) in
  node <- SplitNode maxLeafSize node ;;
  ret (set_Stat (new_StatisticType node) node).

(** [SplitNode(maxLeafSize, splitter)] (lines 626-679).  [fuel] bounds the
    depth of the recursion through the constructor of the children. *)
Fixpoint SplitNode (fuel : nat) (maxLeafSize : Z) (this : tree) : M tree :=
  match fuel with
  | O => stop OutOfFuel
  | S fuel =>
    data <- deref (Dataset this) ;;
    let this :=
      set_Bound (expand_to_cols (Bound this) data (Begin this)
                   (wrap (wrap (Begin this + Count this) - 1))) this in
    let this :=
      set_FurthestDescendantDistance
        (PrimFloat.mul 0.5%float (Diameter (Bound this))) this in
    if Count this <=? maxLeafSize then ret this
    else
      answer <-
        call_splitter (Bound this) (Dataset this) (Begin this) (Count this) ;;
      let '(split, splitCol) := answer in
      if negb split then ret this
      else
        leftChild <- new_BinarySpaceTree_child (SplitNode fuel) this (Begin this)
                  (wrap (splitCol - Begin this)) maxLeafSize ;;
        let this := set_Left (Some leftChild) this in
        rightChild <- new_BinarySpaceTree_child (SplitNode fuel) this splitCol
                   (wrap (wrap (Begin this + Count this) - splitCol))
                   maxLeafSize ;;
        let this := set_Right (Some rightChild) this in
        let centroid := Centroid (Bound this) in
        let leftCentroid := Centroid (Bound leftChild) in
        let rightCentroid := Centroid (Bound rightChild) in
        let leftParentDistance :=
          Metric_Evaluate (Bound this) centroid leftCentroid in
        let rightParentDistance :=
          Metric_Evaluate (Bound this) centroid rightCentroid in
        let this :=
          set_Left (Some (set_ParentDistance leftParentDistance leftChild)) this in
        let this :=
          set_Right (Some (set_ParentDistance rightParentDistance rightChild))
                    this in
        ret this
  end.

(** The public constructor [BinarySpaceTree(data, maxLeafSize)]
    (lines 26-44), for an object placed at a fresh address. *)
Definition new_BinarySpaceTree (fuel : nat) (data : MatType)
    (maxLeafSize : Z) : M tree :=
  this <- alloc ;;
  dataset <- new_matrix data ;;
  let node :=
    Node this None None None 0 (n_cols data) (new_BoundType (n_rows data))
         default_StatisticType 0%float indeterminate (Some dataset) in
  _ <- declare_splitter new_SplitType ;;
  node <- SplitNode fuel maxLeafSize node ;;
  ret (set_Stat (new_StatisticType node) node).

(** *** Construction with the permutation vectors *)

(** The private constructor
    [BinarySpaceTree(parent, begin, count, oldFromNew, splitter,
    maxLeafSize)] (lines 137-165) reached through [new]. *)
Definition new_BinarySpaceTree_child_tracking
    (SplitNode : list Z -> Z -> tree -> M (tree * list Z))
    (parent : tree) (begin count : Z) (oldFromNew : list Z)
    (maxLeafSize : Z) : M (tree * list Z) :=
  this <- alloc ;;
  data <- deref (Dataset parent) ;;
  let node :=
    Node this None None (Some (self parent)) begin count
         (new_BoundType (n_rows data)) default_StatisticType
         indeterminate indeterminate (Dataset parent) in
  data <- deref (Dataset node) ;;
  if negb (Z.of_nat (length oldFromNew) =? n_cols data) then
    stop AssertionFailed
  else
    result <- SplitNode oldFromNew maxLeafSize node ;;
    let '(node, oldFromNew) := result in
    ret (set_Stat (new_StatisticType node) node, oldFromNew).

(** [SplitNode(oldFromNew, maxLeafSize, splitter)] (lines 681-736). *)
Fixpoint SplitNode_tracking (fuel : nat) (oldFromNew : list Z)
    (maxLeafSize : Z) (this : tree) : M (tree * list Z) :=
  match fuel with
  | O => stop OutOfFuel
  | S fuel =>
    data <- deref (Dataset this) ;;
    let this :=
      set_Bound (expand_to_cols (Bound this) data (Begin this)
                   (wrap (wrap (Begin this + Count this) - 1))) this in
    let this :=
      set_FurthestDescendantDistance
        (PrimFloat.mul 0.5%float (Diameter (Bound this))) this in
    if Count this <=? maxLeafSize then ret (this, oldFromNew)
    else
      answer <-
        call_splitter_tracking (Bound this) (Dataset this) (Begin this)
                               (Count this) oldFromNew ;;
      let '(split, splitCol, oldFromNew) := answer in
      if negb split then ret (this, oldFromNew)
      else
        result <- new_BinarySpaceTree_child_tracking
                    (SplitNode_tracking fuel) this (Begin this)
                    (wrap (splitCol - Begin this)) oldFromNew maxLeafSize ;;
        let '(leftChild, oldFromNew) := result in
        let this := set_Left (Some leftChild) this in
        result <- new_BinarySpaceTree_child_tracking
                    (SplitNode_tracking fuel) this splitCol
                    (wrap (wrap (Begin this + Count this) - splitCol))
                    oldFromNew maxLeafSize ;;
        let '(rightChild, oldFromNew) := result in
        let this := set_Right (Some rightChild) this in
        let centroid := Centroid (Bound this) in
        let leftCentroid := Centroid (Bound leftChild) in
        let rightCentroid := Centroid (Bound rightChild) in
        let leftParentDistance :=
          Metric_Evaluate (Bound this) centroid leftCentroid in
        let rightParentDistance :=
          Metric_Evaluate (Bound this) centroid rightCentroid in
        let this :=
          set_Left (Some (set_ParentDistance leftParentDistance leftChild)) this in
        let this :=
          set_Right (Some (set_ParentDistance rightParentDistance rightChild))
                    this in
        ret (this, oldFromNew)
  end.

(** The loop of lines 96-97: [oldFromNew[i] = i]. *)
Definition fill_identity (n : Z) (oldFromNew : list Z) : outcome (list Z) :=
  for_loop (Z.to_nat n) 0 (fun i v => vector_set v i i) oldFromNew.

(** The loop of lines 108-109: [newFromOld[oldFromNew[i]] = i]. *)
Definition invert_mapping (n : Z) (oldFromNew newFromOld : list Z)
  : outcome (list Z) :=
  for_loop (Z.to_nat n) 0
    (fun i v => match vector_get oldFromNew i with
                | Ok j => vector_set v j i
                | Stop f => Stop f
                end)
    newFromOld.

(** The public constructor [BinarySpaceTree(data, oldFromNew, maxLeafSize)]
    (lines 46-74).  The vector comes in by reference, with whatever it
    holds. *)
Definition new_BinarySpaceTree_oldFromNew (fuel : nat) (data : MatType)
    (oldFromNew : list Z) (maxLeafSize : Z) : M (tree * list Z) :=
  this <- alloc ;;
  dataset <- new_matrix data ;;
  let node :=
    Node this None None None 0 (n_cols data) (new_BoundType (n_rows data))
         default_StatisticType 0%float indeterminate (Some dataset) in
  let oldFromNew := vector_resize (n_cols data) oldFromNew in
  oldFromNew <- lift (fill_identity (n_cols data) oldFromNew) ;;
  _ <- declare_splitter new_SplitType ;;
  result <- SplitNode_tracking fuel oldFromNew maxLeafSize node ;;
  let '(node, oldFromNew) := result in
  ret (set_Stat (new_StatisticType node) node, oldFromNew).

(** The public constructor
    [BinarySpaceTree(data, oldFromNew, newFromOld, maxLeafSize)]
    (lines 76-110).  The two vectors come in by reference, with whatever
    they hold, and the result gives what they hold afterwards. *)
Definition new_BinarySpaceTree_tracking (fuel : nat) (data : MatType)
    (oldFromNew newFromOld : list Z) (maxLeafSize : Z)
  : M (tree * list Z * list Z) :=
  this <- alloc ;;
  dataset <- new_matrix data ;;
  let node :=
    Node this None None None 0 (n_cols data) (new_BoundType (n_rows data))
         default_StatisticType 0%float indeterminate (Some dataset) in
  let oldFromNew := vector_resize (n_cols data) oldFromNew in
  oldFromNew <- lift (fill_identity (n_cols data) oldFromNew) ;;
  _ <- declare_splitter new_SplitType ;;
  result <- SplitNode_tracking fuel oldFromNew maxLeafSize node ;;
  let '(node, oldFromNew) := result in
  let node := set_Stat (new_StatisticType node) node in
  let newFromOld := vector_resize (n_cols data) newFromOld in
  newFromOld <- lift (invert_mapping (n_cols data) oldFromNew newFromOld) ;;
  ret (node, oldFromNew, newFromOld).
End Build.

(** ** Objects by address *)

Section Addresses.
Context {BoundType StatisticType : Type}.
Abbreviation tree := (BinarySpaceTree BoundType StatisticType).

(** [*p] for a [BinarySpaceTree* p] into the tree owned by [root]: the
    node object placed at address [p]. *)
Fixpoint node_at (p : ptr) (root : tree) : option tree :=
  if Pos.eqb (self root) p then Some root
  else
    match match Left root with Some l => node_at p l | None => None end with
    | Some n => Some n
    | None => match Right root with Some r => node_at p r | None => None end
    end.

(** [p->dataset = d] for a [BinarySpaceTree* p] into the tree owned by
    [root]. *)
Fixpoint assign_dataset (p : ptr) (d : option ptr) (root : tree) : tree :=
  match root with
  | Node a l r pa b c bd st pd fd ds =>
    Node a
         (match l with Some x => Some (assign_dataset p d x) | None => None end)
         (match r with Some x => Some (assign_dataset p d x) | None => None end)
         pa b c bd st pd fd
         (if Pos.eqb a p then d else ds)
  end.

(** The address held by a child pointer. *)
Definition address_of (child : option tree) : option ptr :=
  match child with Some n => Some (self n) | None => None end.

(** The addresses of the objects of a subtree, the node itself first. *)
Definition addresses (n : tree) : list ptr := map self (nodes n).
End Addresses.

(** ** The copy constructor *)

Section Copy.
Context {BoundType StatisticType MatType : Type}.
Abbreviation tree := (BinarySpaceTree BoundType StatisticType).

(** The loop of lines 246-256, for the queue of node pointers, front
    first, on the tree owned by [this].  [fuel] bounds the number of
    iterations. *)
Fixpoint propagate_dataset (fuel : nat) (dataset : option ptr)
    (queue : list ptr) (this : tree) : outcome tree :=
  match queue with
  | [] => Ok this
  | p :: queue =>
    match fuel with
    | O => Stop OutOfFuel
    | S fuel =>
      match node_at p this with
      | None => Stop BadPointer
      | Some node =>
        let this := assign_dataset p dataset this in
        propagate_dataset fuel dataset
          (queue ++ option_list (address_of (Left node))
                 ++ option_list (address_of (Right node)))
          this
      end
    end
  end.

(** Lines 226-230 and 232-236: [if (other.Left()) { left = new
    BinarySpaceTree( *other.Left()); left->Parent() = this; }], and the same
    for the right child.  [copy] is the copy constructor, [assign] the
    assignment to [left] or to [right]. *)
Definition copy_child
    (copy : ptr -> tree -> memory MatType -> outcome (tree * memory MatType))
    (otherChild : option tree) (assign : option tree -> tree -> tree)
    (node : tree) (m : memory MatType) : outcome (tree * memory MatType) :=
  match otherChild with
  | None => Ok (node, m)
  | Some otherChild =>
    let '(a, m) := allocate m in
    match copy a otherChild m with
    | Ok (c, m) => Ok (assign (Some (set_Parent (Some (self node)) c)) node, m)
    | Stop f => Stop f
    end
  end.

(** Lines 238-257: [if (parent == NULL) { ... the queue loop ... }]. *)
Definition propagate_if_root (node : tree) : outcome tree :=
  match Parent node with
  | None =>
    propagate_dataset (node_count node) (Dataset node)
      (option_list (address_of (Left node))
       ++ option_list (address_of (Right node)))
      node
  | Some _ => Ok node
  end.

(** The member initializer of [dataset] (line 223): a new matrix copied
    from the other tree's when [other.parent == NULL], [NULL] otherwise. *)
Definition copy_dataset (other : tree) (m : memory MatType)
  : outcome (option ptr * memory MatType) :=
  match Parent other with
  | None =>
    match matrix_at (Dataset other) m with
    | Ok data => let '(d, m) := allocate_matrix data m in Ok (Some d, m)
    | Stop f => Stop f
    end
  | Some _ => Ok (None, m)
  end.

(** [BinarySpaceTree(const BinarySpaceTree& other)] (lines 211-258) for an
    object placed at address [this]. *)
Fixpoint copy_BinarySpaceTree (this : ptr) (other : tree)
    (m : memory MatType) : outcome (tree * memory MatType) :=
  match copy_dataset other m with
  | Stop f => Stop f
  | Ok (dataset, m) =>
    let node :=
      Node this None None (Parent other) (Begin other) (Count other)
           (Bound other) (Stat other) (ParentDistance other)
           (FurthestDescendantDistance other) dataset in
    match copy_child copy_BinarySpaceTree (Left other) set_Left node m with
    | Stop f => Stop f
    | Ok (node, m) =>
      match copy_child copy_BinarySpaceTree (Right other) set_Right node m with
      | Stop f => Stop f
      | Ok (node, m) =>
        match propagate_if_root node with
        | Ok node => Ok (node, m)
        | Stop f => Stop f
        end
      end
    end
  end.
(** [delete dataset] for a [MatType* dataset]: nothing for [NULL]; the
    matrix is gone afterwards, and deleting what is not there is
    undefined in C++: the model stops. *)
Definition delete_matrix (dataset : option ptr) (m : memory MatType)
  : outcome (memory MatType) :=
  match dataset with
  | None => Ok m
  | Some d =>
    match matrices m !! d with
    | Some _ => Ok (Memory (next_free m) (delete d (matrices m)))
    | None => Stop BadPointer
    end
  end.

(** [~BinarySpaceTree()] (lines 284-299): the children are deleted, then
    the matrix when the node has no parent. *)
Fixpoint delete_BinarySpaceTree (this : tree) (m : memory MatType)
  : outcome (memory MatType) :=
  match
    match Left this with
    | Some l => delete_BinarySpaceTree l m
    | None => Ok m
    end
  with
  | Stop f => Stop f
  | Ok m =>
    match
      match Right this with
      | Some r => delete_BinarySpaceTree r m
      | None => Ok m
      end
    with
    | Stop f => Stop f
    | Ok m =>
      match Parent this with
      | None => delete_matrix (Dataset this) m
      | Some _ => Ok m
      end
    end
  end.

End Copy.

(** ** Saving with [Serialize] *)

Section Serialization.
Context {BoundType StatisticType : Type}.
Abbreviation tree := (BinarySpaceTree BoundType StatisticType).

(** What one node writes to the archive when saving, in the order of
    lines 804-810 and 836-837. *)
Inductive archive : Type := Saved {
  saved_begin : Z;
  saved_count : Z;
  saved_bound : BoundType;
  saved_statistic : StatisticType;
  saved_parentDistance : float;
  saved_furthestDescendantDistance : float;
  saved_dataset : option ptr;
  saved_left : option archive;
  saved_right : option archive }.


(** The ranges of the nodes in a saved form, a node before its
    children. *)
Fixpoint archive_ranges (a : archive) : list (Z * Z) :=
  (saved_begin a, saved_count a)
  :: match saved_left a with Some l => archive_ranges l | None => [] end
  ++ match saved_right a with Some r => archive_ranges r | None => [] end.

(** [double(maxDepth)] for an [unsigned int]. *)
Definition double_of_unsigned (n : Z) : float :=
  PrimFloat.of_uint63 (Uint63.of_Z n).

(** [std::abs(x) < 1e-10]. *)
Definition almost_zero (x : float) : bool :=
  PrimFloat.ltb (PrimFloat.abs x) 1e-10%float.

(** The value that [parentDistance] holds while the children of a node are
    saved (lines 820-823). *)
Definition levels_remaining (parentDistance_at : ptr -> float)
    (maxDepth : Z) (t : tree) : float :=
  match Parent t with
  | None => PrimFloat.sub (double_of_unsigned maxDepth) 1%float
  | Some p => PrimFloat.sub (parentDistance_at p) 1%float
  end.

(** [Serialize(ar, version, maxDepth)] (lines 783-861) for a saving
    archive.  The result is what was written and the node afterwards.
    [parentDistance_at p] is the [parentDistance] member that the object
    at address [p] holds at the time of the call; a child is saved through
    [Serialize(ar, version)] (lines 768-773), which passes [maxDepth = 0]. *)
Fixpoint Serialize_saving (parentDistance_at : ptr -> float)
    (maxDepth : Z) (this : tree) : archive * tree :=
  match this with
  | Node a leftChild rightChild parent begin count bound stat parentDistance
         furthestDescendantDistance dataset =>
    let oldParentDistance := parentDistance in
    let parentDistance :=
      match parent with
      | None => PrimFloat.sub (double_of_unsigned maxDepth) 1%float
      | Some p => PrimFloat.sub (parentDistance_at p) 1%float
      end in
    (* the members of the objects in memory while the children are saved *)
    let parentDistance_at' :=
      fun p => if Pos.eqb p a then parentDistance else parentDistance_at p in
    if almost_zero parentDistance then
      (* left = right = NULL; both are written as NULL and restored *)
      (Saved begin count bound stat oldParentDistance
             furthestDescendantDistance dataset None None,
       Node a leftChild rightChild parent begin count bound stat
            oldParentDistance furthestDescendantDistance dataset)
    else
      let '(savedLeft, leftChild) :=
        match leftChild with
        | None => (None, None)
        | Some l => let '(s, l) := Serialize_saving parentDistance_at' 0 l in
                    (Some s, Some l)
        end in
      let '(savedRight, rightChild) :=
        match rightChild with
        | None => (None, None)
        | Some r => let '(s, r) := Serialize_saving parentDistance_at' 0 r in
                    (Some s, Some r)
        end in
      (Saved begin count bound stat oldParentDistance
             furthestDescendantDistance dataset savedLeft savedRight,
       Node a leftChild rightChild parent begin count bound stat
            oldParentDistance furthestDescendantDistance dataset)
  end.
End Serialization.
Arguments archive : clear implicits.

(** ** The coordinator of the distributed traversal *)

(** [level < std::ceil(std::log2(world.size() - 1)) / 2] (line 113), for
    [world.size() >= 1] and [level < 2^53].

    The comparison is one of doubles, and it is exact: for an [int]
    [n >= 1], [std::log2(n)] is exact when [n] is a power of two and
    otherwise lies farther than [2^-32] from any integer, so its ceiling
    is the integer [Z.log2_up n]; halving a double and converting
    [level] are exact; for [n = 0] the logarithm is minus infinity and
    the comparison fails, as does [2 * level < 0]. *)
Definition recurse_locally (world_size level : Z) : bool :=
  2 * level <? Z.log2_up (world_size - 1).

(** The level counter of [MasterTraverse] at its first dispatch when no
    branch ends before: it starts at 0 and grows by one for each level
    that recurses locally. *)
Fixpoint first_dispatch_level (fuel : nat) (world_size level : Z) : Z :=
  match fuel with
  | O => level
  | S fuel =>
    if recurse_locally world_size level then
      first_dispatch_level fuel world_size (wrap (level + 1))
    else level
  end.

(** The dispatch depth for a communicator of [world_size] processes
    ([world_size] is an [int], so fewer than 64 levels recurse). *)
Definition dispatchDepth (world_size : Z) : Z :=
  first_dispatch_level 64 world_size 0.

(** The four branches of a dual recursion: the side taken in the query
    tree and the side taken in the reference tree. *)
Inductive side : Type := L | R.

Definition branch : Type := (side * side)%type.

(** The two bits of a branch: the query side is the high bit. *)
Definition branch_bits (b : branch) : Z :=
  (match fst b with L => 0 | R => 2 end)
  + (match snd b with L => 0 | R => 1 end).

(** The bits of the branches of a recursion, the first branch taken in
    the most significant place. *)
Definition path_bits (path : list branch) : Z :=
  fold_left (fun acc b => 4 * acc + branch_bits b) path 0.

(** A message of the coordinator: the rank it goes to and what the
    [MPIWrapper] holds, the addresses of the two nodes and the rule. *)
Record message {RuleType : Type} : Type := Message {
  target_rank : Z;
  sent_reference : ptr;
  sent_query : ptr;
  sent_rule : RuleType }.
Arguments message : clear implicits.
Arguments Message {RuleType} target_rank sent_reference sent_query sent_rule.

(** The coordinator: its rule, the messages sent so far, oldest first, and
    the array [resultRequests], where [Some r] is a receive registered
    for rank [r]. *)
Record coordinator {RuleType : Type} : Type := Coordinator {
  rule : RuleType;
  sent : list (message RuleType);
  resultRequests : list (option Z) }.
Arguments coordinator : clear implicits.
Arguments Coordinator {RuleType} rule sent resultRequests.

Section Traversal.
Context {BoundType StatisticType RuleType : Type}.
Abbreviation tree := (BinarySpaceTree BoundType StatisticType).

(** [rule->Score(queryNode, referenceNode)]: the score, and the rule
    afterwards. *)
Variable Score : RuleType -> tree -> tree -> float * RuleType.
(** [rule->BaseCase(queryIndex, referenceIndex)]: the rule afterwards. *)
Variable BaseCase : RuleType -> Z -> Z -> RuleType.

Definition DBL_MAX : float := 0x1.fffffffffffffp+1023%float.

(** The selected child, dereferenced. *)
Definition child (s : side) (n : tree) : outcome tree :=
  match match s with L => Left n | R => Right n end with
  | Some c => Ok c
  | None => Stop BadPointer
  end.

(** The loop of [GetTarget] (lines 204-219).  The parents are found in
    the trees owned by the two roots; [fuel] bounds the number of
    iterations.  A shift by 64 bits or more is undefined in C++: here it
    gives the shifted value, wrapped. *)
Fixpoint GetTarget_loop (fuel : nat) (queryRoot referenceRoot : tree)
    (currentQuery currentRef : tree) (level index : Z) : outcome Z :=
  match Parent currentQuery, Parent currentRef with
  | Some queryParent, Some refParent =>
    match fuel with
    | O => Stop OutOfFuel
    | S fuel =>
      match node_at queryParent queryRoot, node_at refParent referenceRoot with
      | Some queryParentNode, Some refParentNode =>
        let currentIndex := 0 in
        let currentIndex :=
          if decide (address_of (Right queryParentNode)
                     = Some (self currentQuery))
          then wrap (currentIndex + 2) else currentIndex in
        let currentIndex :=
          if decide (address_of (Right refParentNode)
                     = Some (self currentRef))
          then wrap (currentIndex + 1) else currentIndex in
        let index :=
          wrap (index + wrap (Z.shiftl currentIndex (wrap (level * 2)))) in
        let level := wrap (level + 1) in
        GetTarget_loop fuel queryRoot referenceRoot
                       queryParentNode refParentNode level index
      | _, _ => Stop BadPointer
      end
    end
  | _, _ => Ok index
  end.

(** [GetTarget(queryNode, referenceNode)] (lines 183-222). *)
Definition GetTarget (queryRoot referenceRoot : tree)
    (queryNode referenceNode : tree) : outcome Z :=
  match
    GetTarget_loop (node_count queryRoot) queryRoot referenceRoot
                   queryNode referenceNode 0 0
  with
  | Ok index => Ok (wrap (index + 1))
  | Stop f => Stop f
  end.

(** [world.send(target, 0, wrapper)] followed by
    [resultRequests[target - 1] = world.irecv(target, 0, ...)]
    (lines 158-164). *)
Definition dispatch (world_size : Z) (target : Z) (queryNode referenceNode : tree)
    (c : coordinator RuleType) : outcome (coordinator RuleType) :=
  if negb ((0 <=? target) && (target <? world_size)) then Stop BadRank
  else
    let c :=
      Coordinator (rule c)
        (sent c ++ [Message target (self referenceNode) (self queryNode)
                            (rule c)])
        (resultRequests c) in
    let slot := wrap (target - 1) in
    if negb (slot <? Z.of_nat (length (resultRequests c))) then Stop BadPointer
    else
      Ok (Coordinator (rule c) (sent c)
            (<[Z.to_nat slot := Some target]> (resultRequests c))).

(** The two loops of lines 122-124. *)
Definition base_cases (queryNode referenceNode : tree) (r : RuleType)
  : outcome RuleType :=
  for_loop (Z.to_nat (NumPoints queryNode)) 0
    (fun i r =>
       for_loop (Z.to_nat (NumPoints referenceNode)) 0
         (fun j r => Ok (BaseCase r (Point queryNode i)
                                    (Point referenceNode j)))
         r)
    r.

(** [MasterTraverse(queryNode, referenceNode, level)] (lines 105-167).
    [fuel] bounds the depth of the recursion. *)
Fixpoint MasterTraverse (fuel : nat) (world_size : Z)
    (queryRoot referenceRoot : tree) (queryNode referenceNode : tree)
    (level : Z) (c : coordinator RuleType) : outcome (coordinator RuleType) :=
  match fuel with
  | O => Stop OutOfFuel
  | S fuel =>
    let recurse q r c :=
      match q, r with
      | Ok q, Ok r =>
        MasterTraverse fuel world_size queryRoot referenceRoot q r
                       (wrap (level + 1)) c
      | Stop f, _ | _, Stop f => Stop f
      end in
    let then_ (o : outcome (coordinator RuleType)) k :=
      match o with Ok c => k c | Stop f => Stop f end in
    if recurse_locally world_size level then
      let '(score, r) := Score (rule c) queryNode referenceNode in
      let c := Coordinator r (sent c) (resultRequests c) in
      if PrimFloat.eqb score DBL_MAX then Ok c
      else
        match base_cases queryNode referenceNode (rule c) with
        | Stop f => Stop f
        | Ok r =>
          let c := Coordinator r (sent c) (resultRequests c) in
          if negb (IsLeaf queryNode) && negb (IsLeaf referenceNode) then
            then_ (recurse (child L queryNode) (child L referenceNode) c)
              (fun c =>
            then_ (recurse (child L queryNode) (child R referenceNode) c)
              (fun c =>
            then_ (recurse (child R queryNode) (child L referenceNode) c)
              (fun c =>
            recurse (child R queryNode) (child R referenceNode) c)))
          else if IsLeaf queryNode && negb (IsLeaf referenceNode) then
            then_ (recurse (Ok queryNode) (child L referenceNode) c)
              (fun c =>
            recurse (Ok queryNode) (child R referenceNode) c)
          else if negb (IsLeaf queryNode) && IsLeaf referenceNode then
            then_ (recurse (child L queryNode) (Ok referenceNode) c)
              (fun c =>
            recurse (child R queryNode) (Ok referenceNode) c)
          else Ok c
        end
    else
      match GetTarget queryRoot referenceRoot queryNode referenceNode with
      | Stop f => Stop f
      | Ok target => dispatch world_size target queryNode referenceNode c
      end
  end.

(** The coordinator's part of [Traverse] up to the wait for the results
    (lines 74-82): the arrays of [world.size() - 1] entries, then
    [MasterTraverse(queryNode, referenceNode)] from level 0. *)
Definition Traverse_dispatching (world_size : Z) (r : RuleType)
    (queryNode referenceNode : tree) : outcome (coordinator RuleType) :=
  MasterTraverse (S (Z.to_nat (Z.log2_up (world_size - 1)))) world_size
                 queryNode referenceNode queryNode referenceNode 0
                 (Coordinator r [] (replicate (Z.to_nat (world_size - 1)) None)).
End Traversal.

(** ** An instance of the template parameters

    One-dimensional points with integer coordinates: a matrix of one row
    is the list of its columns, a bound is the interval spanned so far,
    the statistic is empty, and the split strategy reverses the columns
    of the range it is given and halves the range; it reports failure on
    a range of fewer than two points. *)

Module Example.

Definition MatType : Type := list Z.
Definition BoundType : Type := option (Z * Z).
Definition StatisticType : Type := unit.
Definition SplitType : Type := unit.
Definition VecType : Type := Z.

Definition n_rows (data : MatType) : Z := 1.
Definition n_cols (data : MatType) : Z := Z.of_nat (length data).

Definition new_BoundType (dimension : Z) : BoundType := None.

Definition cover (b : BoundType) (x : Z) : BoundType :=
  match b with
  | None => Some (x, x)
  | Some (lo, hi) => Some (Z.min lo x, Z.max hi x)
  end.

Definition expand_to_cols (b : BoundType) (data : MatType) (first last : Z)
  : BoundType :=
  fold_left cover
    (take (Z.to_nat (last - first + 1)) (drop (Z.to_nat first) data)) b.

Definition Diameter (b : BoundType) : float :=
  match b with
  | None => 0%float
  | Some (lo, hi) => PrimFloat.of_uint63 (Uint63.of_Z (hi - lo))
  end.

(** Twice the midpoint, to stay in the integers. *)
Definition Centroid (b : BoundType) : VecType :=
  match b with None => 0 | Some (lo, hi) => lo + hi end.

Definition Metric_Evaluate (b : BoundType) (x y : VecType) : float :=
  PrimFloat.div (PrimFloat.of_uint63 (Uint63.of_Z (Z.abs (x - y)))) 2%float.

Definition default_StatisticType : StatisticType := tt.
Definition new_StatisticType (n : BinarySpaceTree BoundType StatisticType)
  : StatisticType := tt.
Definition new_SplitType : SplitType := tt.

(** The columns [begin .. begin + count - 1] in reverse order, the others
    in place. *)
Definition reverse_range {A} (begin count : Z) (v : list A) : list A :=
  take (Z.to_nat begin) v
  ++ rev (take (Z.to_nat count) (drop (Z.to_nat begin) v))
  ++ drop (Z.to_nat count) (drop (Z.to_nat begin) v).

Definition splitter_SplitNode (sp : SplitType) (b : BoundType)
    (data : MatType) (begin count : Z) : bool * Z * MatType * SplitType :=
  if 2 <=? count then
    (true, wrap (begin + count / 2), reverse_range begin count data, sp)
  else (false, 0, data, sp).

Definition splitter_SplitNode_tracking (sp : SplitType) (b : BoundType)
    (data : MatType) (begin count : Z) (oldFromNew : list Z)
  : bool * Z * MatType * list Z * SplitType :=
  if 2 <=? count then
    (true, wrap (begin + count / 2), reverse_range begin count data,
     reverse_range begin count oldFromNew, sp)
  else (false, 0, data, oldFromNew, sp).

Definition indeterminate : float := PrimFloat.nan.

(** The machine before anything is allocated. *)
Definition boot : machine MatType SplitType :=
  Machine (Memory 1%positive ∅) tt [].

(** The two public constructors on this instance. *)
Definition build (fuel : nat) (data : MatType) (maxLeafSize : Z) :=
  new_BinarySpaceTree n_rows n_cols new_BoundType expand_to_cols Diameter
    Centroid Metric_Evaluate default_StatisticType new_StatisticType
    new_SplitType splitter_SplitNode indeterminate fuel data maxLeafSize.

Definition build_tracking (fuel : nat) (data : MatType)
    (oldFromNew newFromOld : list Z) (maxLeafSize : Z) :=
  new_BinarySpaceTree_tracking n_rows n_cols new_BoundType expand_to_cols
    Diameter Centroid Metric_Evaluate default_StatisticType
    new_StatisticType new_SplitType splitter_SplitNode_tracking
    indeterminate fuel data oldFromNew newFromOld maxLeafSize.

(** Scenario A of the specification: eight points with the values 1 to
    8, [maxLeafSize = 2]. *)
Definition scenarioA_data : MatType := [1; 2; 3; 4; 5; 6; 7; 8].

Definition scenarioA_run := build 9 scenarioA_data 2 boot.

(** The tree of scenario A, as the constructor leaves it. *)
Definition scenarioA : BinarySpaceTree BoundType StatisticType :=
  Eval vm_compute in
    match scenarioA_run with
    | Ok (t, _) => t
    | Stop _ => Node 1%positive None None None 0 0 None tt 0%float 0%float None
    end.

(** The memory when scenario A is built: the nodes lie at the addresses
    1 and 3 to 8, the matrix at the address 2. *)
Definition scenarioA_memory : memory MatType :=
  Memory 9%positive {[ 2%positive := [5; 6; 7; 8; 1; 2; 3; 4] ]}.

(** The two children of the root of scenario A. *)
Definition scenarioA_left : BinarySpaceTree BoundType StatisticType :=
  Eval vm_compute in
    match Left scenarioA with Some l => l | None => scenarioA end.

Definition scenarioA_right : BinarySpaceTree BoundType StatisticType :=
  Eval vm_compute in
    match Right scenarioA with Some r => r | None => scenarioA end.

(** The first two leaves of scenario A, with the points 0, 1 and 2, 3. *)
Definition scenarioA_leaf_0 : BinarySpaceTree BoundType StatisticType :=
  Eval vm_compute in
    match leaves scenarioA with l :: _ => l | _ => scenarioA end.

Definition scenarioA_leaf_1 : BinarySpaceTree BoundType StatisticType :=
  Eval vm_compute in
    match leaves scenarioA with _ :: l :: _ => l | _ => scenarioA end.

(** A root that is a leaf: two equal points, [maxLeafSize = 2]. *)
Definition two_points : BinarySpaceTree BoundType StatisticType :=
  Eval vm_compute in
    match build 1 [5; 5] 2 boot with
    | Ok (t, _) => t
    | Stop _ => scenarioA
    end.

(** The constructor with [oldFromNew] on this instance. *)
Definition build_oldFromNew (fuel : nat) (data : MatType)
    (oldFromNew : list Z) (maxLeafSize : Z) :=
  new_BinarySpaceTree_oldFromNew n_rows n_cols new_BoundType expand_to_cols
    Diameter Centroid Metric_Evaluate default_StatisticType
    new_StatisticType new_SplitType splitter_SplitNode_tracking
    indeterminate fuel data oldFromNew maxLeafSize.

(** A rule that counts its base cases and never prunes. *)
Definition RuleType : Type := Z.
Definition Score (r : RuleType)
    (queryNode referenceNode : BinarySpaceTree BoundType StatisticType)
  : float * RuleType := (0%float, r).
Definition BaseCase (r : RuleType) (queryIndex referenceIndex : Z)
  : RuleType := r + 1.

(** The coordinator's dispatching on scenario A against itself. *)
Definition dispatching (world_size : Z) :=
  Traverse_dispatching Score BaseCase world_size 0 scenarioA scenarioA.

(** The saved form of scenario A for a depth. *)
Definition saved (maxDepth : Z) : archive BoundType StatisticType :=
  fst (Serialize_saving (fun _ => 0%float) maxDepth scenarioA).

End Example.


(** * The vocabulary of the properties *)

Section Vocabulary.
Context {BoundType StatisticType : Type}.
Abbreviation tree := (BinarySpaceTree BoundType StatisticType).

(** The two children of a node: none, or two whose ranges split the
    node's range at one index, as [End()] computes it. *)
Definition children_partition (n : tree) : Prop :=
  match Left n, Right n with
  | None, None => True
  | Some l, Some r =>
      Begin l = Begin n /\ End l = Begin r /\ End r = End n
  | _, _ => False
  end.

(** The same without wrap-around, and with points on both sides. *)
Definition splits_range (n : tree) : Prop :=
  match Left n, Right n with
  | None, None => True
  | Some l, Some r =>
      Begin l = Begin n /\ 0 < Count l /\ Begin r = Begin l + Count l
      /\ 0 < Count r /\ Begin r + Count r = Begin n + Count n
  | _, _ => False
  end.

(** The range of a node, and the ranges of the leaves from left to
    right. *)
Definition range (n : tree) : Z * Z := (Begin n, Count n).
Definition leaf_ranges (n : tree) : list (Z * Z) := map range (leaves n).

(** The ranges tile the interval from [from] to [to]: the first begins
    at [from], each next one begins where the one before ends, and the
    last ends at [to]. *)
Fixpoint tiles (from to : Z) (ranges : list (Z * Z)) : Prop :=
  match ranges with
  | [] => from = to
  | (b, c) :: ranges => b = from /\ 0 <= c /\ tiles (from + c) to ranges
  end.

(** The order in which a queue loop that pops a node and pushes its
    children takes the nodes out. *)
Equations? walk (queue : list tree) : list tree
  by wf (forest_count queue) lt :=
  walk [] := [];
  walk (node :: queue) := node :: walk (queue ++ children node).
Proof.
  rewrite forest_count_app, (forest_count_children node). simpl. lia.
Qed.

(** Number of levels of a forest. *)
Definition forest_height (forest : list tree) : nat :=
  foldr (fun n k => Nat.max (height n) k) O forest.

(** The objects of a tree lie at different addresses, and the parent
    pointer of every child holds the address of the node that owns it. *)
Definition well_linked (root : tree) : Prop :=
  NoDup (addresses root)
  /\ forall n c, n ∈ nodes root -> c ∈ children n -> Parent c = Some (self n).

(** The pairs that [MasterTraverse] reaches from the roots through its
    first kind of recursion only (lines 127-133): both nodes have
    children, and the recursion goes to a child of each. *)
Inductive dual_descent (queryRoot referenceRoot : tree)
  : list branch -> tree -> tree -> Prop :=
| descent_roots : dual_descent queryRoot referenceRoot [] queryRoot referenceRoot
| descent_step path q r b q' r' :
    dual_descent queryRoot referenceRoot path q r ->
    IsLeaf q = false -> IsLeaf r = false ->
    child (fst b) q = Ok q' -> child (snd b) r = Ok r' ->
    dual_descent queryRoot referenceRoot (path ++ [b]) q' r'.

(** [n->dataset = d] done for the nodes at the addresses [visited]. *)
Fixpoint relinked (visited : list ptr) (d : option ptr) (t : tree) : tree :=
  match t with
  | Node a l r pa b c bd st pd fd ds =>
    Node a
         (match l with Some x => Some (relinked visited d x) | None => None end)
         (match r with Some x => Some (relinked visited d x) | None => None end)
         pa b c bd st pd fd
         (if decide (a ∈ visited) then d else ds)
  end.

(** Every node below has a parent pointer. *)
Definition parents_set_below (other : tree) : Prop :=
  forall n, n ∈ descendants other -> Parent n <> None.

(** What a copy is, apart from its dataset pointers: an object at [this]
    and objects at addresses allocated for it, all different. *)
Definition fresh_copy {MatType : Type} (this : ptr) (m m' : memory MatType)
    (c : tree) : Prop :=
  self c = this
  /\ (next_free m <= next_free m')%positive
  /\ Forall (fun a => a = this \/ (next_free m <= a < next_free m')%positive)
            (addresses c)
  /\ ((this < next_free m)%positive -> NoDup (addresses c)).

(** A subtree without what tells where its objects lie and what they refer
    to: the addresses, the parent pointers and the dataset pointers are
    blanked. *)
Fixpoint erase (t : tree) : tree :=
  match t with
  | Node a l r pa b c bd st pd fd ds =>
    Node 1%positive
         (match l with Some x => Some (erase x) | None => None end)
         (match r with Some x => Some (erase x) | None => None end)
         None b c bd st pd fd None
  end.

(** The parent pointer of every child in the subtree holds the address of
    the node that owns the child. *)
Definition links_below (t : tree) : Prop :=
  forall n c, n ∈ nodes t -> c ∈ children n -> Parent c = Some (self n).





End Vocabulary.

(** The two vectors are inverse to each other on [0 .. n-1]. *)
Definition inverse_mappings (n : Z) (oldFromNew newFromOld : list Z) : Prop :=
  forall i, 0 <= i < n ->
    (exists j, vector_get oldFromNew i = Ok j /\ vector_get newFromOld j = Ok i)
    /\ (exists j, vector_get newFromOld i = Ok j /\ vector_get oldFromNew j = Ok i).

(** What the tree expects of the split strategy. *)
Section Contracts.
Context {BoundType MatType SplitType : Type}.
Variable n_cols : MatType -> Z.
Variable splitter_SplitNode :
  SplitType -> BoundType -> MatType -> Z -> Z -> bool * Z * MatType * SplitType.
Variable splitter_SplitNode_tracking :
  SplitType -> BoundType -> MatType -> Z -> Z -> list Z ->
  bool * Z * MatType * list Z * SplitType.

(** [splitCol] is a [size_t]. *)
Definition splitCol_is_size_t : Prop :=
  forall sp b data begin count,
    is_size_t (snd (fst (fst (splitter_SplitNode sp b data begin count)))).

(** The split strategy, when it splits a range of the matrix, leaves a
    part of the range on each side of [splitCol]. *)
Definition splits_inside : Prop :=
  forall sp b data begin count col data' sp',
    0 <= begin -> 0 <= count -> begin + count < size_t_modulus ->
    splitter_SplitNode sp b data begin count = (true, col, data', sp') ->
    begin < col < begin + count.

Definition tracking_splits_inside : Prop :=
  forall sp b data begin count old col data' old' sp',
    0 <= begin -> 0 <= count -> begin + count < size_t_modulus ->
    splitter_SplitNode_tracking sp b data begin count old
    = (true, col, data', old', sp') ->
    begin < col < begin + count.

(** The split strategy reorders: it permutes the entries of [oldFromNew]
    and keeps the number of columns of the matrix. *)
Definition tracking_reorders : Prop :=
  forall sp b data begin count old split col data' old' sp',
    splitter_SplitNode_tracking sp b data begin count old
    = (split, col, data', old', sp') ->
    old' ≡ₚ old /\ n_cols data' = n_cols data.

(** The two overloads of the split strategy give the same answer, the same
    [splitCol] and the same matrix. *)
Definition overloads_agree : Prop :=
  forall sp b data begin count old,
    splitter_SplitNode sp b data begin count
    = (let '(split, col, data', _, sp') :=
         splitter_SplitNode_tracking sp b data begin count old in
       (split, col, data', sp')).
End Contracts.

(** What [SplitNode] leaves in a node: the furthest descendant distance
    is half the diameter of the bound, and each child refers to the node
    as its parent, shares its dataset pointer, and has for parent distance
    the distance between the centroids of the two bounds. *)
Section Built.
Context {BoundType StatisticType VecType : Type}.
Variable Diameter : BoundType -> float.
Variable Centroid : BoundType -> VecType.
Variable Metric_Evaluate : BoundType -> VecType -> VecType -> float.

Definition built_node (n : BinarySpaceTree BoundType StatisticType) : Prop :=
  FurthestDescendantDistance n = PrimFloat.mul 0.5%float (Diameter (Bound n))
  /\ Forall (fun c =>
               Parent c = Some (self n) /\ Dataset c = Dataset n
               /\ ParentDistance c
                  = Metric_Evaluate (Bound n) (Centroid (Bound n))
                                    (Centroid (Bound c)))
            (children n).
End Built.

(** * Properties *)

(** ** Arithmetic of [size_t] *)

Lemma size_t_modulus_pos : 0 < size_t_modulus.
Proof. reflexivity. Qed.

Lemma wrap_small (z : Z) : is_size_t z -> wrap z = z.
Proof. intros H. apply Z.mod_small, H. Qed.

Lemma wrap_is_size_t (z : Z) : is_size_t (wrap z).
Proof. apply Z.mod_pos_bound, size_t_modulus_pos. Qed.

Lemma wrap_wrap (z : Z) : wrap (wrap z) = wrap z.
Proof. apply Z.mod_mod. discriminate. Qed.

Lemma wrap_add_l (a b : Z) : wrap (wrap a + b) = wrap (a + b).
Proof. apply Zplus_mod_idemp_l. Qed.

Lemma wrap_add_r (a b : Z) : wrap (a + wrap b) = wrap (a + b).
Proof. apply Zplus_mod_idemp_r. Qed.

Lemma wrap_sub_l (a b : Z) : wrap (wrap a - b) = wrap (a - b).
Proof. apply Zminus_mod_idemp_l. Qed.

(** ** Induction on a tree through its child pointers *)

Section TreeInduction.
Context {BoundType StatisticType : Type}.
Abbreviation tree := (BinarySpaceTree BoundType StatisticType).

Lemma tree_induction (P : tree -> Prop) :
  (forall n,
      (forall l, Left n = Some l -> P l) ->
      (forall r, Right n = Some r -> P r) -> P n) ->
  forall n, P n.
Proof.
  intros step n.
  remember (node_count n) as k eqn:Hk. revert n Hk.
  induction k as [k IH] using lt_wf_ind. intros n ->.
  apply step; intros c Hc; (eapply IH; [|reflexivity]);
    destruct n as [a l r p b c' bd st pd fd ds]; simpl in *; subst; simpl; lia.
Qed.
End TreeInduction.

(** ** Nodes and leaves *)

Section TreeFacts.
Context {BoundType StatisticType : Type}.
Abbreviation tree := (BinarySpaceTree BoundType StatisticType).

Lemma nodes_unfold (n : tree) :
  nodes n = n :: (match Left n with Some l => nodes l | None => [] end
                  ++ match Right n with Some r => nodes r | None => [] end).
Proof. destruct n; reflexivity. Qed.

Lemma Forall_nodes_intro (P : tree -> Prop) (n : tree) :
  P n ->
  (forall l, Left n = Some l -> Forall P (nodes l)) ->
  (forall r, Right n = Some r -> Forall P (nodes r)) ->
  Forall P (nodes n).
Proof.
  intros Hn HL HR. rewrite nodes_unfold. constructor; [exact Hn|].
  apply Forall_app_2.
  - destruct (Left n); [auto|constructor].
  - destruct (Right n); [auto|constructor].
Qed.

(** A property of nodes that reads only what [f] leaves alone holds
    throughout [f n] when it holds throughout [n]. *)
Lemma Forall_nodes_update (P : tree -> Prop) (f : tree -> tree) (n : tree) :
  Left (f n) = Left n -> Right (f n) = Right n -> (P n -> P (f n)) ->
  Forall P (nodes n) -> Forall P (nodes (f n)).
Proof.
  intros HL HR HP. rewrite (nodes_unfold n), (nodes_unfold (f n)), HL, HR.
  intros H. inversion H; subst. constructor; auto.
Qed.

(** In a tree whose nodes split their ranges, the range of every node
    lies in the range of the root, and is smaller unless the node is the
    root. *)
Lemma nodes_inside (a : tree) :
  Forall splits_range (nodes a) ->
  forall n, n ∈ nodes a ->
    Begin a <= Begin n /\ Begin n + Count n <= Begin a + Count a
    /\ (n = a \/ 0 < Count n < Count a).
Proof.
  induction a as [a IHl IHr] using tree_induction.
  rewrite (nodes_unfold a). intros Hs n Hn.
  apply Forall_cons in Hs as [Ha Hs]. apply Forall_app in Hs as [Hsl Hsr].
  apply elem_of_cons in Hn as [->|Hn]; [repeat split; try lia; left; reflexivity|].
  unfold splits_range in Ha.
  destruct (Left a) as [l|] eqn:HL, (Right a) as [r|] eqn:HR; try tauto.
  - destruct Ha as (Hb & Hcl & Hbr & Hcr & He).
    apply elem_of_app in Hn as [Hn|Hn].
    + destruct (IHl l eq_refl Hsl n Hn) as (H1 & H2 & [->|H3]);
        repeat split; try lia; right; lia.
    + destruct (IHr r eq_refl Hsr n Hn) as (H1 & H2 & [->|H3]);
        repeat split; try lia; right; lia.
  - by apply elem_of_nil in Hn.
Qed.

Lemma tiles_app a b c l1 l2 :
  tiles a b l1 -> tiles b c l2 -> tiles a c (l1 ++ l2).
Proof.
  revert a. induction l1 as [|[x y] l1 IH]; simpl; intros a.
  - intros ->. auto.
  - intros (-> & Hy & H) H2. auto.
Qed.

Lemma leaves_unfold (n : tree) :
  leaves n = match Left n, Right n with
             | None, None => [n]
             | l, r => match l with Some l => leaves l | None => [] end
                       ++ match r with Some r => leaves r | None => [] end
             end.
Proof. destruct n; reflexivity. Qed.

Lemma leaf_ranges_leaf (n : tree) :
  Left n = None -> Right n = None -> leaf_ranges n = [range n].
Proof. intros HL HR. unfold leaf_ranges. rewrite leaves_unfold, HL, HR. reflexivity. Qed.

Lemma leaf_ranges_inner (n l r : tree) :
  Left n = Some l -> Right n = Some r ->
  leaf_ranges n = leaf_ranges l ++ leaf_ranges r.
Proof.
  intros HL HR. unfold leaf_ranges.
  rewrite (leaves_unfold n), HL, HR. apply map_app.
Qed.

(** The leaf ranges do not depend on what [f] changes when [f] keeps the
    children and the range. *)
Lemma leaf_ranges_update (f : tree -> tree) (n : tree) :
  Left (f n) = Left n -> Right (f n) = Right n -> range (f n) = range n ->
  leaf_ranges (f n) = leaf_ranges n.
Proof.
  intros HL HR Hr. unfold leaf_ranges.
  rewrite (leaves_unfold n), (leaves_unfold (f n)), HL, HR.
  destruct (Left n), (Right n); simpl; congruence.
Qed.
End TreeFacts.

(** ** Loops and vectors *)

(** The rule for a counting loop that has an invariant [I]. *)
Lemma for_loop_invariant {State : Type} (I : Z -> State -> Prop)
    (body : Z -> State -> outcome State) (n : nat) (first : Z) (s : State) :
  0 <= first -> first + Z.of_nat n < size_t_modulus ->
  I first s ->
  (forall i s, first <= i < first + Z.of_nat n -> I i s ->
     exists s', body i s = Ok s' /\ I (i + 1) s') ->
  exists s', for_loop n first body s = Ok s' /\ I (first + Z.of_nat n) s'.
Proof.
  revert first s. induction n as [|n IH]; intros first s H0 Hn HI Hbody.
  - exists s. replace (first + Z.of_nat 0) with first by lia. auto.
  - simpl for_loop.
    destruct (Hbody first s) as (s1 & -> & HI1); [lia|exact HI|].
    rewrite (wrap_small (first + 1)) by (unfold is_size_t; lia).
    destruct (IH (first + 1) s1) as (s' & -> & HI'); try lia; auto.
    + intros i s2 Hi. apply Hbody. lia.
    + exists s'. split; [reflexivity|].
      replace (first + Z.of_nat (S n)) with (first + 1 + Z.of_nat n) by lia.
      exact HI'.
Qed.

Lemma length_vector_resize (n : Z) (v : list Z) :
  length (vector_resize n v) = Z.to_nat n.
Proof.
  unfold vector_resize. rewrite length_take, length_app, length_replicate. lia.
Qed.

Lemma vector_get_Ok (v : list Z) (i x : Z) :
  vector_get v i = Ok x <-> 0 <= i /\ v !! Z.to_nat i = Some x.
Proof.
  unfold vector_get. split.
  - destruct (0 <=? i) eqn:H0; simpl; [|discriminate].
    destruct (i <? Z.of_nat (length v)); [|discriminate].
    destruct (v !! Z.to_nat i); [|discriminate]. intros [= ->]. split; [lia|auto].
  - intros [H0 Hx]. apply lookup_lt_Some in Hx as Hlt.
    replace (0 <=? i) with true by lia.
    replace (i <? Z.of_nat (length v)) with true by lia.
    simpl. rewrite Hx. reflexivity.
Qed.

(** The loop of lines 96-97 leaves the identity mapping. *)
Lemma fill_identity_Ok (n : Z) (v : list Z) :
  is_size_t n -> length v = Z.to_nat n ->
  fill_identity n v = Ok (seqZ 0 n).
Proof.
  intros [Hn0 Hn] Hlen. unfold fill_identity.
  destruct (for_loop_invariant
              (fun i (w : list Z) =>
                 length w = Z.to_nat n
                 /\ forall j, (j < Z.to_nat i)%nat -> w !! j = Some (Z.of_nat j))
              (fun i w => vector_set w i i) (Z.to_nat n) 0 v)
    as (w & -> & Hw & Hid); try lia.
  - split; [exact Hlen|]. intros j Hj. lia.
  - intros i w Hi [Hw Hid]. unfold vector_set.
    replace (0 <=? i) with true by lia.
    replace (i <? Z.of_nat (length w)) with true by lia.
    simpl. eexists. split; [reflexivity|]. split.
    + rewrite length_insert. exact Hw.
    + intros j Hj. destruct (decide (j = Z.to_nat i)) as [->|Hne].
      * rewrite list_lookup_insert_eq by lia. f_equal. lia.
      * rewrite list_lookup_insert_ne by lia. apply Hid. lia.
  - f_equal. apply list_eq. intros j.
    destruct (decide (j < Z.to_nat n)%nat) as [Hj|Hj].
    + rewrite Hid by lia. rewrite lookup_seqZ_lt by lia. f_equal.
    + rewrite lookup_seqZ_ge by lia. apply lookup_ge_None. lia.
Qed.

(** The loop of lines 108-109 inverts a permutation of [0 .. n-1]. *)
Lemma invert_mapping_Ok (n : Z) (oldFromNew v : list Z) :
  is_size_t n -> oldFromNew ≡ₚ seqZ 0 n -> length v = Z.to_nat n ->
  exists newFromOld,
    invert_mapping n oldFromNew v = Ok newFromOld
    /\ length newFromOld = Z.to_nat n
    /\ forall i, 0 <= i < n ->
         exists j, vector_get oldFromNew i = Ok j
                   /\ vector_get newFromOld j = Ok i.
Proof.
  intros [Hn0 Hn] Hperm Hlen. unfold invert_mapping.
  assert (Hlen_old : length oldFromNew = Z.to_nat n)
    by (rewrite Hperm; apply length_seqZ).
  assert (Hnodup : NoDup oldFromNew) by (rewrite Hperm; apply NoDup_seqZ).
  assert (Hrange : forall i j, oldFromNew !! i = Some j -> 0 <= j < n).
  { intros i j Hj. apply list_elem_of_lookup_2 in Hj. rewrite Hperm in Hj.
    apply elem_of_seqZ in Hj. lia. }
  destruct (for_loop_invariant
              (fun i (w : list Z) =>
                 length w = Z.to_nat n
                 /\ forall k j, (k < Z.to_nat i)%nat ->
                      oldFromNew !! k = Some j ->
                      w !! Z.to_nat j = Some (Z.of_nat k))
              (fun i w => match vector_get oldFromNew i with
                          | Ok j => vector_set w j i
                          | Stop f => Stop f
                          end)
              (Z.to_nat n) 0 v)
    as (w & -> & Hw & Hinv); try lia.
  - split; [exact Hlen|]. intros k j Hk. lia.
  - intros i w Hi [Hw Hinv].
    destruct (lookup_lt_is_Some_2 oldFromNew (Z.to_nat i)) as [j Hj]; [lia|].
    rewrite (proj2 (vector_get_Ok oldFromNew i j)) by (split; [lia|exact Hj]).
    pose proof (Hrange _ _ Hj) as Hjr.
    unfold vector_set.
    replace (0 <=? j) with true by lia.
    replace (j <? Z.of_nat (length w)) with true by lia.
    simpl. eexists. split; [reflexivity|]. split.
    + rewrite length_insert. exact Hw.
    + intros k j' Hk Hj'.
      destruct (decide (k = Z.to_nat i)) as [->|Hne].
      * assert (j' = j) as -> by congruence.
        rewrite list_lookup_insert_eq by lia. f_equal. lia.
      * rewrite list_lookup_insert_ne.
        -- apply Hinv; [lia|exact Hj'].
        -- intros Heq. apply Hne.
           apply (NoDup_lookup oldFromNew k (Z.to_nat i) j' Hnodup Hj').
           assert (j = j') as <- by (pose proof (Hrange _ _ Hj'); lia).
           exact Hj.
  - exists w. split; [reflexivity|]. split; [exact Hw|].
    intros i Hi.
    destruct (lookup_lt_is_Some_2 oldFromNew (Z.to_nat i)) as [j Hj]; [lia|].
    exists j. split; [apply vector_get_Ok; split; [lia|exact Hj]|].
    apply vector_get_Ok. pose proof (Hrange _ _ Hj). split; [lia|].
    rewrite (Hinv (Z.to_nat i) j) by (auto; lia). f_equal. lia.
Qed.


(** ** Construction *)

Section BuildProperties.
Context {BoundType StatisticType MatType SplitType VecType : Type}.
Abbreviation tree := (BinarySpaceTree BoundType StatisticType).
Abbreviation state := (machine MatType SplitType).
Variable n_rows n_cols : MatType -> Z.
Variable new_BoundType : Z -> BoundType.
Variable expand_to_cols : BoundType -> MatType -> Z -> Z -> BoundType.
Variable Diameter : BoundType -> float.
Variable Centroid : BoundType -> VecType.
Variable Metric_Evaluate : BoundType -> VecType -> VecType -> float.
Variable default_StatisticType : StatisticType.
Variable new_StatisticType : tree -> StatisticType.
Variable new_SplitType : SplitType.
Variable splitter_SplitNode :
  SplitType -> BoundType -> MatType -> Z -> Z -> bool * Z * MatType * SplitType.
Variable splitter_SplitNode_tracking :
  SplitType -> BoundType -> MatType -> Z -> Z -> list Z ->
  bool * Z * MatType * list Z * SplitType.
Variable indeterminate : float.

Abbreviation SplitNode_ :=
  (SplitNode n_rows new_BoundType expand_to_cols Diameter Centroid
     Metric_Evaluate default_StatisticType new_StatisticType
     splitter_SplitNode indeterminate).
Abbreviation SplitNode_tracking_ :=
  (SplitNode_tracking n_rows n_cols new_BoundType expand_to_cols Diameter
     Centroid Metric_Evaluate default_StatisticType new_StatisticType
     splitter_SplitNode_tracking indeterminate).
Abbreviation new_child_tracking_ :=
  (new_BinarySpaceTree_child_tracking n_rows n_cols new_BoundType
     default_StatisticType new_StatisticType indeterminate).
Abbreviation new_child_ :=
  (new_BinarySpaceTree_child n_rows new_BoundType default_StatisticType
     new_StatisticType indeterminate).

Ltac run H :=
  repeat match type of H with
  | bind ?m ?k ?s = _ =>
      let E := fresh "E" in
      unfold bind at 1 in H;
      destruct (m s) as [[? ?]|?] eqn:E; [|discriminate H]
  | ret _ _ = _ => unfold ret in H
  | (let '(_, _) := ?x in _) _ = _ => destruct x
  | (if ?c then _ else _) _ = _ => let C := fresh "C" in destruct c eqn:C
  end.

Lemma call_splitter_inv bound dataset begin count (s : state) split col s' :
  call_splitter splitter_SplitNode bound dataset begin count s
  = Ok (split, col, s') ->
  exists d data data' sp',
    dataset = Some d /\ matrices (mem s) !! d = Some data
    /\ splitter_SplitNode (splitter s) bound data begin count
       = (split, col, data', sp')
    /\ s' = Machine (Memory (next_free (mem s))
                            (<[d := data']> (matrices (mem s))))
                    sp' (split_calls s ++ [SplitCall begin count split]).
Proof.
  unfold call_splitter. destruct dataset as [d|]; [|discriminate].
  destruct (matrices (mem s) !! d) as [data|] eqn:Hd; [|discriminate].
  destruct (splitter_SplitNode _ _ _ _ _) as [[[sp0 col0] data'] sp'] eqn:Hs.
  intros [= -> -> <-]. eauto 10.
Qed.

(** What the constructor of a child gives when [SplitNode] keeps a
    property [Q] of the node it is given. *)
Lemma new_child_inv (split_node : Z -> tree -> M tree)
    (Q : tree -> tree -> Prop) parent begin count k (s : state) c s' :
  (forall n s1 t s2, Left n = None -> Right n = None ->
     split_node k n s1 = Ok (t, s2) -> Q n t) ->
  new_child_ split_node parent begin count k s = Ok (c, s') ->
  exists n t, Left n = None /\ Right n = None /\ Begin n = begin
    /\ Count n = count /\ Parent n = Some (self parent)
    /\ Dataset n = Dataset parent /\ Q n t
    /\ c = set_Stat (new_StatisticType t) t.
Proof.
  intros HQ H. unfold new_BinarySpaceTree_child in H. run H.
  injection H as <- <-.
  match type of E1 with split_node _ ?n _ = Ok (?t, _) => exists n, t end.
  do 6 (split; [reflexivity|]).
  split; [|reflexivity]. eapply HQ; [| |eassumption]; reflexivity.
Qed.

Lemma bind_ok {A B} (m : M (MatType:=MatType) (SplitType:=SplitType) A)
    (k : A -> M B) s a s1 :
  m s = Ok (a, s1) -> bind m k s = k a s1.
Proof. unfold bind. intros ->. reflexivity. Qed.

Lemma deref_ok d (s : state) data :
  matrices (mem s) !! d = Some data -> deref (Some d) s = Ok (data, s).
Proof. unfold deref, matrix_at. intros ->. reflexivity. Qed.

Lemma new_child_ok (split_node : Z -> tree -> M tree) parent begin count k
    (s : state) d data t s2 :
  Dataset parent = Some d -> matrices (mem s) !! d = Some data ->
  split_node k
    (Node (next_free (mem s)) None None (Some (self parent)) begin count
          (new_BoundType (n_rows data)) default_StatisticType
          indeterminate indeterminate (Some d))
    (Machine (Memory (Pos.succ (next_free (mem s))) (matrices (mem s)))
             (splitter s) (split_calls s))
  = Ok (t, s2) ->
  new_child_ split_node parent begin count k s
  = Ok (set_Stat (new_StatisticType t) t, s2).
Proof.
  intros Hd Hdata H. unfold new_BinarySpaceTree_child.
  erewrite bind_ok by reflexivity. simpl.
  rewrite Hd. erewrite bind_ok by (apply deref_ok; exact Hdata).
  erewrite bind_ok by exact H. reflexivity.
Qed.

Lemma SplitNode_returns (Hin : splits_inside splitter_SplitNode) :
  forall fuel k (this : tree) (s : state) d,
    Left this = None -> Right this = None ->
    Dataset this = Some d -> is_Some (matrices (mem s) !! d) ->
    0 <= Begin this -> 0 <= Count this ->
    Begin this + Count this < size_t_modulus ->
    (Z.to_nat (Count this) < fuel)%nat ->
    exists t s' calls,
      SplitNode_ fuel k this s = Ok (t, s')
      /\ range t = range this
      /\ is_Some (matrices (mem s') !! d)
      /\ split_calls s' = split_calls s ++ calls
      /\ tiles (Begin this) (Begin this + Count this) (leaf_ranges t)
      /\ Forall (fun r => snd r <= k \/ SplitCall (fst r) (snd r) false ∈ calls)
                (leaf_ranges t)
      /\ Forall splits_range (nodes t).
Proof.
  induction fuel as [|fuel IH];
    intros k this s d HL HR Hd [data Hdata] Hb Hc Hbc Hfuel; [lia|].
  destruct this as [a l r p b c bd st pd fd ds]; simpl in *. subst l r ds.
  erewrite bind_ok by (apply deref_ok; exact Hdata).
  destruct (c <=? k) eqn:C.
  { (* few enough points: a leaf *)
    eexists _, s, []. split; [reflexivity|].
    rewrite leaf_ranges_leaf by reflexivity. simpl.
    rewrite app_nil_r. repeat split; eauto; try lia.
    - constructor; [|constructor]. left. simpl. lia.
    - apply Forall_nodes_intro; [exact I|discriminate..]. }
  unfold bind at 1, call_splitter. rewrite Hdata.
  destruct (splitter_SplitNode _ _ _ _ _) as [[[split col] data'] sp'] eqn:Hs.
  destruct split; simpl.
  2:{ (* the split strategy reports failure: a leaf *)
    eexists _, _, [SplitCall b c false]. split; [reflexivity|].
    rewrite leaf_ranges_leaf by reflexivity. simpl.
    rewrite lookup_insert_eq.
    repeat split; eauto; try lia.
    - constructor; [|constructor]. right. simpl. left.
    - apply Forall_nodes_intro; [exact I|discriminate..]. }
  apply Hin in Hs as Hcol; [|lia..].
  assert (Hw1 : wrap (col - b) = col - b)
    by (apply wrap_small; unfold is_size_t; lia).
  assert (Hw2 : wrap (wrap (b + c) - col) = b + c - col).
  { rewrite wrap_sub_l. apply wrap_small; unfold is_size_t; lia. }
  rewrite Hw1, Hw2.
  (* the left child *)
  set (s1 := Machine _ _ _).
  set (this1 := set_FurthestDescendantDistance _ _).
  edestruct (IH k
    (Node (next_free (mem s1)) None None (Some (self this1)) b (col - b)
          (new_BoundType (n_rows data')) default_StatisticType
          indeterminate indeterminate (Some d))
    (Machine (Memory (Pos.succ (next_free (mem s1))) (matrices (mem s1)))
             (splitter s1) (split_calls s1)) d)
    as (t1 & s2 & calls1 & E1 & Hr1 & [data1 Hd1] & Hcalls1 & Ht1 & Hl1 & Hs1);
    try reflexivity; simpl; try lia.
  { rewrite lookup_insert_eq. eauto. }
  erewrite bind_ok
    by (eapply new_child_ok; [reflexivity|apply lookup_insert_eq|exact E1]).
  (* the right child *)
  set (this2 := set_Left _ this1).
  edestruct (IH k
    (Node (next_free (mem s2)) None None (Some (self this2)) col (b + c - col)
          (new_BoundType (n_rows data1)) default_StatisticType
          indeterminate indeterminate (Some d))
    (Machine (Memory (Pos.succ (next_free (mem s2))) (matrices (mem s2)))
             (splitter s2) (split_calls s2)) d)
    as (t2 & s3 & calls2 & E2 & Hr2 & Hd2 & Hcalls2 & Ht2 & Hl2 & Hs2);
    try reflexivity; simpl; try lia; eauto.
  erewrite bind_ok
    by (eapply new_child_ok; [reflexivity|exact Hd1|exact E2]).
  eexists _, s3, ([SplitCall b c true] ++ calls1 ++ calls2).
  split; [reflexivity|]. split; [reflexivity|]. split; [exact Hd2|].
  split.
  { rewrite Hcalls2. simpl in Hcalls2, Hcalls1. simpl. rewrite Hcalls1.
    subst s1. simpl. rewrite <- !app_assoc. reflexivity. }
  injection Hr1 as Hb1 Hc1. injection Hr2 as Hb2 Hc2. simpl in *.
  erewrite leaf_ranges_inner by reflexivity.
  rewrite !(leaf_ranges_update (set_ParentDistance _)) by reflexivity.
  rewrite !(leaf_ranges_update (set_Stat _)) by reflexivity.
  split; [|split].
  - eapply tiles_app; [exact Ht1|].
    replace (b + (col - b)) with col by lia.
    replace (b + c) with (col + (b + c - col)) by lia. exact Ht2.
  - apply Forall_app_2.
    + eapply Forall_impl; [exact Hl1|]. intros [x y] [H|H]; [left; exact H|right].
      right. apply elem_of_app. left. exact H.
    + eapply Forall_impl; [exact Hl2|]. intros [x y] [H|H]; [left; exact H|right].
      right. apply elem_of_app. right. exact H.
  - apply Forall_nodes_intro.
    + unfold splits_range. simpl. lia.
    + intros x [= <-]. do 2 (apply Forall_nodes_update; auto).
    + intros x [= <-]. do 2 (apply Forall_nodes_update; auto).
Qed.

Abbreviation new_BinarySpaceTree_ :=
  (new_BinarySpaceTree n_rows n_cols new_BoundType expand_to_cols Diameter
     Centroid Metric_Evaluate default_StatisticType new_StatisticType
     new_SplitType splitter_SplitNode indeterminate).

(** What the constructor returns for a split strategy that splits
    inside the range it is given. *)
Lemma new_BinarySpaceTree_returns
    (Hin : splits_inside splitter_SplitNode)
    (fuel : nat) (data : MatType) (maxLeafSize : Z) (s : state) :
  is_size_t (n_cols data) -> (Z.to_nat (n_cols data) < fuel)%nat ->
  exists t s' calls,
    new_BinarySpaceTree_ fuel data maxLeafSize s = Ok (t, s')
    /\ range t = (0, n_cols data)
    /\ split_calls s' = split_calls s ++ calls
    /\ tiles 0 (n_cols data) (leaf_ranges t)
    /\ Forall (fun r => snd r <= maxLeafSize
                        \/ SplitCall (fst r) (snd r) false ∈ calls)
              (leaf_ranges t)
    /\ Forall splits_range (nodes t).
Proof.
  intros [HN0 HN] Hfuel. unfold new_BinarySpaceTree.
  erewrite bind_ok by reflexivity.
  erewrite bind_ok by reflexivity.
  erewrite bind_ok by reflexivity.
  edestruct (SplitNode_returns Hin fuel maxLeafSize
    (Node (next_free (mem s)) None None None 0 (n_cols data)
          (new_BoundType (n_rows data)) default_StatisticType 0%float
          indeterminate (Some (Pos.succ (next_free (mem s)))))
    (Machine (Memory (Pos.succ (Pos.succ (next_free (mem s))))
                     (<[Pos.succ (next_free (mem s)) := data]>
                        (matrices (mem s))))
             new_SplitType (split_calls s))
    (Pos.succ (next_free (mem s))))
    as (t & s' & calls & E & Hr & _ & Hcalls & Ht & Hl & Hs);
    [reflexivity|reflexivity|reflexivity| | | | | |]; simpl; try lia.
  { rewrite lookup_insert_eq. eauto. }
  erewrite bind_ok by exact E.
  eexists _, s', calls. split; [reflexivity|].
  rewrite (leaf_ranges_update (set_Stat _)) by reflexivity.
  simpl in Hcalls, Ht.
  split; [exact Hr|]. split; [exact Hcalls|]. split; [exact Ht|].
  split; [exact Hl|]. apply Forall_nodes_update; auto.
Qed.

(** C3: for a split strategy that splits inside the range it is given,
    every node of the tree that the constructor returns has no child or
    two; the range of every node lies in the columns of the matrix, so
    that [End()] is [begin + count] without wrap-around; and two children
    split the range of their parent with points on both sides and neither
    gap nor overlap: [left.begin == begin],
    [left.begin + left.count == right.begin] and
    [right.begin + right.count == begin + count] as integers, hence
    [left.End() == right.begin] and [right.End() == End()]. *)
Theorem C3_children_partition_parent
    (Hin : splits_inside splitter_SplitNode)
    (fuel : nat) (data : MatType) (maxLeafSize : Z) (s : state) :
  is_size_t (n_cols data) -> (Z.to_nat (n_cols data) < fuel)%nat ->
  exists t s',
    new_BinarySpaceTree_ fuel data maxLeafSize s = Ok (t, s')
    /\ Forall (fun n =>
                 (NumChildren n = 0 \/ NumChildren n = 2)
                 /\ 0 <= Begin n /\ 0 <= Count n
                 /\ Begin n + Count n <= n_cols data
                 /\ End n = Begin n + Count n
                 /\ splits_range n
                 /\ children_partition n)
              (nodes t).
Proof.
  intros HN Hfuel.
  destruct (new_BinarySpaceTree_returns Hin fuel data maxLeafSize s HN Hfuel)
    as (t & s' & calls & E & Hr & _ & _ & _ & Hs).
  exists t, s'. split; [exact E|].
  injection Hr as Hb Hc. destruct HN as [HN0 HN].
  apply Forall_forall. intros n Hn.
  destruct (nodes_inside t Hs n Hn) as (H1 & H2 & H3).
  assert (H0 : 0 <= Count n) by (destruct H3 as [->|H3]; lia).
  rewrite Forall_forall in Hs. specialize (Hs n Hn).
  assert (Hw : forall b c, 0 <= b -> 0 <= c -> b + c <= n_cols data ->
                           wrap (b + c) = b + c)
    by (intros b c ? ? ?; apply wrap_small; unfold is_size_t; lia).
  split.
  { unfold splits_range in Hs. unfold NumChildren.
    destruct (Left n), (Right n); try contradiction;
      [right|left]; reflexivity. }
  do 3 (split; [lia|]).
  split; [apply Hw; lia|]. split; [exact Hs|].
  unfold splits_range in Hs. unfold children_partition, End.
  destruct (Left n) as [l|], (Right n) as [r|];
    try contradiction; [|exact I].
  destruct Hs as (Hbl & Hcl & Hbr & Hcr & He).
  rewrite !Hw by lia. lia.
Qed.

(** C4: for a tree built with leaf size [maxLeafSize] over the [N]
    columns of [data], every leaf has at most [maxLeafSize] points or the
    split strategy reported failure on the leaf's range, and the ranges
    of the leaves, from left to right, tile the interval from 0 to [N]. *)
Theorem C4_leaves_tile_the_dataset
    (Hin : splits_inside splitter_SplitNode)
    (fuel : nat) (data : MatType) (maxLeafSize : Z) (s : state) :
  is_size_t (n_cols data) -> (Z.to_nat (n_cols data) < fuel)%nat ->
  exists t s' calls,
    new_BinarySpaceTree_ fuel data maxLeafSize s = Ok (t, s')
    /\ split_calls s' = split_calls s ++ calls
    /\ (forall leaf, leaf ∈ leaves t ->
          Count leaf <= maxLeafSize
          \/ SplitCall (Begin leaf) (Count leaf) false ∈ calls)
    /\ tiles 0 (n_cols data) (leaf_ranges t).
Proof.
  intros HN Hfuel.
  destruct (new_BinarySpaceTree_returns Hin fuel data maxLeafSize s HN Hfuel)
    as (t & s' & calls & E & _ & Hcalls & Ht & Hl & _).
  exists t, s', calls. repeat split; auto.
  intros leaf Hleaf. rewrite Forall_forall in Hl.
  apply (Hl (range leaf)). unfold leaf_ranges.
  apply list_elem_of_fmap_2, Hleaf.
Qed.

Lemma new_child_tracking_ok
    (split_node : list Z -> Z -> tree -> M (tree * list Z))
    parent begin count old k (s : state) d data t old' s2 :
  Dataset parent = Some d -> matrices (mem s) !! d = Some data ->
  Z.of_nat (length old) = n_cols data ->
  split_node old k
    (Node (next_free (mem s)) None None (Some (self parent)) begin count
          (new_BoundType (n_rows data)) default_StatisticType
          indeterminate indeterminate (Some d))
    (Machine (Memory (Pos.succ (next_free (mem s))) (matrices (mem s)))
             (splitter s) (split_calls s))
  = Ok (t, old', s2) ->
  new_child_tracking_ split_node parent begin count old k s
  = Ok (set_Stat (new_StatisticType t) t, old', s2).
Proof.
  intros Hd Hdata Hlen H. unfold new_BinarySpaceTree_child_tracking.
  erewrite bind_ok by reflexivity. simpl.
  rewrite Hd. erewrite bind_ok by (apply deref_ok; exact Hdata).
  erewrite bind_ok by (apply deref_ok; exact Hdata).
  rewrite Hlen, Z.eqb_refl. simpl.
  erewrite bind_ok by exact H. reflexivity.
Qed.

Lemma SplitNode_tracking_returns
    (Hin : tracking_splits_inside splitter_SplitNode_tracking)
    (Hre : tracking_reorders n_cols splitter_SplitNode_tracking) :
  forall fuel k (this : tree) (old : list Z) (s : state) d data,
    Left this = None -> Right this = None ->
    Dataset this = Some d -> matrices (mem s) !! d = Some data ->
    Z.of_nat (length old) = n_cols data ->
    0 <= Begin this -> 0 <= Count this ->
    Begin this + Count this < size_t_modulus ->
    (Z.to_nat (Count this) < fuel)%nat ->
    exists t old' s' data',
      SplitNode_tracking_ fuel old k this s = Ok (t, old', s')
      /\ matrices (mem s') !! d = Some data'
      /\ n_cols data' = n_cols data
      /\ old' ≡ₚ old.
Proof.
  induction fuel as [|fuel IH];
    intros k this old s d data HL HR Hd Hdata Hlen Hb Hc Hbc Hfuel; [lia|].
  destruct this as [a l r p b c bd st pd fd ds]; simpl in *. subst l r ds.
  erewrite bind_ok by (apply deref_ok; exact Hdata).
  destruct (c <=? k) eqn:C.
  { eexists _, old, s, data. split; [reflexivity|]. auto. }
  unfold bind at 1, call_splitter_tracking. rewrite Hdata.
  destruct (splitter_SplitNode_tracking _ _ _ _ _ _)
    as [[[[split col] data'] old1] sp'] eqn:Hs.
  destruct (Hre _ _ _ _ _ _ _ _ _ _ _ Hs) as [Hp1 Hn1].
  destruct split; simpl.
  2:{ eexists _, old1, _, data'. split; [reflexivity|]. simpl.
      rewrite lookup_insert_eq. auto. }
  apply Hin in Hs as Hcol; [|lia..].
  assert (Hw1 : wrap (col - b) = col - b)
    by (apply wrap_small; unfold is_size_t; lia).
  assert (Hw2 : wrap (wrap (b + c) - col) = b + c - col).
  { rewrite wrap_sub_l. apply wrap_small; unfold is_size_t; lia. }
  rewrite Hw1, Hw2.
  assert (Hlen1 : Z.of_nat (length old1) = n_cols data')
    by (rewrite Hp1, Hn1; exact Hlen).
  set (s1 := Machine _ _ _).
  set (this1 := set_FurthestDescendantDistance _ _).
  edestruct (IH k
    (Node (next_free (mem s1)) None None (Some (self this1)) b (col - b)
          (new_BoundType (n_rows data')) default_StatisticType
          indeterminate indeterminate (Some d))
    old1
    (Machine (Memory (Pos.succ (next_free (mem s1))) (matrices (mem s1)))
             (splitter s1) (split_calls s1)) d data')
    as (t1 & old2 & s2 & data2 & E1 & Hd2 & Hn2 & Hp2);
    try reflexivity; simpl; try lia.
  { apply lookup_insert_eq. }
  erewrite bind_ok
    by (eapply new_child_tracking_ok;
        [reflexivity|apply lookup_insert_eq|exact Hlen1|exact E1]).
  cbv beta iota.
  set (this2 := set_Left _ this1).
  assert (Hlen2 : Z.of_nat (length old2) = n_cols data2)
    by (rewrite Hp2, Hn2; exact Hlen1).
  edestruct (IH k
    (Node (next_free (mem s2)) None None (Some (self this2)) col (b + c - col)
          (new_BoundType (n_rows data2)) default_StatisticType
          indeterminate indeterminate (Some d))
    old2
    (Machine (Memory (Pos.succ (next_free (mem s2))) (matrices (mem s2)))
             (splitter s2) (split_calls s2)) d data2)
    as (t2 & old3 & s3 & data3 & E2 & Hd3 & Hn3 & Hp3);
    try reflexivity; simpl; try lia; eauto.
  erewrite bind_ok
    by (eapply new_child_tracking_ok;
        [reflexivity|exact Hd2|exact Hlen2|exact E2]).
  cbv beta iota.
  eexists _, old3, s3, data3. split; [reflexivity|].
  split; [exact Hd3|]. split; [congruence|].
  rewrite Hp3, Hp2. exact Hp1.
Qed.

(** C9: the constructor that tracks the permutation returns, for the
    [N] columns of [data], two vectors [oldFromNew] and [newFromOld] that
    are permutations of 0 .. [N]-1 and inverse to each other:
    [newFromOld[oldFromNew[i]] == i] and [oldFromNew[newFromOld[i]] == i]
    for every [i] below [N]. *)
Theorem C9_permutation_vectors_are_inverse
    (Hin : tracking_splits_inside splitter_SplitNode_tracking)
    (Hre : tracking_reorders n_cols splitter_SplitNode_tracking)
    (fuel : nat) (data : MatType) (oldFromNew0 newFromOld0 : list Z)
    (maxLeafSize : Z) (s : state) :
  is_size_t (n_cols data) ->
  (Z.to_nat (n_cols data) < fuel)%nat ->
  exists t oldFromNew newFromOld s',
    new_BinarySpaceTree_tracking n_rows n_cols new_BoundType expand_to_cols
      Diameter Centroid Metric_Evaluate default_StatisticType
      new_StatisticType new_SplitType splitter_SplitNode_tracking
      indeterminate fuel data oldFromNew0 newFromOld0 maxLeafSize s
    = Ok (t, oldFromNew, newFromOld, s')
    /\ oldFromNew ≡ₚ seqZ 0 (n_cols data)
    /\ newFromOld ≡ₚ seqZ 0 (n_cols data)
    /\ inverse_mappings (n_cols data) oldFromNew newFromOld.
Proof.
  intros HN Hfuel. unfold new_BinarySpaceTree_tracking.
  erewrite bind_ok by reflexivity.
  erewrite bind_ok by reflexivity.
  unfold bind at 1, lift.
  rewrite fill_identity_Ok by (auto using length_vector_resize).
  erewrite bind_ok by reflexivity.
  edestruct (SplitNode_tracking_returns Hin Hre fuel maxLeafSize
    (Node (next_free (mem s)) None None None 0 (n_cols data)
          (new_BoundType (n_rows data)) default_StatisticType 0%float
          indeterminate (Some (Pos.succ (next_free (mem s)))))
    (seqZ 0 (n_cols data))
    (Machine (Memory (Pos.succ (Pos.succ (next_free (mem s))))
                     (<[Pos.succ (next_free (mem s)) := data]>
                        (matrices (mem s))))
             new_SplitType (split_calls s))
    (Pos.succ (next_free (mem s))) data)
    as (t & old & s' & data' & E & _ & _ & Hp);
    [reflexivity|reflexivity|reflexivity| | | | | | |].
  { simpl. apply lookup_insert_eq. }
  { rewrite length_seqZ. unfold is_size_t in HN. lia. }
  1-4: simpl; unfold is_size_t in HN; lia.
  erewrite bind_ok by exact E. simpl.
  destruct (invert_mapping_Ok (n_cols data) old
              (vector_resize (n_cols data) newFromOld0))
    as (new & Hnew & Hlen & Hinv); auto using length_vector_resize.
  unfold bind, lift. rewrite Hnew. unfold ret.
  eexists _, old, new, s'. split; [reflexivity|].
  assert (Hold_range : forall i j, old !! i = Some j -> 0 <= j < n_cols data).
  { intros i j Hj. apply list_elem_of_lookup_2 in Hj. rewrite Hp in Hj.
    apply elem_of_seqZ in Hj. lia. }
  assert (Hsym : forall i, 0 <= i < n_cols data ->
            exists j, vector_get new i = Ok j /\ vector_get old j = Ok i).
  { intros i Hi.
    assert (Hin_old : i ∈ old) by (rewrite Hp; apply elem_of_seqZ; lia).
    apply list_elem_of_lookup_1 in Hin_old as [k Hk].
    assert (Hk' : vector_get old (Z.of_nat k) = Ok i).
    { apply vector_get_Ok. rewrite Nat2Z.id. split; [lia|exact Hk]. }
    apply lookup_lt_Some in Hk as Hklt.
    assert (Hlen_old : length old = Z.to_nat (n_cols data))
      by (rewrite Hp; apply length_seqZ).
    destruct (Hinv (Z.of_nat k)) as (j & Hj & Hji); [lia|].
    rewrite Hk' in Hj. injection Hj as <-.
    exists (Z.of_nat k). auto. }
  split; [exact Hp|]. split.
  - apply NoDup_Permutation; [|apply NoDup_seqZ|].
    + apply NoDup_alt. intros i j x Hi Hj.
      apply lookup_lt_Some in Hi as Hilt. apply lookup_lt_Some in Hj as Hjlt.
      destruct (Hsym (Z.of_nat i)) as (x1 & Hx1 & Hb1); [lia|].
      destruct (Hsym (Z.of_nat j)) as (x2 & Hx2 & Hb2); [lia|].
      apply vector_get_Ok in Hx1 as [_ Hx1]. apply vector_get_Ok in Hx2 as [_ Hx2].
      rewrite Nat2Z.id in Hx1, Hx2.
      assert (x1 = x) by congruence. assert (x2 = x) by congruence. subst x1 x2.
      rewrite Hb1 in Hb2. injection Hb2. lia.
    + intros x. rewrite elem_of_seqZ. split.
      * intros Hx. apply list_elem_of_lookup_1 in Hx as [i Hi].
        apply lookup_lt_Some in Hi as Hilt.
        destruct (Hsym (Z.of_nat i)) as (x1 & Hx1 & Hb1); [lia|].
        apply vector_get_Ok in Hx1 as [_ Hx1]. rewrite Nat2Z.id in Hx1.
        assert (x1 = x) by congruence. subst x1.
        apply vector_get_Ok in Hb1 as [H0 Hb1].
        apply lookup_lt_Some in Hb1.
        assert (length old = Z.to_nat (n_cols data))
          by (rewrite Hp; apply length_seqZ). lia.
      * intros Hx. destruct (Hinv x) as (j & _ & Hj); [lia|].
        apply vector_get_Ok in Hj as [_ Hj].
        eapply list_elem_of_lookup_2, Hj.
  - intros i Hi. split; [apply Hinv, Hi|apply Hsym, Hi].
Qed.
End BuildProperties.

(** ** Enumeration of descendants *)

Section EnumerationProperties.
Context {BoundType StatisticType : Type}.
Abbreviation tree := (BinarySpaceTree BoundType StatisticType).

Lemma walk_app (queue pushed : list tree) :
  walk (queue ++ pushed)
  = queue ++ walk (pushed ++ concat (map children queue)).
Proof.
  revert pushed. induction queue as [|n queue IH]; intros pushed; simpl.
  - rewrite app_nil_r. reflexivity.
  - simp walk. rewrite <- app_assoc, IH, <- app_assoc. reflexivity.
Qed.

Lemma level_order_nil (depth : nat) : level_order depth ([] : list tree) = [].
Proof. induction depth; simpl; auto. Qed.

Lemma forest_height_app (f1 f2 : list tree) :
  forest_height (f1 ++ f2) = Nat.max (forest_height f1) (forest_height f2).
Proof. induction f1 as [|n f1 IH]; simpl; [reflexivity|rewrite IH; lia]. Qed.

Lemma height_children (n : tree) : height n = S (forest_height (children n)).
Proof.
  destruct n as [a [l|] [r|] p b c bd st pd fd ds]; unfold children; simpl; lia.
Qed.

Lemma forest_height_children (forest : list tree) :
  (forest_height (concat (map children forest)) <= pred (forest_height forest))%nat.
Proof.
  induction forest as [|n forest IH]; simpl; [lia|].
  rewrite forest_height_app, (height_children n). simpl. lia.
Qed.

(** The queue loop walks the forest level by level. *)
Lemma walk_level_order (depth : nat) (forest : list tree) :
  (forest_height forest <= depth)%nat -> walk forest = level_order depth forest.
Proof.
  revert forest. induction depth as [|depth IH]; intros forest H.
  - destruct forest as [|n forest]; [reflexivity|].
    simpl in H. rewrite (height_children n) in H. lia.
  - simpl. rewrite <- IH.
    + rewrite <- (app_nil_r forest) at 1. rewrite walk_app. reflexivity.
    + pose proof (forest_height_children forest). lia.
Qed.

Lemma length_walk (queue : list tree) : length (walk queue) = forest_count queue.
Proof.
  funelim (walk queue); simp walk; simpl; [reflexivity|].
  rewrite H, forest_count_app, (forest_count_children node). lia.
Qed.

(** The loop returns the node that the walk reaches [index - currentIndex]
    nodes from now, and throws when the walk ends before. *)
Lemma DescendantNode_loop_walk (queue : list tree) (currentIndex index : Z) :
  0 <= currentIndex <= index ->
  currentIndex + Z.of_nat (forest_count queue) < size_t_modulus ->
  DescendantNode_loop queue currentIndex index
  = match walk queue !! Z.to_nat (index - currentIndex) with
    | Some n => Ok n
    | None => Stop InvalidArgument
    end.
Proof.
  funelim (DescendantNode_loop queue currentIndex index); intros Hi Hc.
  - simp walk. reflexivity.
  - simp walk. apply Z.eqb_eq in Heq. subst.
    replace (index - index) with 0 by lia. reflexivity.
  - simp walk. apply Z.eqb_neq in Heq.
    simpl in Hc.
    rewrite forest_count_app, (forest_count_children node) in *.
    rewrite (wrap_small (currentIndex + 1)) in * by (unfold is_size_t; lia).
    rewrite H by lia.
    replace (Z.to_nat (index - currentIndex))
      with (S (Z.to_nat (index - (currentIndex + 1)))) by lia.
    reflexivity.
Qed.

Lemma NumDescendantNodes_node_count (n : tree) :
  Z.of_nat (node_count n) < size_t_modulus ->
  NumDescendantNodes n = Z.of_nat (node_count n) - 1.
Proof.
  induction n as [n IHl IHr] using tree_induction.
  destruct n as [a l r p b c bd st pd fd ds]. simpl in *. intros Hlt.
  destruct l as [l|], r as [r|].
  - rewrite (IHl l eq_refl), (IHr r eq_refl) by lia.
    rewrite (wrap_small (2 + _)) by (unfold is_size_t; lia).
    rewrite wrap_small by (unfold is_size_t; lia). lia.
  - rewrite (IHl l eq_refl) by lia.
    rewrite wrap_small by (unfold is_size_t; lia). lia.
  - rewrite (IHr r eq_refl) by lia.
    rewrite wrap_small by (unfold is_size_t; lia). lia.
  - reflexivity.
Qed.

Lemma NumDescendantNodes_count (n : tree) :
  Z.of_nat (node_count n) < size_t_modulus ->
  NumDescendantNodes n = Z.of_nat (forest_count (children n)).
Proof.
  intros H. rewrite NumDescendantNodes_node_count by exact H.
  rewrite (forest_count_children n). lia.
Qed.

Lemma breadth_first_descendants_walk (n : tree) :
  breadth_first_descendants n = walk (children n).
Proof.
  unfold breadth_first_descendants. symmetry. apply walk_level_order.
  rewrite (height_children n). lia.
Qed.

(** C8: [DescendantNode(index)] returns the node at place [index] of the
    breadth-first walk of the nodes below when [index] is less than
    [NumDescendantNodes()], and throws [std::invalid_argument] when it is
    not; on a node with six nodes below, index 6 throws and index 5
    returns a node. *)
Theorem C8_DescendantNode_breadth_first (this : tree) (index : Z) :
  Z.of_nat (node_count this) < size_t_modulus ->
  is_size_t index ->
  (index < NumDescendantNodes this ->
     exists n, breadth_first_descendants this !! Z.to_nat index = Some n
               /\ DescendantNode this index = Ok n)
  /\ (NumDescendantNodes this <= index ->
        DescendantNode this index = Stop InvalidArgument)
  /\ (NumDescendantNodes this = 6 ->
        DescendantNode this 6 = Stop InvalidArgument
        /\ exists n, DescendantNode this 5 = Ok n).
Proof.
  intros Hsize [Hi0 Hi].
  pose proof (NumDescendantNodes_count this Hsize) as Hnum.
  pose proof (forest_count_children this) as Hc.
  assert (Hloop : forall i, 0 <= i ->
            DescendantNode this i
            = match breadth_first_descendants this !! Z.to_nat i with
              | Some n => Ok n
              | None => Stop InvalidArgument
              end).
  { intros i Hi'. unfold DescendantNode.
    rewrite DescendantNode_loop_walk by lia.
    rewrite breadth_first_descendants_walk, Z.sub_0_r. reflexivity. }
  assert (Hlen : length (breadth_first_descendants this)
                 = Z.to_nat (NumDescendantNodes this)).
  { rewrite breadth_first_descendants_walk, length_walk, Hnum. lia. }
  split; [|split].
  - intros Hlt.
    destruct (lookup_lt_is_Some_2 (breadth_first_descendants this)
                (Z.to_nat index)) as [n Hn]; [lia|].
    exists n. split; [exact Hn|]. rewrite Hloop, Hn by lia. reflexivity.
  - intros Hge. rewrite Hloop by lia.
    rewrite (proj2 (lookup_ge_None _ _)) by lia. reflexivity.
  - intros H6. split.
    + rewrite Hloop by lia.
      rewrite (proj2 (lookup_ge_None _ _)) by lia. reflexivity.
    + destruct (lookup_lt_is_Some_2 (breadth_first_descendants this)
                  (Z.to_nat 5)) as [n Hn]; [lia|].
      exists n. rewrite Hloop, Hn by lia. reflexivity.
Qed.
End EnumerationProperties.

(** ** Objects by address *)

Section AddressFacts.
Context {BoundType StatisticType : Type}.
Abbreviation tree := (BinarySpaceTree BoundType StatisticType).

Lemma addresses_unfold (n : tree) :
  addresses n
  = self n :: (match Left n with Some l => addresses l | None => [] end
               ++ match Right n with Some r => addresses r | None => [] end).
Proof.
  unfold addresses. rewrite nodes_unfold. simpl. rewrite map_app.
  destruct (Left n), (Right n); reflexivity.
Qed.

Lemma node_at_unfold (p : ptr) (n : tree) :
  node_at p n
  = if Pos.eqb (self n) p then Some n
    else match match Left n with Some l => node_at p l | None => None end with
         | Some x => Some x
         | None => match Right n with Some r => node_at p r | None => None end
         end.
Proof. destruct n; reflexivity. Qed.

Lemma node_at_None (p : ptr) (n : tree) :
  p ∉ addresses n -> node_at p n = None.
Proof.
  induction n as [n IHl IHr] using tree_induction.
  rewrite addresses_unfold, node_at_unfold.
  rewrite not_elem_of_cons, not_elem_of_app. intros (Hp & Hl & Hr).
  destruct (Pos.eqb_spec (self n) p) as [E|_]; [congruence|].
  destruct (Left n) as [l|] eqn:HL.
  - rewrite (IHl l eq_refl Hl). destruct (Right n) as [r|]; [|done].
    apply (IHr r eq_refl Hr).
  - destruct (Right n) as [r|]; [|done]. apply (IHr r eq_refl Hr).
Qed.

(** With distinct addresses, the node found at the address of a node of
    the tree is that node. *)
Lemma node_at_self (root n : tree) :
  NoDup (addresses root) -> n ∈ nodes root -> node_at (self n) root = Some n.
Proof.
  induction root as [root IHl IHr] using tree_induction.
  rewrite addresses_unfold, (nodes_unfold root), node_at_unfold.
  intros Hnd Hn. apply NoDup_cons in Hnd as [Hroot Hnd].
  apply NoDup_app in Hnd as (Hndl & Hdisj & Hndr).
  apply not_elem_of_app in Hroot as [Hrl Hrr].
  apply elem_of_cons in Hn as [->|Hn]; [rewrite Pos.eqb_refl; done|].
  assert (Hmem : forall (t : tree), n ∈ nodes t -> self n ∈ addresses t)
    by (intros t Ht; apply list_elem_of_fmap_2, Ht).
  apply elem_of_app in Hn as [Hn|Hn].
  - destruct (Left root) as [l|] eqn:HL; [|by apply elem_of_nil in Hn].
    destruct (Pos.eqb_spec (self root) (self n)) as [E|_].
    { exfalso. apply Hrl. rewrite E. auto. }
    rewrite (IHl l eq_refl Hndl Hn). done.
  - destruct (Right root) as [r|] eqn:HR; [|by apply elem_of_nil in Hn].
    destruct (Pos.eqb_spec (self root) (self n)) as [E|_].
    { exfalso. apply Hrr. rewrite E. auto. }
    destruct (Left root) as [l|] eqn:HL.
    + rewrite (node_at_None (self n) l) by (intros Hl; eapply Hdisj; eauto).
      apply (IHr r eq_refl Hndr Hn).
    + apply (IHr r eq_refl Hndr Hn).
Qed.

(** Two children of a node of a tree with distinct addresses lie at
    different addresses. *)
Lemma siblings_apart (root n l r : tree) :
  NoDup (addresses root) -> n ∈ nodes root ->
  Left n = Some l -> Right n = Some r -> self l <> self r.
Proof.
  induction root as [root IHl IHr] using tree_induction.
  rewrite addresses_unfold, (nodes_unfold root).
  intros Hnd Hn HL HR. apply NoDup_cons in Hnd as [Hroot Hnd].
  apply NoDup_app in Hnd as (Hndl & Hdisj & Hndr).
  apply elem_of_cons in Hn as [->|Hn].
  - rewrite HL, HR in Hdisj. intros E. apply (Hdisj (self l)).
    + rewrite addresses_unfold. left.
    + rewrite E, addresses_unfold. left.
  - apply elem_of_app in Hn as [Hn|Hn].
    + destruct (Left root) as [x|] eqn:Hx; [|by apply elem_of_nil in Hn].
      apply (IHl x eq_refl Hndl Hn HL HR).
    + destruct (Right root) as [x|] eqn:Hx; [|by apply elem_of_nil in Hn].
      apply (IHr x eq_refl Hndr Hn HL HR).
Qed.

Lemma child_in_nodes (root n c : tree) :
  n ∈ nodes root -> c ∈ children n -> c ∈ nodes root.
Proof.
  induction root as [root IHl IHr] using tree_induction.
  rewrite (nodes_unfold root). intros Hn Hc.
  apply elem_of_cons in Hn as [->|Hn].
  - right. unfold children in Hc. apply elem_of_app in Hc as [Hc|Hc].
    + destruct (Left root) as [l|]; [|by apply elem_of_nil in Hc].
      apply list_elem_of_singleton in Hc as ->.
      apply elem_of_app. left. rewrite nodes_unfold. left.
    + destruct (Right root) as [r|]; [|by apply elem_of_nil in Hc].
      apply list_elem_of_singleton in Hc as ->.
      apply elem_of_app. right. rewrite nodes_unfold. left.
  - right. apply elem_of_app in Hn as [Hn|Hn]; apply elem_of_app; [left|right].
    + destruct (Left root) as [l|] eqn:HL; [|by apply elem_of_nil in Hn].
      apply (IHl l eq_refl Hn Hc).
    + destruct (Right root) as [r|] eqn:HR; [|by apply elem_of_nil in Hn].
      apply (IHr r eq_refl Hn Hc).
Qed.
End AddressFacts.

(** ** Routing *)

Section RoutingProperties.
Context {BoundType StatisticType : Type}.
Abbreviation tree := (BinarySpaceTree BoundType StatisticType).

Lemma path_bits_snoc (path : list branch) (b : branch) :
  path_bits (path ++ [b]) = 4 * path_bits path + branch_bits b.
Proof. unfold path_bits. rewrite fold_left_app. reflexivity. Qed.

Lemma branch_bits_range (b : branch) : 0 <= branch_bits b < 4.
Proof. destruct b as [[] []]; unfold branch_bits; simpl; lia. Qed.

Lemma path_bits_range (path : list branch) :
  0 <= path_bits path < 4 ^ Z.of_nat (length path).
Proof.
  induction path as [|b path IH] using rev_ind.
  - unfold path_bits. simpl. lia.
  - rewrite path_bits_snoc, length_app. simpl.
    pose proof (branch_bits_range b).
    replace (Z.of_nat (length path + 1)) with (Z.succ (Z.of_nat (length path))) by lia.
    rewrite Z.pow_succ_r by lia. lia.
Qed.

Lemma child_Ok (s : side) (n c : tree) :
  child s n = Ok c -> c ∈ children n /\ (node_count c < node_count n)%nat
  /\ match s with L => Left n = Some c | R => Right n = Some c end.
Proof.
  unfold child, children.
  destruct n as [a l r p b cn bd st pd fd ds], s; simpl.
  - destruct l as [l|]; [|discriminate]. intros [= ->].
    split; [apply elem_of_app; left; left|]. split; [lia|reflexivity].
  - destruct r as [r|]; [|discriminate]. intros [= ->].
    split; [apply elem_of_app; right; left|]. split; [lia|reflexivity].
Qed.

Lemma dual_descent_nodes (queryRoot referenceRoot : tree) path q r :
  dual_descent queryRoot referenceRoot path q r ->
  q ∈ nodes queryRoot /\ r ∈ nodes referenceRoot
  /\ (length path + node_count q <= node_count queryRoot)%nat.
Proof.
  induction 1 as [|path q r b q' r' _ (Hq & Hr & Hlen) _ _ Hcq Hcr].
  - rewrite (nodes_unfold queryRoot), (nodes_unfold referenceRoot).
    split; [left|]. split; [left|]. simpl. lia.
  - apply child_Ok in Hcq as (Hcq & Hlt & _). apply child_Ok in Hcr as (Hcr & _ & _).
    split; [eapply child_in_nodes; eauto|].
    split; [eapply child_in_nodes; eauto|].
    rewrite length_app. simpl. lia.
Qed.

(** The test [parent->Right() == current] of lines 208 and 210 tells the
    side of the child. *)
Lemma right_child_test (root n c : tree) (s : side) :
  NoDup (addresses root) -> n ∈ nodes root -> IsLeaf n = false ->
  child s n = Ok c ->
  (if decide (address_of (Right n) = Some (self c)) then 2 else 0)
  = match s with L => 0 | R => 2 end.
Proof.
  intros Hnd Hn Hleaf Hc. apply child_Ok in Hc as (_ & _ & Hc).
  destruct s.
  - destruct (Right n) as [x|] eqn:HR; unfold address_of.
    + pose proof (siblings_apart root n c x Hnd Hn Hc HR).
      rewrite decide_False; [reflexivity|]. intros [= E]. congruence.
    + rewrite decide_False by discriminate. reflexivity.
  - rewrite Hc. unfold address_of. rewrite decide_True by reflexivity.
    reflexivity.
Qed.

Lemma GetTarget_loop_descent (queryRoot referenceRoot : tree) :
  well_linked queryRoot -> well_linked referenceRoot ->
  Parent queryRoot = None -> Parent referenceRoot = None ->
  forall path q r, dual_descent queryRoot referenceRoot path q r ->
  forall fuel level index,
    (length path <= fuel)%nat -> 0 <= level ->
    level + Z.of_nat (length path) <= 31 -> 0 <= index < 4 ^ level ->
    GetTarget_loop fuel queryRoot referenceRoot q r level index
    = Ok (index + 4 ^ level * path_bits path).
Proof.
  intros [Hndq Hlq] [Hndr Hlr] Hpq Hpr path q r Hd.
  induction Hd as [|path q r b q' r' Hd IH Hleafq Hleafr Hcq Hcr];
    intros fuel level index Hfuel Hlevel Hlen Hindex.
  - destruct fuel; simpl; rewrite Hpq; unfold path_bits; simpl; f_equal; lia.
  - rewrite length_app in Hfuel, Hlen. simpl in Hfuel, Hlen.
    destruct (dual_descent_nodes _ _ _ _ _ Hd) as (Hq & Hr & _).
    destruct fuel as [|fuel]; [lia|]. simpl.
    rewrite (Hlq q q' Hq) by (apply child_Ok in Hcq; tauto).
    rewrite (Hlr r r' Hr) by (apply child_Ok in Hcr; tauto).
    rewrite (node_at_self queryRoot q Hndq Hq).
    rewrite (node_at_self referenceRoot r Hndr Hr).
    pose proof (right_child_test queryRoot q q' (fst b) Hndq Hq Hleafq Hcq) as Tq.
    pose proof (right_child_test referenceRoot r r' (snd b) Hndr Hr Hleafr Hcr) as Tr.
    assert (Hci :
      (if decide (address_of (Right r) = Some (self r'))
       then wrap ((if decide (address_of (Right q) = Some (self q'))
                   then wrap (0 + 2) else 0) + 1)
       else (if decide (address_of (Right q) = Some (self q'))
             then wrap (0 + 2) else 0))
      = branch_bits b).
    { unfold branch_bits.
      destruct (decide (address_of (Right q) = _)), (decide (address_of (Right r) = _)),
        (fst b), (snd b); try discriminate; reflexivity. }
    rewrite Hci.
    pose proof (branch_bits_range b) as Hb.
    assert (H4 : 0 < 4 ^ level) by (apply Z.pow_pos_nonneg; lia).
    assert (Hpow : 4 ^ (level + 1) = 4 * 4 ^ level)
      by (rewrite Z.pow_add_r by lia; lia).
    assert (Hmax : 4 ^ (level + 1) <= 4 ^ 31)
      by (apply Z.pow_le_mono_r; lia).
    assert (H431 : 4 ^ 31 < size_t_modulus) by reflexivity.
    rewrite (wrap_small (level * 2)) by (unfold is_size_t, size_t_modulus; lia).
    rewrite Z.shiftl_mul_pow2 by lia.
    replace (2 ^ (level * 2)) with (4 ^ level)
      by (rewrite Z.mul_comm, Z.pow_mul_r by lia; reflexivity).
    rewrite (wrap_small (branch_bits b * 4 ^ level)) by (unfold is_size_t; nia).
    rewrite (wrap_small (index + _)) by (unfold is_size_t; nia).
    rewrite (wrap_small (level + 1)) by (unfold is_size_t, size_t_modulus; lia).
    rewrite IH by (try lia; nia).
    rewrite path_bits_snoc, Hpow. f_equal. lia.
Qed.

(** C5: for every pair of nodes that the coordinator reaches from the
    roots through four-way dual recursions only, at most 31 levels deep,
    [GetTarget] gives one plus the number whose base-4 digits, most
    significant first, are the branches taken ([L/L] = 0, [L/R] = 1,
    [R/L] = 2, [R/R] = 3); with 4 workers the dispatch depth is 1 and the
    pair reached by the branch [R/L] goes to rank 3. *)
Theorem C5_GetTarget_encodes_path (queryRoot referenceRoot : tree)
    (path : list branch) (q r : tree) :
  well_linked queryRoot -> well_linked referenceRoot ->
  Parent queryRoot = None -> Parent referenceRoot = None ->
  dual_descent queryRoot referenceRoot path q r ->
  (length path <= 31)%nat ->
  GetTarget queryRoot referenceRoot q r = Ok (1 + path_bits path)
  /\ (path = [(R, L)] ->
      dispatchDepth (4 + 1) = Z.of_nat (length path)
      /\ GetTarget queryRoot referenceRoot q r = Ok 3).
Proof.
  intros Hwq Hwr Hpq Hpr Hd Hlen.
  assert (HT : GetTarget queryRoot referenceRoot q r = Ok (1 + path_bits path)).
  { unfold GetTarget.
    destruct (dual_descent_nodes _ _ _ _ _ Hd) as (_ & _ & Hdepth).
    rewrite (GetTarget_loop_descent queryRoot referenceRoot Hwq Hwr Hpq Hpr
               path q r Hd) by (simpl; lia).
    pose proof (path_bits_range path) as Hbits.
    assert (4 ^ Z.of_nat (length path) <= 4 ^ 31)
      by (apply Z.pow_le_mono_r; lia).
    assert (H431 : 4 ^ 31 < size_t_modulus) by reflexivity.
    simpl. rewrite wrap_small by (unfold is_size_t; lia). f_equal. lia. }
  split; [exact HT|].
  intros ->. split; [reflexivity|exact HT].
Qed.
End RoutingProperties.

(** ** The copy constructor *)

Section CopyProperties.
Context {BoundType StatisticType MatType : Type}.
Abbreviation tree := (BinarySpaceTree BoundType StatisticType).
Abbreviation copy_ := (copy_BinarySpaceTree (MatType:=MatType)).

Lemma relinked_nil d (t : tree) : relinked [] d t = t.
Proof.
  induction t as [t IHl IHr] using tree_induction.
  destruct t as [a l r pa b c bd st pd fd ds]; simpl in *.
  assert (Hl : match l with Some x => Some (relinked [] d x) | None => None end
               = l)
    by (destruct l; [f_equal; apply IHl|]; reflexivity).
  assert (Hr : match r with Some x => Some (relinked [] d x) | None => None end
               = r)
    by (destruct r; [f_equal; apply IHr|]; reflexivity).
  rewrite Hl, Hr. f_equal.
Qed.

Lemma assign_dataset_relinked p visited d (t : tree) :
  assign_dataset p d (relinked visited d t) = relinked (visited ++ [p]) d t.
Proof.
  induction t as [t IHl IHr] using tree_induction.
  destruct t as [a l r pa b c bd st pd fd ds]; simpl in *.
  assert (Hl : match l with
               | Some x => Some (assign_dataset p d (relinked visited d x))
               | None => None
               end
               = match l with
                 | Some x => Some (relinked (visited ++ [p]) d x)
                 | None => None
                 end)
    by (destruct l; [f_equal; apply IHl|]; reflexivity).
  assert (Hr : match r with
               | Some x => Some (assign_dataset p d (relinked visited d x))
               | None => None
               end
               = match r with
                 | Some x => Some (relinked (visited ++ [p]) d x)
                 | None => None
                 end)
    by (destruct r; [f_equal; apply IHr|]; reflexivity).
  destruct l, r; simpl in *; rewrite ?Hl, ?Hr; f_equal;
    try (injection Hl; congruence); try (injection Hr; congruence).
  all: destruct (Pos.eqb_spec a p) as [->|Hne];
    [rewrite decide_True by (apply elem_of_app; right; left); reflexivity|].
  all: destruct (decide (a ∈ visited)) as [H|H];
    [rewrite decide_True by (apply elem_of_app; left; exact H); reflexivity|].
  all: rewrite decide_False; [reflexivity|].
  all: intros H0; apply elem_of_app in H0 as [H0|H0]; [auto|];
    apply list_elem_of_singleton in H0; congruence.
Qed.

Lemma self_relinked visited d (t : tree) : self (relinked visited d t) = self t.
Proof. destruct t; reflexivity. Qed.

Lemma address_of_Left_relinked visited d (t : tree) :
  address_of (Left (relinked visited d t)) = address_of (Left t).
Proof. destruct t as [a [l|] r pa b c bd st pd fd ds]; simpl; [destruct l|]; reflexivity. Qed.

Lemma address_of_Right_relinked visited d (t : tree) :
  address_of (Right (relinked visited d t)) = address_of (Right t).
Proof. destruct t as [a l [r|] pa b c bd st pd fd ds]; simpl; [destruct r|]; reflexivity. Qed.

Lemma node_at_relinked p visited d (t : tree) :
  node_at p (relinked visited d t) = relinked visited d <$> node_at p t.
Proof.
  induction t as [t IHl IHr] using tree_induction.
  destruct t as [a l r pa b c bd st pd fd ds]; simpl in *.
  destruct (Pos.eqb a p); [reflexivity|].
  destruct l as [l|].
  - rewrite (IHl l eq_refl). destruct (node_at p l); [reflexivity|]. simpl.
    destruct r as [r|]; [|reflexivity]. apply (IHr r eq_refl).
  - destruct r as [r|]; [|reflexivity]. apply (IHr r eq_refl).
Qed.

Lemma nodes_relinked visited d (t : tree) :
  nodes (relinked visited d t) = map (relinked visited d) (nodes t).
Proof.
  induction t as [t IHl IHr] using tree_induction.
  rewrite (nodes_unfold t), (nodes_unfold (relinked visited d t)).
  destruct t as [a l r pa b c bd st pd fd ds]; simpl in *.
  f_equal. rewrite map_app. f_equal.
  - destruct l as [l|]; [|reflexivity]. apply (IHl l eq_refl).
  - destruct r as [r|]; [|reflexivity]. apply (IHr r eq_refl).
Qed.

Lemma Dataset_relinked visited d (t : tree) :
  Dataset (relinked visited d t)
  = if decide (self t ∈ visited) then d else Dataset t.
Proof. destruct t; reflexivity. Qed.

Lemma addresses_children (n : tree) :
  option_list (address_of (Left n)) ++ option_list (address_of (Right n))
  = map self (children n).
Proof.
  unfold children. destruct (Left n), (Right n); reflexivity.
Qed.

(** The loop of lines 246-256 assigns at the addresses of the nodes that
    the walk of its queue takes out. *)
Lemma propagate_dataset_walk (d : option ptr) (root : tree) :
  NoDup (addresses root) ->
  forall fuel (queue : list tree) (visited : list ptr),
    Forall (fun n => n ∈ nodes root) queue ->
    (forest_count queue <= fuel)%nat ->
    propagate_dataset fuel d (map self queue) (relinked visited d root)
    = Ok (relinked (visited ++ map self (walk queue)) d root).
Proof.
  intros Hnd. induction fuel as [|fuel IH]; intros queue visited Hq Hfuel.
  - destruct queue as [|n queue].
    + simp walk. simpl. rewrite app_nil_r. reflexivity.
    + simpl in Hfuel. pose proof (forest_count_children n). lia.
  - destruct queue as [|n queue].
    + simp walk. simpl. rewrite app_nil_r. reflexivity.
    + simpl map. simpl propagate_dataset.
      apply Forall_cons in Hq as [Hn Hq].
      rewrite node_at_relinked, (node_at_self root n Hnd Hn). simpl.
      rewrite address_of_Left_relinked, address_of_Right_relinked.
      rewrite assign_dataset_relinked, addresses_children, <- map_app.
      rewrite IH.
      * simp walk. simpl. rewrite <- app_assoc. reflexivity.
      * apply Forall_app_2; [exact Hq|].
        apply Forall_forall. intros c Hc. eapply child_in_nodes; eauto.
      * simpl in Hfuel. rewrite forest_count_app.
        pose proof (forest_count_children n). lia.
Qed.

(** The walk takes out every node of the forest. *)
Lemma walk_complete (queue : list tree) (x n : tree) :
  n ∈ queue -> x ∈ nodes n -> x ∈ walk queue.
Proof.
  revert x n. funelim (walk queue); intros x n Hn Hx.
  - by apply elem_of_nil in Hn.
  - simp walk. apply elem_of_cons in Hn as [->|Hn].
    + rewrite nodes_unfold in Hx. apply elem_of_cons in Hx as [->|Hx]; [left|].
      right. unfold children in *.
      apply elem_of_app in Hx as [Hx|Hx].
      * destruct (Left node) as [l|]; [|by apply elem_of_nil in Hx].
        apply (H x l); [|exact Hx]. apply elem_of_app. right.
        apply elem_of_app. left. left.
      * destruct (Right node) as [r|]; [|by apply elem_of_nil in Hx].
        apply (H x r); [|exact Hx]. apply elem_of_app. right.
        apply elem_of_app. right. left.
    + right. apply (H x n); [|exact Hx]. apply elem_of_app. left. exact Hn.
Qed.

Lemma descendants_unfold (n : tree) :
  descendants n = match Left n with Some l => nodes l | None => [] end
                  ++ match Right n with Some r => nodes r | None => [] end.
Proof. unfold descendants. rewrite nodes_unfold. reflexivity. Qed.

Lemma parents_set_below_Left (other l : tree) :
  parents_set_below other -> Left other = Some l ->
  Parent l <> None /\ parents_set_below l.
Proof.
  intros H HL. split.
  - apply H. rewrite descendants_unfold, HL. apply elem_of_app. left.
    rewrite nodes_unfold. left.
  - intros n Hn. apply H. rewrite descendants_unfold, HL. apply elem_of_app.
    left. rewrite nodes_unfold. right. rewrite <- descendants_unfold. exact Hn.
Qed.

Lemma parents_set_below_Right (other r : tree) :
  parents_set_below other -> Right other = Some r ->
  Parent r <> None /\ parents_set_below r.
Proof.
  intros H HR. split.
  - apply H. rewrite descendants_unfold, HR. apply elem_of_app. right.
    rewrite nodes_unfold. left.
  - intros n Hn. apply H. rewrite descendants_unfold, HR. apply elem_of_app.
    right. rewrite nodes_unfold. right. rewrite <- descendants_unfold. exact Hn.
Qed.

Lemma fresh_copy_set_Parent p this (m m' : memory MatType) (c : tree) :
  fresh_copy this m m' c -> fresh_copy this m m' (set_Parent p c).
Proof.
  unfold fresh_copy. rewrite (addresses_unfold (set_Parent p c)).
  rewrite (addresses_unfold c). auto.
Qed.


Lemma addresses_set_Parent p (c : tree) :
  addresses (set_Parent p c) = addresses c.
Proof.
  rewrite (addresses_unfold (set_Parent p c)), (addresses_unfold c).
  reflexivity.
Qed.

Lemma addresses_set_Left (x node : tree) :
  Right node = None -> addresses (set_Left (Some x) node) = self node :: addresses x.
Proof.
  intros HR. rewrite addresses_unfold. simpl. rewrite HR, app_nil_r.
  reflexivity.
Qed.

Lemma addresses_set_Right (x node : tree) :
  Right node = None ->
  addresses (set_Right (Some x) node) = addresses node ++ addresses x.
Proof.
  intros HR. rewrite (addresses_unfold (set_Right _ node)), (addresses_unfold node).
  simpl. rewrite HR, app_nil_r. reflexivity.
Qed.

Lemma descendants_set_Left (x node : tree) :
  Right node = None -> descendants (set_Left (Some x) node) = nodes x.
Proof.
  intros HR. rewrite descendants_unfold. simpl. rewrite HR, app_nil_r.
  reflexivity.
Qed.

Lemma descendants_set_Right (x node : tree) :
  Right node = None ->
  descendants (set_Right (Some x) node) = descendants node ++ nodes x.
Proof.
  intros HR. rewrite !descendants_unfold. simpl. rewrite HR, app_nil_r.
  reflexivity.
Qed.

Lemma copy_BinarySpaceTree_unfold (this : ptr) (other : tree)
    (m : memory MatType) :
  copy_ this other m
  = match copy_dataset other m with
    | Stop f => Stop f
    | Ok (dataset, m) =>
      let node :=
        Node this None None (Parent other) (Begin other) (Count other)
             (Bound other) (Stat other) (ParentDistance other)
             (FurthestDescendantDistance other) dataset in
      match copy_child copy_ (Left other) set_Left node m with
      | Stop f => Stop f
      | Ok (node, m) =>
        match copy_child copy_ (Right other) set_Right node m with
        | Stop f => Stop f
        | Ok (node, m) =>
          match propagate_if_root node with
          | Ok node => Ok (node, m)
          | Stop f => Stop f
          end
        end
      end
    end.
Proof. destruct other; reflexivity. Qed.

(** What is expected of the copy of a child [x]. *)
Definition copies_child
    (copy : ptr -> tree -> memory MatType -> outcome (tree * memory MatType))
    (x : tree) : Prop :=
  forall a m0, exists c m',
    copy a x m0 = Ok (c, m')
    /\ Forall (fun n => Dataset n = None) (nodes c)
    /\ matrices m' = matrices m0
    /\ fresh_copy a m0 m' c.

(** The two children of a node under construction, copied one after the
    other. *)
Lemma copy_children
    (copy : ptr -> tree -> memory MatType -> outcome (tree * memory MatType))
    (otherLeft otherRight : option tree) (node : tree) (m : memory MatType) :
  Left node = None -> Right node = None ->
  (forall x, otherLeft = Some x -> copies_child copy x) ->
  (forall x, otherRight = Some x -> copies_child copy x) ->
  exists node1 m1 node2 m2,
    copy_child copy otherLeft set_Left node m = Ok (node1, m1)
    /\ copy_child copy otherRight set_Right node1 m1 = Ok (node2, m2)
    /\ Parent node2 = Parent node /\ Dataset node2 = Dataset node
    /\ Forall (fun n => Dataset n = None) (descendants node2)
    /\ matrices m2 = matrices m
    /\ fresh_copy (self node) m m2 node2.
Proof.
  intros HL HR Hl Hr.
  (* the left child *)
  assert (H1 : exists node1 m1,
    copy_child copy otherLeft set_Left node m = Ok (node1, m1)
    /\ self node1 = self node
    /\ Parent node1 = Parent node /\ Dataset node1 = Dataset node
    /\ Right node1 = None
    /\ Forall (fun n => Dataset n = None) (descendants node1)
    /\ matrices m1 = matrices m
    /\ fresh_copy (self node) m m1 node1).
  { unfold copy_child. destruct otherLeft as [l|].
    - destruct (Hl l eq_refl (next_free m)
                  (Memory (Pos.succ (next_free m)) (matrices m)))
        as (c & m1 & E & Hds & Hm & Hs & Hle & Haddr & Hnd).
      unfold allocate. rewrite E. eexists _, m1. split; [reflexivity|].
      cbn [next_free matrices] in *. unfold fresh_copy.
      rewrite descendants_set_Left, addresses_set_Left by exact HR.
      rewrite addresses_set_Parent.
      split; [reflexivity|]. split; [reflexivity|]. split; [reflexivity|].
      split; [exact HR|].
      split; [apply Forall_nodes_update; auto|].
      split; [exact Hm|].
      split; [reflexivity|]. split; [lia|]. split.
      + constructor; [auto|].
        eapply Forall_impl; [exact Haddr|]. simpl. intros x [->|Hx]; right; lia.
      + intros Hthis. apply NoDup_cons. split; [|apply Hnd; lia].
        intros Hin. rewrite Forall_forall in Haddr.
        apply Haddr in Hin as [Hin|Hin]; lia.
    - eexists node, m. split; [reflexivity|]. unfold fresh_copy.
      rewrite descendants_unfold, addresses_unfold, HL, HR.
      repeat split; auto; try lia; try constructor; auto.
      + apply not_elem_of_nil.
      + constructor. }
  destruct H1 as (node1 & m1 & E1 & Hs1 & Hp1 & Hd1 & HR1 & Hds1 & Hm1 & Hf1).
  exists node1, m1. rewrite E1.
  destruct Hf1 as (_ & Hle & Haddr & Hnd).
  unfold copy_child. destruct otherRight as [r|].
  - destruct (Hr r eq_refl (next_free m1)
                (Memory (Pos.succ (next_free m1)) (matrices m1)))
      as (c & m2 & E & Hds & Hm & Hs' & Hle' & Haddr' & Hnd').
    unfold allocate. rewrite E. eexists _, m2.
    split; [reflexivity|]. split; [reflexivity|].
    cbn [next_free matrices] in *. unfold fresh_copy.
    rewrite descendants_set_Right, addresses_set_Right by exact HR1.
    rewrite addresses_set_Parent.
    split; [exact Hp1|]. split; [exact Hd1|].
    split; [apply Forall_app_2; [exact Hds1|apply Forall_nodes_update; auto]|].
    split; [congruence|].
    split; [exact Hs1|]. split; [lia|]. split.
    + apply Forall_app_2.
      * eapply Forall_impl; [exact Haddr|]. simpl. intros x [->|Hx]; [auto|right; lia].
      * eapply Forall_impl; [exact Haddr'|]. simpl. intros x [->|Hx]; right; lia.
    + intros Hthis. apply NoDup_app. split; [auto|]. split.
      * intros x Hx Hx'. rewrite Forall_forall in Haddr, Haddr'.
        apply Haddr in Hx as [->|Hx]; apply Haddr' in Hx' as [Hx'|Hx']; lia.
      * apply Hnd'. lia.
  - eexists node1, m1. split; [reflexivity|]. split; [reflexivity|].
    unfold fresh_copy. repeat split; auto.
Qed.

(** The copy of a node that has a parent. *)
Lemma copy_with_parent (other : tree) :
  Parent other <> None -> parents_set_below other ->
  forall this (m : memory MatType),
    exists c m',
      copy_ this other m = Ok (c, m')
      /\ Parent c = Parent other
      /\ Forall (fun n => Dataset n = None) (nodes c)
      /\ matrices m' = matrices m
      /\ fresh_copy this m m' c.
Proof.
  induction other as [other IHl IHr] using tree_induction.
  intros Hp Hbelow this m.
  rewrite copy_BinarySpaceTree_unfold. unfold copy_dataset.
  destruct (Parent other) as [pa|] eqn:Hpa; [|congruence]. cbv zeta.
  edestruct (copy_children copy_ (Left other) (Right other)
               (Node this None None (Some pa) (Begin other) (Count other)
                     (Bound other) (Stat other) (ParentDistance other)
                     (FurthestDescendantDistance other) None) m)
    as (node1 & m1 & node2 & m2 & -> & -> & Hp2 & Hd2 & Hds2 & Hm2 & Hf2);
    [reflexivity|reflexivity| | |].
  - intros l HL a m0.
    destruct (parents_set_below_Left _ l Hbelow HL) as [Hpl Hbl].
    destruct (IHl l HL Hpl Hbl a m0) as (c & m' & E & _ & H); eauto.
  - intros r HR a m0.
    destruct (parents_set_below_Right _ r Hbelow HR) as [Hpr Hbr].
    destruct (IHr r HR Hpr Hbr a m0) as (c & m' & E & _ & H); eauto.
  - unfold propagate_if_root. simpl in Hp2, Hd2, Hf2. rewrite Hp2.
    exists node2, m2. split; [reflexivity|]. repeat split; auto; try apply Hf2.
    rewrite nodes_unfold. constructor; [exact Hd2|].
    rewrite <- descendants_unfold. exact Hds2.
Qed.

(** After the loop that hands the matrix of the top down, every node
    refers to it. *)
Lemma relinked_all_datasets (d : option ptr) (node2 : tree) :
  Dataset node2 = d ->
  forall n,
    n ∈ nodes (relinked (map self (walk (children node2))) d node2) ->
    Dataset n = d.
Proof.
  intros Hd2 n Hn. rewrite nodes_relinked in Hn.
  apply list_elem_of_fmap in Hn as (x & -> & Hx).
  rewrite Dataset_relinked.
  rewrite (nodes_unfold node2) in Hx.
  apply elem_of_cons in Hx as [->|Hx].
  + case_decide; [reflexivity|exact Hd2].
  + rewrite decide_True; [reflexivity|].
    apply list_elem_of_fmap_2.
    unfold children.
    apply elem_of_app in Hx as [Hx|Hx].
    * destruct (Left node2) as [l|]; [|by apply elem_of_nil in Hx].
      apply (walk_complete _ x l); [|exact Hx].
      apply elem_of_app. left. left.
    * destruct (Right node2) as [r|]; [|by apply elem_of_nil in Hx].
      apply (walk_complete _ x r); [|exact Hx].
      apply elem_of_app. right. left.
Qed.
End CopyProperties.

(** ** Saving *)

Section SerializationProperties.
Context {BoundType StatisticType : Type}.
Abbreviation tree := (BinarySpaceTree BoundType StatisticType).

Lemma Serialize_saving_hides (parentDistance_at : ptr -> float)
    (maxDepth : Z) (t : tree) :
  almost_zero (levels_remaining parentDistance_at maxDepth t) = true ->
  fst (Serialize_saving parentDistance_at maxDepth t)
  = Saved (Begin t) (Count t) (Bound t) (Stat t) (ParentDistance t)
          (FurthestDescendantDistance t) (Dataset t) None None.
Proof.
  unfold levels_remaining. destruct t as [a l r pa b c bd st pd fd ds].
  simpl. intros ->. reflexivity.
Qed.

Lemma Serialize_saving_recurses (parentDistance_at : ptr -> float)
    (maxDepth : Z) (t : tree) :
  almost_zero (levels_remaining parentDistance_at maxDepth t) = false ->
  let below := fun p =>
    if Pos.eqb p (self t) then levels_remaining parentDistance_at maxDepth t
    else parentDistance_at p in
  fst (Serialize_saving parentDistance_at maxDepth t)
  = Saved (Begin t) (Count t) (Bound t) (Stat t) (ParentDistance t)
          (FurthestDescendantDistance t) (Dataset t)
          (match Left t with
           | Some l => Some (fst (Serialize_saving below 0 l))
           | None => None
           end)
          (match Right t with
           | Some r => Some (fst (Serialize_saving below 0 r))
           | None => None
           end).
Proof.
  unfold levels_remaining. destruct t as [a l r pa b c bd st pd fd ds].
  simpl. intros ->.
  destruct l as [l|], r as [r|];
    repeat match goal with
    | |- context [Serialize_saving ?e 0 ?x] =>
        destruct (Serialize_saving e 0 x)
    end; reflexivity.
Qed.

Lemma archive_ranges_unfold (a : archive BoundType StatisticType) :
  archive_ranges a
  = (saved_begin a, saved_count a)
    :: match saved_left a with Some l => archive_ranges l | None => [] end
    ++ match saved_right a with Some r => archive_ranges r | None => [] end.
Proof. destruct a; reflexivity. Qed.







End SerializationProperties.

(** ** Lookup by range *)

Section LookupProperties.
Context {BoundType StatisticType : Type}.
Abbreviation tree := (BinarySpaceTree BoundType StatisticType).

Lemma FindByBeginCount_unfold (this : tree) (queryBegin queryCount : Z) :
  FindByBeginCount this queryBegin queryCount
  = match Log_Assert (queryBegin <=? Begin this) with
    | Stop f => Stop f
    | Ok _ =>
      match Log_Assert (Count this <=? queryCount) with
      | Stop f => Stop f
      | Ok _ =>
        if (Begin this =? queryBegin) && (Count this =? queryCount) then
          Ok (Some this)
        else if IsLeaf this then Ok None
        else
          match Left this with
          | None => Stop BadPointer
          | Some l =>
            if queryBegin <? End l then
              FindByBeginCount l queryBegin queryCount
            else
              match Right this with
              | Some r => FindByBeginCount r queryBegin queryCount
              | None => Ok None
              end
          end
      end
    end.
Proof. destruct this; reflexivity. Qed.

(** Asked for the range of the node it is called on, either overload
    returns that node. *)
Lemma FindByBeginCount_own_range (a : tree) :
  FindByBeginCount a (Begin a) (Count a) = Ok (Some a).
Proof.
  rewrite FindByBeginCount_unfold. unfold Log_Assert.
  rewrite !Z.leb_refl, !Z.eqb_refl. reflexivity.
Qed.

Lemma FindByBeginCount_const_own_range (a : tree) :
  FindByBeginCount_const a (Begin a) (Count a) = Ok (Some a).
Proof.
  unfold FindByBeginCount_const, Log_Assert.
  rewrite !Z.leb_refl, !Z.eqb_refl. reflexivity.
Qed.

(** The [const] overload returns a child for the range of that child: the
    call it makes on the child is the one of the lemma above. *)
Lemma FindByBeginCount_const_child (a : tree) :
  splits_range a ->
  forall c, c ∈ children a ->
    FindByBeginCount_const a (Begin c) (Count c) = Ok (Some c).
Proof.
  intros Ha c Hc. unfold splits_range in Ha. unfold children in Hc.
  unfold FindByBeginCount_const, Log_Assert, IsLeaf.
  destruct (Left a) as [l|] eqn:HL, (Right a) as [r|] eqn:HR; try tauto;
    [|by apply elem_of_nil in Hc].
  destruct Ha as (Hb & Hcl & Hbr & Hcr & He). simpl in Hc.
  apply elem_of_cons in Hc as [->|Hc];
    [|apply elem_of_cons in Hc as [->|Hc]; [|by apply elem_of_nil in Hc]].
  - replace (Begin a <=? Begin l) with true by lia.
    replace (Count l <=? Count a) with true by lia.
    replace (Count a =? Count l) with false by lia.
    rewrite andb_false_r.
    replace (Begin l <? Begin r) with true by lia.
    apply FindByBeginCount_own_range.
  - replace (Begin a <=? Begin r) with true by lia.
    replace (Count r <=? Count a) with true by lia.
    replace (Count a =? Count r) with false by lia.
    rewrite andb_false_r, Z.ltb_irrefl.
    apply FindByBeginCount_own_range.
Qed.

(** The non-[const] overload stops at its assertions for every node below
    the one it is called on. *)
Lemma FindByBeginCount_stops_below (a : tree) :
  Forall splits_range (nodes a) ->
  forall n, n ∈ descendants a ->
    FindByBeginCount a (Begin n) (Count n) = Stop AssertionFailed.
Proof.
  intros Hs n Hn.
  assert (Hin : n ∈ nodes a) by (rewrite nodes_unfold; right; rewrite <- descendants_unfold; exact Hn).
  pose proof (nodes_inside a Hs n Hin) as (H1 & H2 & _).
  assert (Hlt : Count n < Count a).
  { rewrite descendants_unfold in Hn. rewrite (nodes_unfold a) in Hs.
    apply Forall_cons in Hs as [Ha Hs]. apply Forall_app in Hs as [Hsl Hsr].
    unfold splits_range in Ha.
    destruct (Left a) as [l|] eqn:HL, (Right a) as [r|] eqn:HR; try tauto;
      [|by apply elem_of_nil in Hn].
    destruct Ha as (Hb & Hcl & Hbr & Hcr & He).
    apply elem_of_app in Hn as [Hn|Hn].
    - destruct (nodes_inside l Hsl n Hn) as (_ & _ & [->|?]); lia.
    - destruct (nodes_inside r Hsr n Hn) as (_ & _ & [->|?]); lia. }
  rewrite FindByBeginCount_unfold. unfold Log_Assert.
  destruct (Begin n <=? Begin a); [|reflexivity].
  replace (Count a <=? Count n) with false by lia. reflexivity.
Qed.
(** The [const] overload hands the query to the non-[const] overload,
    called on a child: for a node below a child it stops at the assertions
    of that call. *)
Lemma FindByBeginCount_const_stops_below (a : tree) :
  Forall splits_range (nodes a) ->
  forall c, c ∈ children a ->
  forall n, n ∈ descendants c ->
    FindByBeginCount_const a (Begin n) (Count n) = Stop AssertionFailed.
Proof.
  intros Hs c Hc n Hn.
  rewrite (nodes_unfold a) in Hs.
  apply Forall_cons in Hs as [Ha Hs]. apply Forall_app in Hs as [Hsl Hsr].
  unfold splits_range in Ha. unfold children in Hc.
  unfold FindByBeginCount_const, Log_Assert, IsLeaf.
  destruct (Left a) as [l|] eqn:HL, (Right a) as [r|] eqn:HR; try tauto;
    [|by apply elem_of_nil in Hc].
  destruct Ha as (Hb & Hcl & Hbr & Hcr & He). simpl in Hc.
  assert (Hin : n ∈ nodes c)
    by (rewrite nodes_unfold; right; rewrite <- descendants_unfold; exact Hn).
  apply elem_of_cons in Hc as [->|Hc];
    [|apply elem_of_cons in Hc as [->|Hc]; [|by apply elem_of_nil in Hc]].
  - pose proof (FindByBeginCount_stops_below l Hsl n Hn) as Hstop.
    destruct (nodes_inside l Hsl n Hin) as (G1 & G2 & G3).
    assert (0 < Count n < Count l) as G4.
    { destruct G3 as [->|G3]; [|exact G3].
      rewrite FindByBeginCount_own_range in Hstop. discriminate. }
    replace (Begin a <=? Begin n) with true by lia.
    replace (Count n <=? Count a) with true by lia.
    replace (Count a =? Count n) with false by lia.
    rewrite andb_false_r.
    replace (Begin n <? Begin r) with true by lia.
    exact Hstop.
  - pose proof (FindByBeginCount_stops_below r Hsr n Hn) as Hstop.
    destruct (nodes_inside r Hsr n Hin) as (G1 & G2 & G3).
    assert (0 < Count n < Count r) as G4.
    { destruct G3 as [->|G3]; [|exact G3].
      rewrite FindByBeginCount_own_range in Hstop. discriminate. }
    replace (Begin a <=? Begin n) with true by lia.
    replace (Count n <=? Count a) with true by lia.
    replace (Count a =? Count n) with false by lia.
    rewrite andb_false_r.
    replace (Begin n <? Begin r) with false by lia.
    exact Hstop.
Qed.
End LookupProperties.

(** ** The dispatch depth *)

Lemma first_dispatch_level_closed (world_size : Z) :
  forall fuel level,
    0 <= level -> Z.log2_up (world_size - 1) <= 62 ->
    (Z.to_nat (Z.log2_up (world_size - 1) + 1) <= fuel + Z.to_nat (2 * level))%nat ->
    first_dispatch_level fuel world_size level
    = Z.max level ((Z.log2_up (world_size - 1) + 1) / 2).
Proof.
  pose proof (Z.log2_up_nonneg (world_size - 1)) as Hk.
  induction fuel as [|fuel IH]; intros level Hl Hmax Hfuel; simpl.
  - assert ((Z.log2_up (world_size - 1) + 1) / 2 <= level)
      by (apply Z.div_le_upper_bound; lia). lia.
  - unfold recurse_locally.
    destruct (2 * level <? Z.log2_up (world_size - 1)) eqn:E.
    + apply Z.ltb_lt in E.
      rewrite wrap_small by (unfold is_size_t, size_t_modulus; lia).
      rewrite IH by lia.
      assert (level + 1 <= (Z.log2_up (world_size - 1) + 1) / 2)
        by (apply Z.div_le_lower_bound; lia). lia.
    + apply Z.ltb_ge in E.
      assert ((Z.log2_up (world_size - 1) + 1) / 2 < level + 1)
        by (apply Z.div_lt_upper_bound; lia). lia.
Qed.

(** The number of four-way branch sequences of the dispatch depth is at
    least the number of workers; it is the number of workers exactly
    when that is a power of four. *)
Lemma dispatchDepth_covers_workers (workers : Z) :
  1 <= workers < 2 ^ 31 ->
  dispatchDepth (workers + 1) = (Z.log2_up workers + 1) / 2
  /\ workers <= 4 ^ dispatchDepth (workers + 1).
Proof.
  intros Hw. unfold dispatchDepth.
  replace (workers + 1 - 1) with workers in * by lia.
  assert (Hk : 0 <= Z.log2_up workers <= 31).
  { split; [apply Z.log2_up_nonneg|]. apply Z.log2_up_le_pow2; lia. }
  rewrite first_dispatch_level_closed;
    replace (workers + 1 - 1) with workers by lia; try lia.
  assert (Hd : 0 <= (Z.log2_up workers + 1) / 2) by (apply Z.div_pos; lia).
  rewrite Z.max_r by lia. split; [reflexivity|].
  assert (Hle : workers <= 2 ^ Z.log2_up workers).
  { apply Z.log2_up_le_pow2; lia. }
  eapply Z.le_trans; [exact Hle|].
  replace 4 with (2 ^ 2) by reflexivity.
  rewrite <- Z.pow_mul_r by lia.
  apply Z.pow_le_mono_r; [lia|].
  pose proof (Z.div_mod (Z.log2_up workers + 1) 2 ltac:(lia)).
  pose proof (Z.mod_pos_bound (Z.log2_up workers + 1) 2 ltac:(lia)).
  lia.
Qed.

(** * The instance *)

(** ** The split strategy of the instance keeps the contracts *)

Lemma Example_splitCol_is_size_t :
  splitCol_is_size_t Example.splitter_SplitNode.
Proof.
  intros sp b data begin count. unfold Example.splitter_SplitNode.
  destruct (2 <=? count); simpl; [apply wrap_is_size_t|].
  unfold is_size_t, size_t_modulus. lia.
Qed.

Lemma halving_inside (begin count : Z) :
  0 <= begin -> begin + count < size_t_modulus -> 2 <= count ->
  begin < wrap (begin + count / 2) < begin + count.
Proof.
  intros Hb Hbc Hc.
  assert (1 <= count / 2) by (apply Z.div_le_lower_bound; lia).
  assert (count / 2 < count) by (apply Z.div_lt; lia).
  rewrite wrap_small by (unfold is_size_t; lia). lia.
Qed.

Lemma Example_splits_inside : splits_inside Example.splitter_SplitNode.
Proof.
  intros sp b data begin count col data' sp' Hb Hc Hbc.
  unfold Example.splitter_SplitNode.
  destruct (2 <=? count) eqn:E; [|discriminate].
  intros [= <- _ _]. apply halving_inside; lia.
Qed.

Lemma Example_tracking_splits_inside :
  tracking_splits_inside Example.splitter_SplitNode_tracking.
Proof.
  intros sp b data begin count old col data' old' sp' Hb Hc Hbc.
  unfold Example.splitter_SplitNode_tracking.
  destruct (2 <=? count) eqn:E; [|discriminate].
  intros [= <- _ _ _]. apply halving_inside; lia.
Qed.

Lemma reverse_range_Permutation {A} (begin count : Z) (v : list A) :
  Example.reverse_range begin count v ≡ₚ v.
Proof.
  unfold Example.reverse_range.
  rewrite <- (take_drop (Z.to_nat begin) v) at 4.
  apply Permutation_app; [reflexivity|].
  rewrite <- (take_drop (Z.to_nat count) (drop (Z.to_nat begin) v)) at 3.
  apply Permutation_app; [|reflexivity].
  symmetry. apply Permutation_rev.
Qed.

Lemma Example_tracking_reorders :
  tracking_reorders Example.n_cols Example.splitter_SplitNode_tracking.
Proof.
  intros sp b data begin count old split col data' old' sp'.
  unfold Example.splitter_SplitNode_tracking, Example.n_cols.
  destruct (2 <=? count); intros [= _ _ <- <- _]; [|auto].
  split; [apply reverse_range_Permutation|].
  rewrite (reverse_range_Permutation begin count data). reflexivity.
Qed.

(** ** Scenario A *)

Lemma scenarioA_built :
  Example.scenarioA_run
  = Ok (Example.scenarioA,
        Machine Example.scenarioA_memory tt
                [SplitCall 0 8 true; SplitCall 0 4 true; SplitCall 4 4 true]).
Proof. vm_compute. reflexivity. Qed.

(** Four leaves of two points each, seven nodes, three levels. *)
Lemma scenarioA_shape :
  leaf_ranges Example.scenarioA = [(0, 2); (2, 2); (4, 2); (6, 2)]
  /\ TreeSize Example.scenarioA = 7
  /\ TreeDepth Example.scenarioA = 3
  /\ NumDescendantNodes Example.scenarioA = 6.
Proof. vm_compute. auto. Qed.

Lemma scenarioA_splits_range :
  Forall splits_range (nodes Example.scenarioA).
Proof.
  assert (E : nodes Example.scenarioA
              = ltac:(let x := eval vm_compute in (nodes Example.scenarioA)
                      in exact x)) by (vm_compute; reflexivity).
  rewrite E.
  repeat (apply Forall_cons_2; [vm_compute; repeat split|]).
  apply Forall_nil_2.
Qed.

Lemma scenarioA_children_below :
  Example.scenarioA_left ∈ descendants Example.scenarioA
  /\ Example.scenarioA_right ∈ descendants Example.scenarioA.
Proof.
  replace (descendants Example.scenarioA)
    with (nodes Example.scenarioA_left ++ nodes Example.scenarioA_right)
    by (vm_compute; reflexivity).
  split; apply elem_of_app; [left|right]; rewrite nodes_unfold; left.
Qed.

Lemma scenarioA_well_linked : well_linked Example.scenarioA.
Proof.
  split; [compute_done|].
  assert (H : Forall (fun n => Forall (fun c => Parent c = Some (self n))
                                      (children n))
                     (nodes Example.scenarioA)) by compute_done.
  intros n c Hn Hc. rewrite Forall_forall in H.
  specialize (H n Hn). rewrite Forall_forall in H. apply H, Hc.
Qed.

Lemma scenarioA_parents_set_below :
  parents_set_below Example.scenarioA
  /\ parents_set_below Example.scenarioA_left.
Proof.
  split; intros n Hn.
  - assert (H : Forall (fun n => is_Some (Parent n))
                       (descendants Example.scenarioA)) by compute_done.
    rewrite Forall_forall in H. destruct (H n Hn) as [p ->]. discriminate.
  - assert (H : Forall (fun n => is_Some (Parent n))
                       (descendants Example.scenarioA_left)) by compute_done.
    rewrite Forall_forall in H. destruct (H n Hn) as [p ->]. discriminate.
Qed.

(** The first level of scenario A is dispatched to the ranks 1 to 4 when
    there are four workers; with two workers the third message has no
    rank to go to. *)
Lemma scenarioA_dispatching :
  (exists c, Example.dispatching 5 = Ok c
             /\ map target_rank (sent c) = [1; 2; 3; 4]
             /\ resultRequests c = [Some 1; Some 2; Some 3; Some 4])
  /\ Example.dispatching 3 = Stop BadRank.
Proof. split; [eexists; vm_compute; auto|vm_compute; reflexivity]. Qed.

(** Lookups of ranges that no node of scenario A has: called on the root,
    the [const] overload returns [NULL] for the range (0, 5), which the
    assertions of the other overload let through down to a leaf, and
    stops at an assertion of the call on the left child for the range
    (0, 1); called on the leaf of the points 0 and 1 it returns [NULL]
    for (0, 1). *)
Lemma scenarioA_lookup_absent :
  FindByBeginCount_const Example.scenarioA 0 5 = Ok None
  /\ FindByBeginCount_const Example.scenarioA 0 1 = Stop AssertionFailed
  /\ FindByBeginCount_const Example.scenarioA_leaf_0 0 1 = Ok None.
Proof. repeat split; vm_compute; reflexivity. Qed.

Lemma scenarioA_leaf_below_left :
  Example.scenarioA_left ∈ children Example.scenarioA
  /\ Example.scenarioA_right ∈ children Example.scenarioA
  /\ Example.scenarioA_leaf_1 ∈ descendants Example.scenarioA_left.
Proof.
  replace (children Example.scenarioA)
    with [Example.scenarioA_left; Example.scenarioA_right]
    by (vm_compute; reflexivity).
  replace (descendants Example.scenarioA_left)
    with [Example.scenarioA_leaf_0; Example.scenarioA_leaf_1]
    by (vm_compute; reflexivity).
  repeat split.
  - apply elem_of_cons; left; reflexivity.
  - apply elem_of_cons; right; apply elem_of_cons; left; reflexivity.
  - apply elem_of_cons; right; apply elem_of_cons; left; reflexivity.
Qed.

(** * The claims on lookup, dispatch depth and saving *)

(** C2: on a tree whose children split the ranges of their parents, asked
    for the begin and count of a node [n], either overload of
    [FindByBeginCount] returns [n] when it is called on [n] itself, and the
    [const] overload also when it is called on the parent of [n]; but the
    non-[const] overload, whose two assertions compare the other way
    round, stops at an assertion for every node below the one it is called
    on, and so does the [const] overload for every node below a child of
    the one it is called on, because the call it makes on the child is a
    call of the non-[const] overload. *)
Theorem C2_FindByBeginCount_stops_below_the_children
    {BoundType StatisticType : Type}
    (a : BinarySpaceTree BoundType StatisticType) :
  Forall splits_range (nodes a) ->
  FindByBeginCount_const a (Begin a) (Count a) = Ok (Some a)
  /\ FindByBeginCount a (Begin a) (Count a) = Ok (Some a)
  /\ (forall c, c ∈ children a ->
        FindByBeginCount_const a (Begin c) (Count c) = Ok (Some c))
  /\ (forall n, n ∈ descendants a ->
        FindByBeginCount a (Begin n) (Count n) = Stop AssertionFailed)
  /\ (forall c n, c ∈ children a -> n ∈ descendants c ->
        FindByBeginCount_const a (Begin n) (Count n) = Stop AssertionFailed).
Proof.
  intros Hs. repeat split.
  - apply FindByBeginCount_const_own_range.
  - apply FindByBeginCount_own_range.
  - apply FindByBeginCount_const_child.
    rewrite nodes_unfold in Hs. apply Forall_cons in Hs as [Ha _]. exact Ha.
  - apply FindByBeginCount_stops_below, Hs.
  - intros c n Hc Hn. apply (FindByBeginCount_const_stops_below a Hs c Hc n Hn).
Qed.

Lemma C2_witness :
  FindByBeginCount_const Example.scenarioA 2 2 = Stop AssertionFailed
  /\ FindByBeginCount Example.scenarioA 4 4 = Stop AssertionFailed
  /\ FindByBeginCount_const Example.scenarioA 4 4
     = Ok (Some Example.scenarioA_right).
Proof.
  destruct (C2_FindByBeginCount_stops_below_the_children Example.scenarioA
              scenarioA_splits_range)
    as (_ & _ & Hchild & Hother & Hconst).
  split; [|split].
  - apply (Hconst Example.scenarioA_left Example.scenarioA_leaf_1);
      apply scenarioA_leaf_below_left.
  - apply (Hother Example.scenarioA_right), scenarioA_children_below.
  - apply (Hchild Example.scenarioA_right), scenarioA_leaf_below_left.
Defined.

(** C6: for [workers] worker processes, the level at which the
    coordinator dispatches is half the rounded-up binary logarithm of
    [workers], rounded up; four to that power is at least [workers], and
    is at most [workers] only when it is equal to it. *)
Theorem C6_dispatchDepth_reaches_past_workers (workers : Z) :
  1 <= workers < 2 ^ 31 ->
  dispatchDepth (workers + 1) = (Z.log2_up workers + 1) / 2
  /\ workers <= 4 ^ dispatchDepth (workers + 1)
  /\ (4 ^ dispatchDepth (workers + 1) <= workers ->
      workers = 4 ^ dispatchDepth (workers + 1)).
Proof.
  intros Hw. destruct (dispatchDepth_covers_workers workers Hw) as [Hd Hle].
  split; [exact Hd|]. split; [exact Hle|]. lia.
Qed.

Lemma C6_witness :
  dispatchDepth (2 + 1) = 1 /\ 2 < 4 ^ dispatchDepth (2 + 1).
Proof.
  destruct (C6_dispatchDepth_reaches_past_workers 2) as (Hd & Hle & _);
    [lia|].
  split; [rewrite Hd; reflexivity|].
  rewrite Hd. vm_compute. reflexivity.
Defined.




(** * The theorems on the instance *)

(** Scenario A: the tree is built, every node has no child or two, and two
    children split the range of their parent. *)
Lemma C3_witness :
  exists t s',
    Example.build 9 Example.scenarioA_data 2 Example.boot = Ok (t, s')
    /\ Forall (fun n =>
                 (NumChildren n = 0 \/ NumChildren n = 2)
                 /\ 0 <= Begin n /\ 0 <= Count n
                 /\ Begin n + Count n <= 8
                 /\ End n = Begin n + Count n
                 /\ splits_range n
                 /\ children_partition n)
              (nodes t).
Proof.
  apply (C3_children_partition_parent
           Example.n_rows Example.n_cols Example.new_BoundType
           Example.expand_to_cols Example.Diameter Example.Centroid
           Example.Metric_Evaluate Example.default_StatisticType
           Example.new_StatisticType Example.new_SplitType
           Example.splitter_SplitNode Example.indeterminate
           Example_splits_inside 9 Example.scenarioA_data 2 Example.boot).
  - vm_compute. split; [discriminate|reflexivity].
  - vm_compute. lia.
Defined.

(** Three equal points and [maxLeafSize = 0]: the tree is built, and its
    leaves are left where the split strategy gave up. *)
Lemma C4_witness :
  exists t s' calls,
    Example.build 4 [5; 5; 5] 0 Example.boot = Ok (t, s')
    /\ split_calls s' = split_calls Example.boot ++ calls
    /\ (forall leaf, leaf ∈ leaves t ->
          Count leaf <= 0
          \/ SplitCall (Begin leaf) (Count leaf) false ∈ calls)
    /\ tiles 0 3 (leaf_ranges t).
Proof.
  apply (C4_leaves_tile_the_dataset
           Example.n_rows Example.n_cols Example.new_BoundType
           Example.expand_to_cols Example.Diameter Example.Centroid
           Example.Metric_Evaluate Example.default_StatisticType
           Example.new_StatisticType Example.new_SplitType
           Example.splitter_SplitNode Example.indeterminate
           Example_splits_inside 4 [5; 5; 5] 0 Example.boot).
  - vm_compute. split; [discriminate|reflexivity].
  - vm_compute. lia.
Defined.

(** Scenario A with the permutation tracked. *)
Lemma C9_witness :
  exists t oldFromNew newFromOld s',
    Example.build_tracking 9 Example.scenarioA_data [] [] 2 Example.boot
    = Ok (t, oldFromNew, newFromOld, s')
    /\ oldFromNew ≡ₚ seqZ 0 8
    /\ newFromOld ≡ₚ seqZ 0 8
    /\ inverse_mappings 8 oldFromNew newFromOld.
Proof.
  apply (C9_permutation_vectors_are_inverse
           Example.n_rows Example.n_cols Example.new_BoundType
           Example.expand_to_cols Example.Diameter Example.Centroid
           Example.Metric_Evaluate Example.default_StatisticType
           Example.new_StatisticType Example.new_SplitType
           Example.splitter_SplitNode_tracking Example.indeterminate
           Example_tracking_splits_inside Example_tracking_reorders
           9 Example.scenarioA_data [] [] 2 Example.boot).
  - vm_compute. split; [discriminate|reflexivity].
  - vm_compute. lia.
Defined.

(** Scenario B: the root of scenario A has six nodes below. *)
Lemma C8_witness :
  DescendantNode Example.scenarioA 6 = Stop InvalidArgument
  /\ exists n, DescendantNode Example.scenarioA 5 = Ok n.
Proof.
  destruct (C8_DescendantNode_breadth_first Example.scenarioA 5)
    as (_ & _ & H).
  - vm_compute. reflexivity.
  - vm_compute. split; [discriminate|reflexivity].
  - apply H. vm_compute. reflexivity.
Defined.

(** Scenario D: the right child of the query root with the left child of
    the reference root goes to rank 3. *)
Lemma C5_witness :
  dispatchDepth (4 + 1) = 1
  /\ GetTarget Example.scenarioA Example.scenarioA
               Example.scenarioA_right Example.scenarioA_left = Ok 3.
Proof.
  destruct (C5_GetTarget_encodes_path Example.scenarioA Example.scenarioA
              [(R, L)] Example.scenarioA_right Example.scenarioA_left)
    as [_ H].
  - exact scenarioA_well_linked.
  - exact scenarioA_well_linked.
  - reflexivity.
  - reflexivity.
  - apply (descent_step Example.scenarioA Example.scenarioA []
                        Example.scenarioA Example.scenarioA (R, L));
      [apply descent_roots|reflexivity..].
  - simpl. lia.
  - destruct (H eq_refl) as [Hd Ht]. split; [exact Hd|exact Ht].
Defined.

(** * Further properties of the tree *)

(** ** Counting nodes and levels *)

Section MeasureProperties.
Context {BoundType StatisticType : Type}.
Abbreviation tree := (BinarySpaceTree BoundType StatisticType).

Lemma length_nodes (n : tree) : length (nodes n) = node_count n.
Proof.
  induction n as [n IHl IHr] using tree_induction.
  rewrite nodes_unfold. destruct n as [a l r p b c bd st pd fd ds]; simpl in *.
  rewrite length_app. f_equal. f_equal.
  - destruct l as [l|]; [apply (IHl l eq_refl)|reflexivity].
  - destruct r as [r|]; [apply (IHr r eq_refl)|reflexivity].
Qed.

Lemma TreeSize_node_count (n : tree) :
  Z.of_nat (node_count n) < size_t_modulus ->
  TreeSize n = Z.of_nat (node_count n).
Proof.
  induction n as [n IHl IHr] using tree_induction.
  destruct n as [a l r p b c bd st pd fd ds]. simpl in *. intros Hlt.
  rewrite wrap_add_l.
  assert (Hl : forall x, l = Some x -> TreeSize x = Z.of_nat (node_count x)) by (intros x ->; apply (IHl x eq_refl); lia).
  assert (Hr : forall x, r = Some x -> TreeSize x = Z.of_nat (node_count x)) by (intros x ->; apply (IHr x eq_refl); lia).
  destruct l as [l|], r as [r|];
    try rewrite (Hl _ eq_refl); try rewrite (Hr _ eq_refl);
    rewrite wrap_small by (unfold is_size_t; lia); lia.
Qed.

Lemma height_le_node_count (n : tree) : (height n <= node_count n)%nat.
Proof.
  induction n as [n IHl IHr] using tree_induction.
  destruct n as [a l r p b c bd st pd fd ds]. simpl in *.
  destruct l as [l|], r as [r|];
    try pose proof (IHl l eq_refl); try pose proof (IHr r eq_refl); lia.
Qed.

Lemma node_count_lt_pow_height (n : tree) :
  (node_count n < 2 ^ height n)%nat.
Proof.
  induction n as [n IHl IHr] using tree_induction.
  destruct n as [a l r p b c bd st pd fd ds]. simpl in *.
  set (hl := match l with Some l => height l | None => O end).
  set (hr := match r with Some r => height r | None => O end).
  assert (Hl : (match l with Some l => node_count l | None => O end
                < 2 ^ hl)%nat).
  { subst hl. destruct l as [l|]; [apply (IHl l eq_refl)|simpl; lia]. }
  assert (Hr : (match r with Some r => node_count r | None => O end
                < 2 ^ hr)%nat).
  { subst hr. destruct r as [r|]; [apply (IHr r eq_refl)|simpl; lia]. }
  assert (Hml : (2 ^ hl <= 2 ^ Nat.max hl hr)%nat)
    by (apply Nat.pow_le_mono_r; lia).
  assert (Hmr : (2 ^ hr <= 2 ^ Nat.max hl hr)%nat)
    by (apply Nat.pow_le_mono_r; lia).
  lia.
Qed.

Lemma TreeDepth_height (n : tree) :
  Z.of_nat (node_count n) < size_t_modulus ->
  TreeDepth n = Z.of_nat (height n).
Proof.
  induction n as [n IHl IHr] using tree_induction.
  pose proof (height_le_node_count n) as Hh.
  destruct n as [a l r p b c bd st pd fd ds]. simpl in *. intros Hlt.
  assert (Hl : forall x, l = Some x -> TreeDepth x = Z.of_nat (height x)) by (intros x ->; apply (IHl x eq_refl); lia).
  assert (Hr : forall x, r = Some x -> TreeDepth x = Z.of_nat (height x)) by (intros x ->; apply (IHr x eq_refl); lia).
  destruct l as [l|], r as [r|];
    try rewrite (Hl _ eq_refl); try rewrite (Hr _ eq_refl);
    rewrite wrap_small by (unfold is_size_t; lia); lia.
Qed.

(** X1: on a tree of fewer than 2^64 nodes, [TreeSize()] is the number of
    nodes of the subtree, which is one more than
    [NumDescendantNodes()]. *)
Theorem TreeSize_counts_the_nodes (n : tree) :
  Z.of_nat (node_count n) < size_t_modulus ->
  TreeSize n = Z.of_nat (length (nodes n))
  /\ TreeSize n = 1 + NumDescendantNodes n
  /\ NumDescendantNodes n = Z.of_nat (length (descendants n)).
Proof.
  intros H. rewrite (TreeSize_node_count n H).
  rewrite (NumDescendantNodes_node_count n H).
  unfold descendants. rewrite <- (length_nodes n).
  destruct (nodes n) eqn:E; [rewrite nodes_unfold in E; discriminate|].
  simpl. lia.
Qed.

(** X2: on a tree of fewer than 2^64 nodes, [TreeDepth()] is at least 1
    and at most [TreeSize()], and [TreeSize()] is less than two to the
    power [TreeDepth()]. *)
Theorem TreeDepth_bounds_TreeSize (n : tree) :
  Z.of_nat (node_count n) < size_t_modulus ->
  1 <= TreeDepth n <= TreeSize n /\ TreeSize n < 2 ^ TreeDepth n.
Proof.
  intros H. rewrite (TreeSize_node_count n H), (TreeDepth_height n H).
  pose proof (height_le_node_count n) as Hle.
  pose proof (node_count_lt_pow_height n) as Hlt.
  assert (1 <= height n)%nat by (destruct n; simpl; lia).
  split; [lia|].
  apply Nat2Z.inj_lt in Hlt. rewrite Nat2Z.inj_pow in Hlt. exact Hlt.
Qed.

Lemma nodes_children (n : tree) :
  nodes n = n :: concat (map nodes (children n)).
Proof.
  rewrite nodes_unfold. unfold children. f_equal.
  destruct (Left n), (Right n); simpl; rewrite ?app_nil_r; reflexivity.
Qed.

(** The queue loop takes every node of the forest out once. *)
Lemma walk_Permutation (queue : list tree) :
  walk queue ≡ₚ concat (map nodes queue).
Proof.
  funelim (walk queue); simp walk; [reflexivity|].
  rewrite H, map_app, concat_app. simpl. rewrite (nodes_children node).
  simpl. apply Permutation_skip, Permutation_app_comm.
Qed.

Lemma map_outcome_lookup (l : list tree) (f : Z -> outcome tree) :
  (forall i, 0 <= i ->
     f i = match l !! Z.to_nat i with
           | Some n => Ok n
           | None => Stop InvalidArgument
           end) ->
  map f (seqZ 0 (Z.of_nat (length l))) = map Ok l.
Proof.
  intros Hf. apply list_eq. intros i. rewrite !list_lookup_fmap.
  destruct (decide (i < length l)%nat) as [Hi|Hi].
  - rewrite lookup_seqZ_lt by lia. cbn [fmap option_fmap option_map].
    rewrite Hf by lia. replace (Z.to_nat (0 + Z.of_nat i)) with i by lia.
    destruct (lookup_lt_is_Some_2 l i Hi) as [n ->]. reflexivity.
  - rewrite lookup_seqZ_ge by lia. rewrite (proj2 (lookup_ge_None l i)) by lia.
    reflexivity.
Qed.

(** X3: on a node with fewer than 2^64 nodes below,
    [DescendantNode(i)] for [i] from 0 to [NumDescendantNodes() - 1]
    returns every node below the node once. *)
Theorem DescendantNode_reaches_every_descendant (this : tree) :
  Z.of_nat (node_count this) < size_t_modulus ->
  map (DescendantNode this) (seqZ 0 (NumDescendantNodes this))
  ≡ₚ map Ok (descendants this).
Proof.
  intros Hsize.
  rewrite (NumDescendantNodes_count this Hsize), <- length_walk.
  rewrite (map_outcome_lookup (walk (children this))).
  - apply fmap_Permutation. rewrite walk_Permutation.
    unfold descendants. rewrite (nodes_children this). reflexivity.
  - intros i Hi. unfold DescendantNode.
    pose proof (forest_count_children this).
    rewrite DescendantNode_loop_walk by lia.
    replace (i - 0) with i by lia. reflexivity.
Qed.

(** X4: [Child(i)] for [i] below [NumChildren()] returns the child at
    place [i], left first, and never dereferences a null pointer. *)
Theorem Child_below_NumChildren (n : tree) (i : Z) :
  0 <= i < NumChildren n ->
  exists c, Child n i = Ok c /\ children n !! Z.to_nat i = Some c.
Proof.
  unfold NumChildren, Child, children. intros Hi.
  destruct (Left n) as [l|], (Right n) as [r|]; try lia.
  - destruct (Z.eqb_spec i 0) as [->|Hne].
    + exists l. split; reflexivity.
    + exists r. replace i with 1 by lia. split; reflexivity.
  - replace i with 0 by lia. exists l. split; reflexivity.
Qed.
End MeasureProperties.

(** ** Lookup by range *)

Section LookupSoundness.
Context {BoundType StatisticType : Type}.
Abbreviation tree := (BinarySpaceTree BoundType StatisticType).

Lemma FindByBeginCount_sound (a : tree) (queryBegin queryCount : Z) :
  forall n, FindByBeginCount a queryBegin queryCount = Ok (Some n) ->
    n ∈ nodes a /\ Begin n = queryBegin /\ Count n = queryCount.
Proof.
  induction a as [a IHl IHr] using tree_induction. intros n.
  rewrite FindByBeginCount_unfold, (nodes_unfold a). unfold Log_Assert.
  destruct (queryBegin <=? Begin a); [|discriminate].
  destruct (Count a <=? queryCount); [|discriminate].
  destruct ((Begin a =? queryBegin) && (Count a =? queryCount)) eqn:E.
  { intros [= <-]. apply andb_true_iff in E as [E1 E2].
    split; [left|]. lia. }
  destruct (IsLeaf a); [discriminate|].
  destruct (Left a) as [l|]; [|discriminate].
  destruct (queryBegin <? End l).
  - intros H. destruct (IHl l eq_refl n H) as (Hn & Hb & Hc).
    split; [right; apply elem_of_app; left; exact Hn|auto].
  - destruct (Right a) as [r|]; [|discriminate]. intros H.
    destruct (IHr r eq_refl n H) as (Hn & Hb & Hc).
    split; [right; apply elem_of_app; right; exact Hn|auto].
Qed.

(** What the [const] overload returns is the node itself or what its call
    of the other overload on a child returns. *)
Lemma FindByBeginCount_const_sound (a : tree) (queryBegin queryCount : Z) :
  forall n, FindByBeginCount_const a queryBegin queryCount = Ok (Some n) ->
    n ∈ nodes a /\ Begin n = queryBegin /\ Count n = queryCount.
Proof.
  intros n. unfold FindByBeginCount_const, Log_Assert.
  rewrite (nodes_unfold a).
  destruct (Begin a <=? queryBegin); [|discriminate].
  destruct (queryCount <=? Count a); [|discriminate].
  destruct ((Begin a =? queryBegin) && (Count a =? queryCount)) eqn:E.
  { intros [= <-]. apply andb_true_iff in E as [E1 E2].
    split; [left|]. lia. }
  destruct (IsLeaf a); [discriminate|].
  destruct (Right a) as [r|]; [|discriminate].
  destruct (queryBegin <? Begin r).
  - destruct (Left a) as [l|]; [|discriminate]. intros H.
    destruct (FindByBeginCount_sound l queryBegin queryCount n H)
      as (Hn & Hb & Hc).
    split; [right; apply elem_of_app; left; exact Hn|auto].
  - intros H.
    destruct (FindByBeginCount_sound r queryBegin queryCount n H)
      as (Hn & Hb & Hc).
    split; [right; apply elem_of_app; right; exact Hn|auto].
Qed.

(** X5: a node that either overload of [FindByBeginCount] returns is a
    node of the subtree searched, and its begin and count are the ones
    asked for. *)
Theorem FindByBeginCount_returns_only_matching_nodes
    (a : tree) (queryBegin queryCount : Z) (n : tree) :
  FindByBeginCount_const a queryBegin queryCount = Ok (Some n)
  \/ FindByBeginCount a queryBegin queryCount = Ok (Some n) ->
  n ∈ nodes a /\ Begin n = queryBegin /\ Count n = queryCount.
Proof.
  intros [H|H].
  - apply (FindByBeginCount_const_sound a queryBegin queryCount n H).
  - apply (FindByBeginCount_sound a queryBegin queryCount n H).
Qed.

(** A call of the non-[const] overload that returns has passed its two
    assertions. *)
Lemma FindByBeginCount_asserted (a : tree) (queryBegin queryCount : Z) r :
  FindByBeginCount a queryBegin queryCount = Ok r ->
  queryBegin <= Begin a /\ Count a <= queryCount.
Proof.
  rewrite FindByBeginCount_unfold. unfold Log_Assert.
  destruct (queryBegin <=? Begin a) eqn:E1; [|discriminate].
  destruct (Count a <=? queryCount) eqn:E2; [|discriminate].
  intros _. lia.
Qed.

(** In a tree whose children split the ranges of their parents, the
    non-[const] overload returns no node but the one it is called on. *)
Lemma FindByBeginCount_only_itself (a : tree) (queryBegin queryCount : Z) :
  Forall splits_range (nodes a) ->
  forall n, FindByBeginCount a queryBegin queryCount = Ok (Some n) ->
    n = a /\ Begin a = queryBegin /\ Count a = queryCount.
Proof.
  intros Hs n H.
  destruct (FindByBeginCount_asserted _ _ _ _ H) as [_ Hc].
  destruct (FindByBeginCount_sound _ _ _ _ H) as (Hn & <- & <-).
  destruct (nodes_inside a Hs n Hn) as (_ & _ & [->|Hlt]); [auto|lia].
Qed.

(** Begin and count identify a node of such a tree. *)
Lemma nodes_identified_by_range (a : tree) :
  Forall splits_range (nodes a) ->
  forall n1 n2, n1 ∈ nodes a -> n2 ∈ nodes a ->
    Begin n1 = Begin n2 -> Count n1 = Count n2 -> n1 = n2.
Proof.
  induction a as [a IHl IHr] using tree_induction.
  intros Hs n1 n2 H1 H2 Hb Hc.
  destruct (nodes_inside a Hs n1 H1) as (_ & _ & G1).
  destruct (nodes_inside a Hs n2 H2) as (_ & _ & G2).
  destruct G1 as [->|G1]; [destruct G2 as [->|G2]; [reflexivity|lia]|].
  destruct G2 as [->|G2]; [lia|].
  rewrite (nodes_unfold a) in Hs, H1, H2.
  apply Forall_cons in Hs as [Ha Hs]. apply Forall_app in Hs as [Hsl Hsr].
  apply elem_of_cons in H1 as [->|H1]; [lia|].
  apply elem_of_cons in H2 as [->|H2]; [lia|].
  unfold splits_range in Ha.
  destruct (Left a) as [l|] eqn:HL, (Right a) as [r|] eqn:HR; try tauto;
    [|by apply elem_of_nil in H1].
  destruct Ha as (Hbl & Hcl & Hbr & Hcr & He).
  apply elem_of_app in H1 as [H1|H1]; apply elem_of_app in H2 as [H2|H2].
  - apply (IHl l eq_refl Hsl n1 n2 H1 H2 Hb Hc).
  - destruct (nodes_inside l Hsl n1 H1) as (_ & L2 & L3).
    destruct (nodes_inside r Hsr n2 H2) as (R1 & _ & _).
    assert (0 < Count n1) by (destruct L3 as [->|L3]; lia). lia.
  - destruct (nodes_inside r Hsr n1 H1) as (R1 & _ & _).
    destruct (nodes_inside l Hsl n2 H2) as (_ & L2 & L3).
    assert (0 < Count n2) by (destruct L3 as [->|L3]; lia). lia.
  - apply (IHr r eq_refl Hsr n1 n2 H1 H2 Hb Hc).
Qed.

(** X6: in a tree whose children split the ranges of their parents, no two
    nodes have the same begin and count; the non-[const] overload of
    [FindByBeginCount] returns a node exactly when it is asked for the
    begin and count of the node it is called on, and the [const] overload
    exactly when it is asked for those of that node or of one of its
    children: neither reaches a node further below. *)
Theorem FindByBeginCount_reaches_one_level (a : tree) :
  Forall splits_range (nodes a) ->
  (forall n1 n2, n1 ∈ nodes a -> n2 ∈ nodes a ->
     Begin n1 = Begin n2 -> Count n1 = Count n2 -> n1 = n2)
  /\ (forall queryBegin queryCount n,
        FindByBeginCount a queryBegin queryCount = Ok (Some n)
        <-> n = a /\ Begin n = queryBegin /\ Count n = queryCount)
  /\ (forall queryBegin queryCount n,
        FindByBeginCount_const a queryBegin queryCount = Ok (Some n)
        <-> (n = a \/ n ∈ children a)
            /\ Begin n = queryBegin /\ Count n = queryCount).
Proof.
  intros Hs. split; [apply nodes_identified_by_range, Hs|]. split.
  - intros queryBegin queryCount n. split.
    + intros H.
      destruct (FindByBeginCount_only_itself a _ _ Hs n H) as (-> & Hb & Hc).
      auto.
    + intros (-> & <- & <-). apply FindByBeginCount_own_range.
  - intros queryBegin queryCount n. split.
    + intros H.
      destruct (FindByBeginCount_const_sound a _ _ n H) as (_ & Hb & Hc).
      split; [|auto]. clear Hb Hc. revert H.
      rewrite (nodes_unfold a) in Hs.
      apply Forall_cons in Hs as [Ha Hs]. apply Forall_app in Hs as [Hsl Hsr].
      unfold FindByBeginCount_const, Log_Assert, children.
      destruct (Begin a <=? queryBegin); [|discriminate].
      destruct (queryCount <=? Count a); [|discriminate].
      destruct ((Begin a =? queryBegin) && (Count a =? queryCount)).
      { intros [= <-]. left; reflexivity. }
      destruct (IsLeaf a); [discriminate|].
      destruct (Right a) as [r|]; [|discriminate].
      destruct (queryBegin <? Begin r).
      * destruct (Left a) as [l|]; [|discriminate]. intros H.
        destruct (FindByBeginCount_only_itself l _ _ Hsl n H) as (-> & _).
        right. simpl. apply elem_of_cons; left; reflexivity.
      * intros H.
        destruct (FindByBeginCount_only_itself r _ _ Hsr n H) as (-> & _).
        right. apply elem_of_app; right. simpl.
        apply elem_of_cons; left; reflexivity.
    + intros ([->|Hn] & <- & <-).
      * apply FindByBeginCount_const_own_range.
      * apply FindByBeginCount_const_child; [|exact Hn].
        rewrite nodes_unfold in Hs. apply Forall_cons in Hs as [Ha _].
        exact Ha.
Qed.
End LookupSoundness.

(** ** Routing *)

Lemma branch_bits_inj (b1 b2 : branch) :
  branch_bits b1 = branch_bits b2 -> b1 = b2.
Proof.
  destruct b1 as [[] []], b2 as [[] []]; unfold branch_bits; simpl;
    intros H; try reflexivity; lia.
Qed.

(** Paths of the same length with the same bits are the same. *)
Lemma path_bits_inj (path1 : list branch) :
  forall path2, length path1 = length path2 ->
    path_bits path1 = path_bits path2 -> path1 = path2.
Proof.
  induction path1 as [|b1 path1 IH] using rev_ind; intros path2 Hlen Hbits.
  - destruct path2; [reflexivity|discriminate].
  - destruct path2 as [|b2 path2 _] using rev_ind.
    { rewrite length_app in Hlen. simpl in Hlen. lia. }
    rewrite !length_app in Hlen. simpl in Hlen.
    rewrite !path_bits_snoc in Hbits.
    pose proof (branch_bits_range b1). pose proof (branch_bits_range b2).
    assert (branch_bits b1 = branch_bits b2) by lia.
    f_equal.
    + apply IH; lia.
    + f_equal. apply branch_bits_inj. assumption.
Qed.

Section RoutingFurther.
Context {BoundType StatisticType : Type}.
Abbreviation tree := (BinarySpaceTree BoundType StatisticType).

(** The target of a pair reached through dual recursions. *)
Lemma GetTarget_descent (queryRoot referenceRoot : tree)
    (path : list branch) (q r : tree) :
  well_linked queryRoot -> well_linked referenceRoot ->
  Parent queryRoot = None -> Parent referenceRoot = None ->
  dual_descent queryRoot referenceRoot path q r ->
  (length path <= 31)%nat ->
  GetTarget queryRoot referenceRoot q r = Ok (1 + path_bits path).
Proof.
  intros Hwq Hwr Hpq Hpr Hd Hlen. unfold GetTarget.
  destruct (dual_descent_nodes _ _ _ _ _ Hd) as (_ & _ & Hdepth).
  rewrite (GetTarget_loop_descent queryRoot referenceRoot Hwq Hwr Hpq Hpr
             path q r Hd) by (simpl; lia).
  pose proof (path_bits_range path) as Hr.
  assert (4 ^ Z.of_nat (length path) <= 4 ^ 31)
    by (apply Z.pow_le_mono_r; lia).
  assert (4 ^ 31 < size_t_modulus) by reflexivity.
  f_equal. rewrite wrap_small by (unfold is_size_t; simpl; lia). simpl. lia.
Qed.

(** A path leads to one pair. *)
Lemma dual_descent_functional (queryRoot referenceRoot : tree) path q1 r1 :
  dual_descent queryRoot referenceRoot path q1 r1 ->
  forall q2 r2, dual_descent queryRoot referenceRoot path q2 r2 ->
    q1 = q2 /\ r1 = r2.
Proof.
  induction 1 as [|path q r b q' r' Hd IH _ _ Hcq Hcr]; intros q2 r2 H2.
  - inversion H2 as [|path2 qa ra b2 qb rb Hd2 _ _ _ _ Hpath]; [auto|].
    destruct path2; discriminate.
  - inversion H2 as [Hpath|path2 qa ra b2 qb rb Hd2 _ _ Hcq2 Hcr2 Hpath].
    { destruct path; discriminate. }
    apply app_inj_tail in Hpath as [-> ->]. subst.
    destruct (IH _ _ Hd2) as [-> ->]. split; congruence.
Qed.

(** X7: pairs that the coordinator reaches from the roots through the
    same number of dual recursions, at most 31, get targets between 1
    and four to the power of that number, and get the same target only
    when they are the same pair reached by the same branches. *)
Theorem GetTarget_separates_pairs (queryRoot referenceRoot : tree)
    (path1 path2 : list branch) (q1 r1 q2 r2 : tree) :
  well_linked queryRoot -> well_linked referenceRoot ->
  Parent queryRoot = None -> Parent referenceRoot = None ->
  dual_descent queryRoot referenceRoot path1 q1 r1 ->
  dual_descent queryRoot referenceRoot path2 q2 r2 ->
  length path1 = length path2 -> (length path1 <= 31)%nat ->
  exists target1 target2,
    GetTarget queryRoot referenceRoot q1 r1 = Ok target1
    /\ GetTarget queryRoot referenceRoot q2 r2 = Ok target2
    /\ 1 <= target1 <= 4 ^ Z.of_nat (length path1)
    /\ (target1 = target2 -> path1 = path2 /\ q1 = q2 /\ r1 = r2).
Proof.
  intros Hwq Hwr Hpq Hpr Hd1 Hd2 Hlen H31.
  exists (1 + path_bits path1), (1 + path_bits path2).
  split; [apply GetTarget_descent; assumption|].
  split; [apply GetTarget_descent; try assumption; lia|].
  pose proof (path_bits_range path1). split; [lia|].
  intros Heq. assert (path1 = path2) as <- by (apply path_bits_inj; lia).
  split; [reflexivity|].
  apply (dual_descent_functional _ _ _ _ _ Hd1 _ _ Hd2).
Qed.

(** [GetTarget] stops climbing as soon as one of the two nodes has no
    parent. *)
Lemma GetTarget_of_a_root (queryRoot referenceRoot q r : tree) :
  Parent q = None \/ Parent r = None ->
  GetTarget queryRoot referenceRoot q r = Ok 1.
Proof.
  intros H. unfold GetTarget.
  assert (E : forall fuel, GetTarget_loop fuel queryRoot referenceRoot q r 0 0
                           = Ok 0).
  { intros fuel. destruct fuel; simpl;
      destruct H as [-> | ->]; try reflexivity; destruct (Parent q); reflexivity. }
  rewrite E. reflexivity.
Qed.
End RoutingFurther.

(** ** The coordinator *)

Lemma for_loop_fold {State : Type} (f : Z -> State -> State)
    (body : Z -> State -> outcome State) (n : nat) :
  forall (first : Z) (s : State),
    0 <= first -> first + Z.of_nat n < size_t_modulus ->
    (forall i s, first <= i < first + Z.of_nat n -> body i s = Ok (f i s)) ->
    for_loop n first body s
    = Ok (fold_left (fun s i => f i s) (seqZ first (Z.of_nat n)) s).
Proof.
  induction n as [|n IH]; intros first s H0 Hn Hbody; [reflexivity|].
  simpl for_loop. rewrite Hbody by lia.
  rewrite (wrap_small (first + 1)) by (unfold is_size_t; lia).
  rewrite IH by (try lia; intros; apply Hbody; lia).
  rewrite (seqZ_cons first (Z.of_nat (S n))) by lia. simpl fold_left.
  replace (Z.succ first) with (first + 1) by lia.
  replace (Z.pred (Z.of_nat (S n))) with (Z.of_nat n) by lia.
  reflexivity.
Qed.

Lemma fold_left_fmap {A B C : Type} (f : A -> C -> A) (h : B -> C)
    (l : list B) (a : A) :
  fold_left f (map h l) a = fold_left (fun a y => f a (h y)) l a.
Proof. revert a. induction l as [|y l IH]; intros a; simpl; auto. Qed.

Lemma fold_left_list_prod {A B C B' C' : Type} (g : A -> B' -> C' -> A)
    (hx : B -> B') (hy : C -> C') (xs : list B) (ys : list C) (a : A) :
  fold_left (fun acc x => fold_left (fun acc y => g acc (hx x) (hy y)) ys acc)
            xs a
  = fold_left (fun acc p => g acc (fst p) (snd p))
              (list_prod (map hx xs) (map hy ys)) a.
Proof.
  revert a. induction xs as [|x xs IH]; intros a; simpl; [reflexivity|].
  rewrite fold_left_app, !fold_left_fmap. simpl. apply IH.
Qed.

Section CoordinatorProperties.
Context {BoundType StatisticType RuleType : Type}.
Abbreviation tree := (BinarySpaceTree BoundType StatisticType).
Variable Score : RuleType -> tree -> tree -> float * RuleType.
Variable BaseCase : RuleType -> Z -> Z -> RuleType.

Lemma for_loop_skip {State : Type} (body : Z -> State -> outcome State)
    (n : nat) (s : State) :
  (forall i, body i s = Ok s) -> forall first, for_loop n first body s = Ok s.
Proof.
  intros Hbody. induction n as [|n IH]; intros first; simpl; [reflexivity|].
  rewrite Hbody. apply IH.
Qed.

(** No base case is run for a pair with a node that has a left child. *)
Lemma base_cases_inner (queryNode referenceNode : tree) (r : RuleType) :
  IsLeaf queryNode = false \/ IsLeaf referenceNode = false ->
  base_cases BaseCase queryNode referenceNode r = Ok r.
Proof.
  unfold base_cases, NumPoints, IsLeaf. intros [H|H].
  - destruct (Left queryNode); [reflexivity|discriminate].
  - destruct (Left referenceNode); [|discriminate].
    apply for_loop_skip. reflexivity.
Qed.

(** X8: the two loops of the coordinator call [BaseCase] once for every
    pair of a point of the query node and a point of the reference node,
    the points of the query node in the outer loop; a node that has a left
    child holds no point, so no base case is run unless both nodes are
    leaves. *)
Theorem base_cases_visit_every_pair_of_points
    (queryNode referenceNode : tree) (r : RuleType) :
  is_size_t (NumPoints queryNode) -> is_size_t (NumPoints referenceNode) ->
  base_cases BaseCase queryNode referenceNode r
  = Ok (fold_left (fun r p => BaseCase r (fst p) (snd p))
                  (list_prod (points queryNode) (points referenceNode)) r)
  /\ (IsLeaf queryNode = false \/ IsLeaf referenceNode = false ->
      base_cases BaseCase queryNode referenceNode r = Ok r).
Proof.
  intros [Hq0 Hq] [Hr0 Hr]. split; [|apply base_cases_inner].
  unfold base_cases.
  rewrite (for_loop_fold
             (fun i r => fold_left
                (fun r j => BaseCase r (Point queryNode i)
                                       (Point referenceNode j))
                (seqZ 0 (NumPoints referenceNode)) r)); try lia.
  - f_equal. rewrite Z2Nat.id by lia. unfold points.
    apply (fold_left_list_prod (fun acc x y => BaseCase acc x y)).
  - intros i s _.
    rewrite (for_loop_fold
               (fun j r => BaseCase r (Point queryNode i)
                                      (Point referenceNode j))); try lia.
    + rewrite Z2Nat.id by lia. reflexivity.
    + intros; reflexivity.
Qed.

Abbreviation MasterTraverse_ := (MasterTraverse Score BaseCase).

(** At the dispatch depth the pair is sent. *)
Lemma MasterTraverse_dispatches fuel world_size (queryRoot referenceRoot : tree)
    q r level (c : coordinator RuleType) :
  recurse_locally world_size level = false ->
  MasterTraverse_ (S fuel) world_size queryRoot referenceRoot q r level c
  = match GetTarget queryRoot referenceRoot q r with
    | Stop f => Stop f
    | Ok target => dispatch world_size target q r c
    end.
Proof. intros H. simpl. rewrite H. reflexivity. Qed.

(** Above it, a pair that [Score] prunes ends the call. *)
Lemma MasterTraverse_pruned fuel world_size (queryRoot referenceRoot : tree)
    q r level (c : coordinator RuleType) score rule1 :
  recurse_locally world_size level = true ->
  Score (rule c) q r = (score, rule1) ->
  PrimFloat.eqb score DBL_MAX = true ->
  MasterTraverse_ (S fuel) world_size queryRoot referenceRoot q r level c
  = Ok (Coordinator rule1 (sent c) (resultRequests c)).
Proof. intros H HS Hp. simpl. rewrite H, HS, Hp. reflexivity. Qed.

(** Two nodes with children: the four recursions, in order. *)
Lemma MasterTraverse_dual fuel world_size (queryRoot referenceRoot : tree)
    q r level (c : coordinator RuleType) score rule1 ql qr rl rr :
  recurse_locally world_size level = true ->
  Score (rule c) q r = (score, rule1) ->
  PrimFloat.eqb score DBL_MAX = false ->
  Left q = Some ql -> Right q = Some qr ->
  Left r = Some rl -> Right r = Some rr ->
  MasterTraverse_ (S fuel) world_size queryRoot referenceRoot q r level c
  = let next q r c :=
      MasterTraverse_ fuel world_size queryRoot referenceRoot q r
                      (wrap (level + 1)) c in
    match next ql rl (Coordinator rule1 (sent c) (resultRequests c)) with
    | Stop f => Stop f
    | Ok c =>
      match next ql rr c with
      | Stop f => Stop f
      | Ok c =>
        match next qr rl c with
        | Stop f => Stop f
        | Ok c => next qr rr c
        end
      end
    end.
Proof.
  intros H HS Hp Hql Hqr Hrl Hrr. simpl. rewrite H, HS, Hp.
  cbn [rule sent resultRequests].
  rewrite base_cases_inner by (left; unfold IsLeaf; rewrite Hql; reflexivity).
  unfold IsLeaf, child. rewrite Hql, Hqr, Hrl, Hrr. reflexivity.
Qed.

(** A leaf against a node with children: the two recursions. *)
Lemma MasterTraverse_leaf_query fuel world_size (queryRoot referenceRoot : tree)
    q r level (c : coordinator RuleType) score rule1 rl rr :
  recurse_locally world_size level = true ->
  Score (rule c) q r = (score, rule1) ->
  PrimFloat.eqb score DBL_MAX = false ->
  Left q = None -> Left r = Some rl -> Right r = Some rr ->
  MasterTraverse_ (S fuel) world_size queryRoot referenceRoot q r level c
  = let next q r c :=
      MasterTraverse_ fuel world_size queryRoot referenceRoot q r
                      (wrap (level + 1)) c in
    match next q rl (Coordinator rule1 (sent c) (resultRequests c)) with
    | Stop f => Stop f
    | Ok c => next q rr c
    end.
Proof.
  intros H HS Hp Hq Hrl Hrr. simpl. rewrite H, HS, Hp.
  cbn [rule sent resultRequests].
  rewrite base_cases_inner by (right; unfold IsLeaf; rewrite Hrl; reflexivity).
  unfold IsLeaf, child. rewrite Hq, Hrl, Hrr. reflexivity.
Qed.

(** A message to a worker, and the receive registered for its answer. *)
Lemma dispatch_Ok world_size target (q r : tree) (c : coordinator RuleType) :
  1 <= target < world_size -> world_size <= size_t_modulus ->
  Z.of_nat (length (resultRequests c)) = world_size - 1 ->
  dispatch world_size target q r c
  = Ok (Coordinator (rule c)
          (sent c ++ [Message target (self r) (self q) (rule c)])
          (<[Z.to_nat (target - 1) := Some target]> (resultRequests c))).
Proof.
  intros Ht Hw Hlen. unfold dispatch.
  replace (0 <=? target) with true by lia.
  replace (target <? world_size) with true by lia.
  cbn [negb andb rule sent resultRequests].
  rewrite wrap_small by (unfold is_size_t; lia).
  replace (target - 1 <? Z.of_nat (length (resultRequests c))) with true by lia.
  reflexivity.
Qed.

(** The target of the pair reached by one dual recursion from the roots. *)
Lemma GetTarget_first_level (queryRoot referenceRoot : tree) sq sr cq cr :
  well_linked queryRoot -> well_linked referenceRoot ->
  Parent queryRoot = None -> Parent referenceRoot = None ->
  child sq queryRoot = Ok cq -> child sr referenceRoot = Ok cr ->
  IsLeaf queryRoot = false -> IsLeaf referenceRoot = false ->
  GetTarget queryRoot referenceRoot cq cr = Ok (1 + branch_bits (sq, sr)).
Proof.
  intros Hwq Hwr Hpq Hpr Hcq Hcr Hlq Hlr.
  rewrite (GetTarget_descent queryRoot referenceRoot ([] ++ [(sq, sr)]) cq cr);
    try assumption; [reflexivity| |simpl; lia].
  apply (descent_step queryRoot referenceRoot [] queryRoot referenceRoot
                      (sq, sr)); try assumption. apply descent_roots.
Qed.

(** X9: with four workers, for roots that both have two children, the
    coordinator scores the pair of the roots; when the pair is pruned it
    sends nothing; otherwise it runs no base case and sends the four pairs
    of children, in the order left/left, left/right, right/left,
    right/right, to the ranks 1, 2, 3 and 4, each with the rule as
    [Score] left it, and registers the four receives. *)
Theorem four_workers_get_the_four_pairs_of_children
    (rule0 rule1 : RuleType) (score : float)
    (queryRoot referenceRoot ql qr rl rr : tree) :
  well_linked queryRoot -> well_linked referenceRoot ->
  Parent queryRoot = None -> Parent referenceRoot = None ->
  Left queryRoot = Some ql -> Right queryRoot = Some qr ->
  Left referenceRoot = Some rl -> Right referenceRoot = Some rr ->
  Score rule0 queryRoot referenceRoot = (score, rule1) ->
  Traverse_dispatching Score BaseCase 5 rule0 queryRoot referenceRoot
  = if PrimFloat.eqb score DBL_MAX then
      Ok (Coordinator rule1 [] [None; None; None; None])
    else
      Ok (Coordinator rule1
            [Message 1 (self rl) (self ql) rule1;
             Message 2 (self rr) (self ql) rule1;
             Message 3 (self rl) (self qr) rule1;
             Message 4 (self rr) (self qr) rule1]
            [Some 1; Some 2; Some 3; Some 4]).
Proof.
  intros Hwq Hwr Hpq Hpr Hql Hqr Hrl Hrr HS. unfold Traverse_dispatching.
  change (S (Z.to_nat (Z.log2_up (5 - 1)))) with 3%nat.
  change (replicate (Z.to_nat (5 - 1)) None)
    with ([None; None; None; None] : list (option Z)).
  destruct (PrimFloat.eqb score DBL_MAX) eqn:Hp.
  { erewrite MasterTraverse_pruned by (try reflexivity; eassumption).
    reflexivity. }
  erewrite MasterTraverse_dual by (try reflexivity; eassumption).
  cbv beta zeta. change (wrap (0 + 1)) with 1.
  assert (Hlq : IsLeaf queryRoot = false) by (unfold IsLeaf; rewrite Hql; reflexivity).
  assert (Hlr : IsLeaf referenceRoot = false) by (unfold IsLeaf; rewrite Hrl; reflexivity).
  assert (Cql : child L queryRoot = Ok ql) by (unfold child; rewrite Hql; reflexivity).
  assert (Cqr : child R queryRoot = Ok qr) by (unfold child; rewrite Hqr; reflexivity).
  assert (Crl : child L referenceRoot = Ok rl) by (unfold child; rewrite Hrl; reflexivity).
  assert (Crr : child R referenceRoot = Ok rr) by (unfold child; rewrite Hrr; reflexivity).
  rewrite MasterTraverse_dispatches by reflexivity.
  rewrite (GetTarget_first_level queryRoot referenceRoot L L ql rl) by assumption.
  change (1 + branch_bits (L, L)) with 1.
  rewrite dispatch_Ok by (first [lia | reflexivity | (unfold size_t_modulus; lia)]).
  cbv beta iota. rewrite MasterTraverse_dispatches by reflexivity.
  rewrite (GetTarget_first_level queryRoot referenceRoot L R ql rr) by assumption.
  change (1 + branch_bits (L, R)) with 2.
  rewrite dispatch_Ok by (first [lia | reflexivity | (unfold size_t_modulus; lia)]).
  cbv beta iota. rewrite MasterTraverse_dispatches by reflexivity.
  rewrite (GetTarget_first_level queryRoot referenceRoot R L qr rl) by assumption.
  change (1 + branch_bits (R, L)) with 3.
  rewrite dispatch_Ok by (first [lia | reflexivity | (unfold size_t_modulus; lia)]).
  cbv beta iota. rewrite MasterTraverse_dispatches by reflexivity.
  rewrite (GetTarget_first_level queryRoot referenceRoot R R qr rr) by assumption.
  change (1 + branch_bits (R, R)) with 4.
  rewrite dispatch_Ok by (first [lia | reflexivity | (unfold size_t_modulus; lia)]).
  reflexivity.
Qed.

(** X10: with two to four workers, when the query root is a leaf and the
    reference root has two children, the coordinator sends both pairs, the
    leaf with each child, to rank 1: [GetTarget] finds no parent of the
    query node to read a branch from.  The second receive takes the place
    of the first in [resultRequests]. *)
Theorem leaf_query_root_sends_both_pairs_to_rank_1
    (world_size : Z) (rule0 rule1 : RuleType) (score : float)
    (queryRoot referenceRoot rl rr : tree) :
  3 <= world_size <= 5 ->
  Parent queryRoot = None -> Left queryRoot = None ->
  Left referenceRoot = Some rl -> Right referenceRoot = Some rr ->
  Score rule0 queryRoot referenceRoot = (score, rule1) ->
  PrimFloat.eqb score DBL_MAX = false ->
  Traverse_dispatching Score BaseCase world_size rule0 queryRoot referenceRoot
  = Ok (Coordinator rule1
          [Message 1 (self rl) (self queryRoot) rule1;
           Message 1 (self rr) (self queryRoot) rule1]
          (Some 1 :: replicate (Z.to_nat (world_size - 2)) None)).
Proof.
  intros Hw Hpq Hq Hrl Hrr HS Hp. unfold Traverse_dispatching.
  assert (Hws : world_size = 3 \/ world_size = 4 \/ world_size = 5) by lia.
  destruct Hws as [-> | [-> | ->]].
  all: match goal with
       | |- context [S (Z.to_nat (Z.log2_up ?x))] =>
         let n := eval vm_compute in (S (Z.to_nat (Z.log2_up x))) in
         change (S (Z.to_nat (Z.log2_up x))) with n
       end.
  all: erewrite MasterTraverse_leaf_query by (try reflexivity; eassumption).
  all: cbv beta zeta; change (wrap (0 + 1)) with 1.
  all: rewrite MasterTraverse_dispatches by reflexivity.
  all: rewrite GetTarget_of_a_root by (left; exact Hpq).
  all: rewrite dispatch_Ok by (first [lia | reflexivity | (unfold size_t_modulus; lia)]).
  all: cbv beta iota; rewrite MasterTraverse_dispatches by reflexivity.
  all: rewrite GetTarget_of_a_root by (left; exact Hpq).
  all: rewrite dispatch_Ok by (first [lia | reflexivity | (unfold size_t_modulus; lia)]).
  all: reflexivity.
Qed.

(** X11: with one worker the coordinator does not score the roots: it
    sends the pair of the roots, with the rule as it was given, to
    rank 1. *)
Theorem one_worker_gets_the_roots
    (rule0 : RuleType) (queryRoot referenceRoot : tree) :
  Parent queryRoot = None \/ Parent referenceRoot = None ->
  Traverse_dispatching Score BaseCase 2 rule0 queryRoot referenceRoot
  = Ok (Coordinator rule0
          [Message 1 (self referenceRoot) (self queryRoot) rule0] [Some 1]).
Proof.
  intros H. unfold Traverse_dispatching.
  change (S (Z.to_nat (Z.log2_up (2 - 1)))) with 1%nat.
  rewrite MasterTraverse_dispatches by reflexivity.
  rewrite GetTarget_of_a_root by exact H.
  rewrite dispatch_Ok by (first [lia | reflexivity | (unfold size_t_modulus; lia)]).
  reflexivity.
Qed.
End CoordinatorProperties.

(** ** Ranges, leaves and points *)

Lemma tiles_le (a b : Z) (ranges : list (Z * Z)) : tiles a b ranges -> a <= b.
Proof.
  revert a. induction ranges as [|[x c] ranges IH]; simpl; intros a.
  - lia.
  - intros (_ & Hc & H). apply IH in H. lia.
Qed.

(** The points of ranges that tile an interval are the numbers of the
    interval, in order. *)
Lemma tiles_points (ranges : list (Z * Z)) :
  forall a b, tiles a b ranges -> 0 <= a -> b <= size_t_modulus ->
    concat (map (fun r => map (fun i => wrap (fst r + i)) (seqZ 0 (snd r)))
                ranges)
    = seqZ a (b - a).
Proof.
  induction ranges as [|[x c] ranges IH]; simpl; intros a b.
  - intros -> _ _. rewrite Z.sub_diag. reflexivity.
  - intros (-> & Hc & H) Ha Hb. pose proof (tiles_le _ _ _ H) as Hle.
    rewrite (IH (a + c) b H) by lia.
    replace (b - a) with (c + (b - (a + c))) by lia.
    rewrite seqZ_app by lia. f_equal.
    replace (seqZ a c) with (seqZ (a + 0) c) by (f_equal; lia).
    rewrite <- (fmap_add_seqZ a 0 c).
    apply Forall_fmap_ext_1, Forall_forall. intros i Hi.
    apply elem_of_seqZ in Hi. apply wrap_small. unfold is_size_t. lia.
Qed.

Section RangeProperties.
Context {BoundType StatisticType : Type}.
Abbreviation tree := (BinarySpaceTree BoundType StatisticType).

Lemma splits_range_subtree (a : tree) :
  Forall splits_range (nodes a) ->
  forall n, n ∈ nodes a -> Forall splits_range (nodes n).
Proof.
  induction a as [a IHl IHr] using tree_induction. intros Hs n Hn.
  pose proof Hs as Hs'. rewrite (nodes_unfold a) in Hs', Hn.
  apply Forall_cons in Hs' as [_ Hs']. apply Forall_app in Hs' as [Hsl Hsr].
  apply elem_of_cons in Hn as [->|Hn]; [exact Hs|].
  apply elem_of_app in Hn as [Hn|Hn].
  - destruct (Left a) as [l|]; [|by apply elem_of_nil in Hn].
    apply (IHl l eq_refl Hsl n Hn).
  - destruct (Right a) as [r|]; [|by apply elem_of_nil in Hn].
    apply (IHr r eq_refl Hsr n Hn).
Qed.

Lemma splits_range_tiles (n : tree) :
  Forall splits_range (nodes n) -> 0 <= Count n ->
  tiles (Begin n) (Begin n + Count n) (leaf_ranges n).
Proof.
  induction n as [n IHl IHr] using tree_induction. intros Hs Hc.
  rewrite (nodes_unfold n) in Hs.
  apply Forall_cons in Hs as [Hn Hs]. apply Forall_app in Hs as [Hsl Hsr].
  unfold splits_range in Hn.
  destruct (Left n) as [l|] eqn:HL, (Right n) as [r|] eqn:HR; try tauto.
  - destruct Hn as (Hb & Hcl & Hbr & Hcr & He).
    rewrite (leaf_ranges_inner n l r HL HR).
    eapply tiles_app.
    + rewrite <- Hb. apply (IHl l eq_refl Hsl). lia.
    + rewrite <- Hbr, <- He. apply (IHr r eq_refl Hsr). lia.
  - rewrite (leaf_ranges_leaf n HL HR). simpl. auto.
Qed.

Lemma leaves_are_leaves (n : tree) :
  forall x, x ∈ leaves n -> Left x = None /\ Right x = None.
Proof.
  induction n as [n IHl IHr] using tree_induction. intros x.
  rewrite (leaves_unfold n).
  destruct (Left n) as [l|] eqn:HL, (Right n) as [r|] eqn:HR.
  - intros Hx. apply elem_of_app in Hx as [Hx|Hx];
      [apply (IHl l eq_refl x Hx)|apply (IHr r eq_refl x Hx)].
  - rewrite app_nil_r. apply (IHl l eq_refl x).
  - apply (IHr r eq_refl x).
  - intros Hx. apply list_elem_of_singleton in Hx as ->. auto.
Qed.

(** The points of the leaves, from left to right, read off the ranges. *)
Lemma points_of_leaves (n : tree) :
  concat (map points (leaves n))
  = concat (map (fun r => map (fun i => wrap (fst r + i)) (seqZ 0 (snd r)))
                (leaf_ranges n)).
Proof.
  unfold leaf_ranges. rewrite map_map. f_equal.
  apply Forall_fmap_ext_1, Forall_forall. intros x Hx.
  apply leaves_are_leaves in Hx as [HL _].
  unfold points, NumPoints, Point, range. rewrite HL. reflexivity.
Qed.

(** Every node has two children or none: one node less than twice the
    number of leaves; and no leaf is empty unless the tree is. *)
Lemma splits_range_counts (n : tree) :
  Forall splits_range (nodes n) ->
  (S (node_count n) = 2 * length (leaves n))%nat
  /\ (0 < Count n -> Z.of_nat (length (leaves n)) <= Count n)
  /\ (height n <= length (leaves n))%nat.
Proof.
  induction n as [n IHl IHr] using tree_induction. intros Hs.
  rewrite (nodes_unfold n) in Hs.
  apply Forall_cons in Hs as [Hn Hs]. apply Forall_app in Hs as [Hsl Hsr].
  unfold splits_range in Hn. rewrite (leaves_unfold n).
  destruct n as [a l r p b c bd st pd fd ds]; simpl in *.
  destruct l as [l|], r as [r|]; try tauto.
  - destruct Hn as (Hb & Hcl & Hbr & Hcr & He).
    destruct (IHl l eq_refl Hsl) as (Hnl & Hll & Hhl).
    destruct (IHr r eq_refl Hsr) as (Hnr & Hlr & Hhr).
    rewrite length_app.
    assert (1 <= length (leaves l))%nat
      by (pose proof (height_le_node_count l); destruct l; simpl in *; lia).
    assert (1 <= length (leaves r))%nat
      by (pose proof (height_le_node_count r); destruct r; simpl in *; lia).
    repeat split; lia.
  - simpl. repeat split; lia.
Qed.
End RangeProperties.

(** ** What the constructors leave in the nodes *)

Section BuiltTreeProperties.
Context {BoundType StatisticType MatType SplitType VecType : Type}.
Abbreviation tree := (BinarySpaceTree BoundType StatisticType).
Abbreviation state := (machine MatType SplitType).
Variable n_rows n_cols : MatType -> Z.
Variable new_BoundType : Z -> BoundType.
Variable expand_to_cols : BoundType -> MatType -> Z -> Z -> BoundType.
Variable Diameter : BoundType -> float.
Variable Centroid : BoundType -> VecType.
Variable Metric_Evaluate : BoundType -> VecType -> VecType -> float.
Variable default_StatisticType : StatisticType.
Variable new_StatisticType : tree -> StatisticType.
Variable new_SplitType : SplitType.
Variable splitter_SplitNode :
  SplitType -> BoundType -> MatType -> Z -> Z -> bool * Z * MatType * SplitType.
Variable indeterminate : float.

Abbreviation SplitNode_ :=
  (SplitNode n_rows new_BoundType expand_to_cols Diameter Centroid
     Metric_Evaluate default_StatisticType new_StatisticType
     splitter_SplitNode indeterminate).
Abbreviation new_child_ :=
  (new_BinarySpaceTree_child n_rows new_BoundType default_StatisticType
     new_StatisticType indeterminate).
Abbreviation new_BinarySpaceTree_ :=
  (new_BinarySpaceTree n_rows n_cols new_BoundType expand_to_cols Diameter
     Centroid Metric_Evaluate default_StatisticType new_StatisticType
     new_SplitType splitter_SplitNode indeterminate).
Abbreviation built_node_ := (built_node Diameter Centroid Metric_Evaluate).

Ltac run_build H :=
  repeat match type of H with
  | bind ?m ?k ?s = _ =>
      let E := fresh "E" in
      unfold bind at 1 in H;
      destruct (m s) as [[? ?]|?] eqn:E; [|discriminate H]
  | ret _ _ = _ => unfold ret in H
  | (let '(_, _) := ?x in _) _ = _ => destruct x
  | (if ?c then _ else _) _ = _ => let C := fresh "C" in destruct c eqn:C
  end.

Lemma built_node_update (f : tree -> tree) (n : tree) :
  self (f n) = self n -> Left (f n) = Left n -> Right (f n) = Right n ->
  Bound (f n) = Bound n -> Dataset (f n) = Dataset n ->
  FurthestDescendantDistance (f n) = FurthestDescendantDistance n ->
  built_node_ n -> built_node_ (f n).
Proof.
  unfold built_node, children. intros -> -> -> -> -> ->. auto.
Qed.

Lemma SplitNode_built :
  forall fuel k (this : tree) (s : state) t s',
    Left this = None -> Right this = None ->
    SplitNode_ fuel k this s = Ok (t, s') ->
    self t = self this /\ Parent t = Parent this /\ Dataset t = Dataset this
    /\ Begin t = Begin this /\ Count t = Count this
    /\ ParentDistance t = ParentDistance this
    /\ Forall built_node_ (nodes t)
    /\ Forall (fun n => Dataset n = Dataset this) (nodes t).
Proof.
  induction fuel as [|fuel IH]; intros k this s t s' HL HR H; [discriminate|].
  destruct this as [a l r p b c bd st pd fd ds]; simpl in HL, HR; subst l r.
  simpl in H. run_build H.
  - injection H as <- <-. simpl. repeat split; auto.
    + apply Forall_nodes_intro; [|discriminate..].
      split; [reflexivity|constructor].
    + apply Forall_nodes_intro; [reflexivity|discriminate..].
  - injection H as <- <-. simpl. repeat split; auto.
    + apply Forall_nodes_intro; [|discriminate..].
      split; [reflexivity|constructor].
    + apply Forall_nodes_intro; [reflexivity|discriminate..].
  - injection H as <- <-.
    set (Q := fun n t : tree =>
                self t = self n /\ Parent t = Parent n
                /\ Dataset t = Dataset n
                /\ Forall built_node_ (nodes t)
                /\ Forall (fun x => Dataset x = Dataset n) (nodes t)).
    assert (HQ : forall n s1 t s2, Left n = None -> Right n = None ->
                   SplitNode_ fuel k n s1 = Ok (t, s2) -> Q n t).
    { intros n s1 t s2 Hl Hr Hrun.
      destruct (IH _ _ _ _ _ Hl Hr Hrun) as (H1 & H2 & H3 & _ & _ & _ & H4 & H5).
      repeat split; assumption. }
    apply new_child_inv with (Q := Q) in E1
      as (n1 & t1 & _ & _ & _ & _ & Hp1 & Hd1 & (Hs1 & Hpt1 & Hdt1 & HB1 & HD1) & ->);
      [|exact HQ].
    apply new_child_inv with (Q := Q) in E2
      as (n2 & t2 & _ & _ & _ & _ & Hp2 & Hd2 & (Hs2 & Hpt2 & Hdt2 & HB2 & HD2) & ->);
      [|exact HQ].
    simpl in Hp1, Hd1, Hp2, Hd2. simpl.
    repeat split; auto.
    + apply Forall_nodes_intro.
      * split; [reflexivity|]. unfold children. simpl.
        repeat constructor; simpl; congruence.
      * intros x [= <-].
        do 2 (apply Forall_nodes_update;
              [reflexivity|reflexivity|apply built_node_update; reflexivity|]).
        exact HB1.
      * intros x [= <-].
        do 2 (apply Forall_nodes_update;
              [reflexivity|reflexivity|apply built_node_update; reflexivity|]).
        exact HB2.
    + apply Forall_nodes_intro; [reflexivity| |].
      * intros x [= <-].
        do 2 (apply Forall_nodes_update; [reflexivity|reflexivity|auto|]).
        eapply Forall_impl; [exact HD1|]. simpl. intros; congruence.
      * intros x [= <-].
        do 2 (apply Forall_nodes_update; [reflexivity|reflexivity|auto|]).
        eapply Forall_impl; [exact HD2|]. simpl. intros; congruence.
Qed.

Lemma deref_inv dataset (s : state) data s' :
  deref dataset s = Ok (data, s') ->
  s' = s /\ exists d, dataset = Some d /\ matrices (mem s) !! d = Some data.
Proof.
  unfold deref, matrix_at. destruct dataset as [d|]; [|discriminate].
  destruct (matrices (mem s) !! d) as [x|] eqn:E; [|discriminate].
  intros [= <- <-]. eauto.
Qed.

Lemma new_child_inv_state (split_node : Z -> tree -> M tree)
    parent begin count k (s : state) c s' :
  new_child_ split_node parent begin count k s = Ok (c, s') ->
  exists data t,
    split_node k
      (Node (next_free (mem s)) None None (Some (self parent)) begin count
            (new_BoundType (n_rows data)) default_StatisticType
            indeterminate indeterminate (Dataset parent))
      (Machine (Memory (Pos.succ (next_free (mem s))) (matrices (mem s)))
               (splitter s) (split_calls s))
    = Ok (t, s')
    /\ c = set_Stat (new_StatisticType t) t.
Proof.
  unfold new_BinarySpaceTree_child. intros H. run_build H.
  injection H as <- <-.
  unfold alloc, allocate in E. injection E as <- <-.
  apply deref_inv in E0 as [-> _]. eauto.
Qed.

Lemma addresses_update (f : tree -> tree) (n : tree) :
  self (f n) = self n -> Left (f n) = Left n -> Right (f n) = Right n ->
  addresses (f n) = addresses n.
Proof.
  intros Hs HL HR.
  rewrite (addresses_unfold (f n)), (addresses_unfold n), Hs, HL, HR.
  reflexivity.
Qed.

Lemma addresses_descendants (n : tree) :
  addresses n = self n :: map self (descendants n).
Proof. unfold addresses, descendants. rewrite nodes_unfold. reflexivity. Qed.

(** The objects that [SplitNode] makes lie at addresses taken from the
    allocator, all different, and no matrix but the node's is written. *)
Lemma SplitNode_addresses :
  forall fuel k (this : tree) (s : state) t s',
    Left this = None -> Right this = None ->
    SplitNode_ fuel k this s = Ok (t, s') ->
    (next_free (mem s) <= next_free (mem s'))%positive
    /\ Forall (fun a => (next_free (mem s) <= a < next_free (mem s'))%positive)
              (map self (descendants t))
    /\ NoDup (map self (descendants t))
    /\ (forall p, Dataset this <> Some p ->
          matrices (mem s') !! p = matrices (mem s) !! p)
    /\ (forall d, Dataset this = Some d -> is_Some (matrices (mem s') !! d)).
Proof.
  induction fuel as [|fuel IH]; intros k this s t s' HL HR H; [discriminate|].
  destruct this as [a l r p b c bd st pd fd ds]; simpl in HL, HR; subst l r.
  simpl in H. run_build H.
  - injection H as <- <-. apply deref_inv in E as [-> (d & Hd & Hdata)].
    rewrite descendants_unfold. simpl in *.
    repeat split; auto; try lia; try constructor.
    intros d' ->. injection Hd as <-. eauto.
  - injection H as <- <-. apply deref_inv in E as [-> _].
    apply call_splitter_inv in E0 as (d & data & data' & sp' & Hd & _ & _ & ->).
    simpl in Hd. subst ds.
    rewrite descendants_unfold. simpl.
    repeat split; auto; try lia; try constructor.
    + intros q Hq. apply lookup_insert_ne. congruence.
    + intros d' [= <-]. rewrite lookup_insert_eq. eauto.
  - injection H as <- <-. apply deref_inv in E as [-> _].
    apply call_splitter_inv in E0 as (d & data & data' & sp' & Hd & _ & _ & ->).
    simpl in Hd. subst ds.
    apply new_child_inv_state in E1 as (data1 & t1 & E1 & ->).
    apply new_child_inv_state in E2 as (data2 & t2 & E2 & ->).
    pose proof E1 as B1. apply SplitNode_built in B1 as (Hs1 & _);
      [|reflexivity..].
    pose proof E2 as B2. apply SplitNode_built in B2 as (Hs2 & _);
      [|reflexivity..].
    apply IH in E1 as (Hle1 & Hr1 & Hn1 & Hf1 & _); [|reflexivity..].
    apply IH in E2 as (Hle2 & Hr2 & Hn2 & Hf2 & Hi2); [|reflexivity..].
    cbn [mem next_free matrices self Dataset set_Left
         set_FurthestDescendantDistance set_Bound]
      in Hle1, Hr1, Hf1, Hle2, Hr2, Hf2, Hs1, Hs2.
    rewrite descendants_unfold.
    cbn [Left Right set_Left set_Right mem next_free matrices].
    rewrite map_app.
    change (map self (nodes ?x)) with (addresses x).
    rewrite !(addresses_update (set_ParentDistance _)) by reflexivity.
    rewrite !(addresses_update (set_Stat _)) by reflexivity.
    rewrite !addresses_descendants, Hs1, Hs2.
    rewrite Forall_forall in Hr1, Hr2.
    split; [lia|]. split; [|split; [|split]].
    + apply Forall_app_2; constructor; try lia;
        apply Forall_forall; intros x Hx;
        first [apply Hr1 in Hx | apply Hr2 in Hx]; lia.
    + apply NoDup_app. split; [|split].
      * apply NoDup_cons. split; [|exact Hn1].
        intros Hx. apply Hr1 in Hx. lia.
      * intros x Hx Hx'.
        apply elem_of_cons in Hx as [->|Hx]; [|apply Hr1 in Hx];
          (apply elem_of_cons in Hx' as [Hx'|Hx']; [|apply Hr2 in Hx']); lia.
      * apply NoDup_cons. split; [|exact Hn2].
        intros Hx. apply Hr2 in Hx. lia.
    + intros q Hq. simpl in Hq. rewrite Hf2, Hf1 by assumption.
      apply lookup_insert_ne. congruence.
    + intros d' [= <-]. apply Hi2. reflexivity.
Qed.

Lemma new_BinarySpaceTree_inv fuel data k (s : state) t s' :
  new_BinarySpaceTree_ fuel data k s = Ok (t, s') ->
  exists t0,
    SplitNode_ fuel k
      (Node (next_free (mem s)) None None None 0 (n_cols data)
            (new_BoundType (n_rows data)) default_StatisticType 0%float
            indeterminate (Some (Pos.succ (next_free (mem s)))))
      (Machine (Memory (Pos.succ (Pos.succ (next_free (mem s))))
                       (<[Pos.succ (next_free (mem s)) := data]>
                          (matrices (mem s))))
               new_SplitType (split_calls s))
    = Ok (t0, s')
    /\ t = set_Stat (new_StatisticType t0) t0.
Proof.
  unfold new_BinarySpaceTree. intros H. run_build H. injection H as <- <-.
  unfold alloc, allocate in E. injection E as <- <-.
  unfold new_matrix, allocate_matrix in E0. simpl in E0. injection E0 as <- <-.
  unfold declare_splitter in E1. simpl in E1. injection E1 as _ <-.
  eauto.
Qed.

Lemma built_node_children (n c : tree) :
  built_node_ n -> c ∈ children n ->
  Parent c = Some (self n) /\ Dataset c = Dataset n
  /\ ParentDistance c
     = Metric_Evaluate (Bound n) (Centroid (Bound n)) (Centroid (Bound c)).
Proof.
  intros [_ H] Hc. rewrite Forall_forall in H. apply H, Hc.
Qed.

Lemma new_BinarySpaceTree_links
    (fuel : nat) (data : MatType) (maxLeafSize : Z) (s s' : state) (t : tree) :
  new_BinarySpaceTree_ fuel data maxLeafSize s = Ok (t, s') ->
  Parent t = None /\ Begin t = 0 /\ Count t = n_cols data
  /\ well_linked t
  /\ exists d,
       d = Pos.succ (next_free (mem s))
       /\ (forall n, n ∈ nodes t -> Dataset n = Some d)
       /\ (d ∉ addresses t)
       /\ is_Some (matrices (mem s') !! d)
       /\ (forall p, p <> d -> matrices (mem s') !! p = matrices (mem s) !! p).
Proof.
  intros H. apply new_BinarySpaceTree_inv in H as (t0 & H & ->).
  pose proof H as B. apply SplitNode_built in B
    as (Hs & Hp & Hd & Hb & Hc & _ & HB & HD); [|reflexivity..].
  apply SplitNode_addresses in H as (Hle & Hr & Hn & Hf & Hi); [|reflexivity..].
  cbn [self Parent Dataset Begin Count mem next_free matrices] in *.
  assert (Ha : addresses (set_Stat (new_StatisticType t0) t0)
               = next_free (mem s) :: map self (descendants t0)).
  { rewrite (addresses_update (set_Stat _)) by reflexivity.
    rewrite addresses_descendants, Hs. reflexivity. }
  rewrite Forall_forall in Hr.
  split; [exact Hp|]. split; [exact Hb|]. split; [exact Hc|]. split.
  - split.
    + rewrite Ha. apply NoDup_cons. split; [|exact Hn].
      intros Hx. apply Hr in Hx. lia.
    + intros n c Hn' Hc'.
      assert (HB' : Forall built_node_ (nodes (set_Stat (new_StatisticType t0) t0))).
      { apply Forall_nodes_update;
          [reflexivity|reflexivity|apply built_node_update; reflexivity|exact HB]. }
      rewrite Forall_forall in HB'.
      apply (built_node_children n c (HB' n Hn') Hc').
  - exists (Pos.succ (next_free (mem s))).
    split; [reflexivity|]. split; [|split; [|split]].
    + assert (HD' : Forall (fun n => Dataset n = Some (Pos.succ (next_free (mem s))))
                           (nodes (set_Stat (new_StatisticType t0) t0))).
      { apply Forall_nodes_update; [reflexivity|reflexivity|auto|exact HD]. }
      rewrite Forall_forall in HD'. exact HD'.
    + rewrite Ha. intros Hx. apply elem_of_cons in Hx as [Hx|Hx]; [lia|].
      apply Hr in Hx. lia.
    + apply Hi. reflexivity.
    + intros p Hp'. rewrite Hf by congruence.
      apply lookup_insert_ne. congruence.
Qed.

(** X12: in a tree that the constructor returns, the root has no parent
    and spans the columns 0 to [n_cols - 1]; the parent pointer of every
    child is the address of the node that owns it; the objects lie at
    different addresses; every node refers to the same matrix, the copy
    that the constructor made, which is in memory at an address of its
    own; and no other matrix has been written. *)
Theorem constructor_links_the_nodes
    (fuel : nat) (data : MatType) (maxLeafSize : Z) (s s' : state) (t : tree) :
  new_BinarySpaceTree_ fuel data maxLeafSize s = Ok (t, s') ->
  Parent t = None /\ Begin t = 0 /\ Count t = n_cols data
  /\ well_linked t
  /\ exists d,
       (forall n, n ∈ nodes t -> Dataset n = Some d)
       /\ (d ∉ addresses t)
       /\ is_Some (matrices (mem s') !! d)
       /\ (forall p, p <> d -> matrices (mem s') !! p = matrices (mem s) !! p).
Proof.
  intros H.
  destruct (new_BinarySpaceTree_links fuel data maxLeafSize s s' t H)
    as (Hp & Hb & Hc & Hw & d & _ & Hd).
  eauto 10.
Qed.

(** X13: in a tree that the constructor returns, the parent distance of
    the root is 0, the furthest descendant distance of every node is half
    the diameter of its bound, which for a leaf is what
    [FurthestPointDistance()] returns, and the parent distance of every
    child is the distance between the centroid of its parent's bound and
    the centroid of its own. *)
Theorem constructor_sets_the_distances
    (fuel : nat) (data : MatType) (maxLeafSize : Z) (s s' : state) (t : tree) :
  new_BinarySpaceTree_ fuel data maxLeafSize s = Ok (t, s') ->
  ParentDistance t = 0%float
  /\ forall n, n ∈ nodes t ->
       FurthestDescendantDistance n
       = PrimFloat.mul 0.5%float (Diameter (Bound n))
       /\ (IsLeaf n = true ->
           FurthestPointDistance Diameter n = FurthestDescendantDistance n)
       /\ (IsLeaf n = false -> FurthestPointDistance Diameter n = 0%float)
       /\ forall c, c ∈ children n ->
            ParentDistance c
            = Metric_Evaluate (Bound n) (Centroid (Bound n))
                              (Centroid (Bound c)).
Proof.
  intros H. apply new_BinarySpaceTree_inv in H as (t0 & H & ->).
  apply SplitNode_built in H
    as (_ & _ & _ & _ & _ & Hpd & HB & _); [|reflexivity..].
  split; [exact Hpd|].
  assert (HB' : Forall built_node_ (nodes (set_Stat (new_StatisticType t0) t0))).
  { apply Forall_nodes_update;
      [reflexivity|reflexivity|apply built_node_update; reflexivity|exact HB]. }
  rewrite Forall_forall in HB'. intros n Hn. specialize (HB' n Hn).
  split; [apply HB'|]. unfold FurthestPointDistance.
  split; [intros ->; symmetry; apply HB'|].
  split; [intros ->; reflexivity|].
  intros c Hc. apply (built_node_children n c HB' Hc).
Qed.

(** X14: when the matrix has at least one column and no more columns than
    [maxLeafSize], the constructor returns a root without children that
    spans all columns; the split strategy is not called, and the matrix
    that the tree holds is the one it was given, column for column.  (For
    a matrix without columns, line 635 asks for the columns from 0 to
    [begin + count - 1], which has wrapped around.) *)
Theorem few_points_make_one_leaf
    (fuel : nat) (data : MatType) (maxLeafSize : Z) (s : state) :
  0 < n_cols data -> n_cols data <= maxLeafSize ->
  exists t,
    new_BinarySpaceTree_ (S fuel) data maxLeafSize s
    = Ok (t, Machine (Memory (Pos.succ (Pos.succ (next_free (mem s))))
                             (<[Pos.succ (next_free (mem s)) := data]>
                                (matrices (mem s))))
                     new_SplitType (split_calls s))
    /\ Left t = None /\ Right t = None /\ Parent t = None
    /\ Begin t = 0 /\ Count t = n_cols data
    /\ Dataset t = Some (Pos.succ (next_free (mem s))).
Proof.
  intros _ Hk. unfold new_BinarySpaceTree.
  erewrite bind_ok by reflexivity.
  erewrite bind_ok by reflexivity.
  erewrite bind_ok by reflexivity.
  match goal with
  | |- context [bind (SplitNode_ (S fuel) maxLeafSize ?node) _ ?s2] =>
    assert (E : exists leaf,
               SplitNode_ (S fuel) maxLeafSize node s2 = Ok (leaf, s2)
               /\ Left leaf = None /\ Right leaf = None
               /\ Parent leaf = None /\ Begin leaf = 0
               /\ Count leaf = n_cols data
               /\ Dataset leaf = Some (Pos.succ (next_free (mem s))))
  end.
  { simpl.
    erewrite bind_ok by (apply deref_ok; simpl; apply lookup_insert_eq).
    replace (n_cols data <=? maxLeafSize) with true by lia.
    eexists. split; [reflexivity|]. repeat split; reflexivity. }
  destruct E as (leaf & E & HL & HR & Hp & Hb & Hc & Hd).
  erewrite bind_ok by exact E.
  eexists. split; [reflexivity|]. simpl. auto 10.
Qed.

Section WithSplitsInside.
Hypothesis Hin : splits_inside splitter_SplitNode.

Lemma constructor_returns_split_ranges
    (fuel : nat) (data : MatType) (maxLeafSize : Z) (s : state) :
  is_size_t (n_cols data) -> (Z.to_nat (n_cols data) < fuel)%nat ->
  exists t s',
    new_BinarySpaceTree_ fuel data maxLeafSize s = Ok (t, s')
    /\ Begin t = 0 /\ Count t = n_cols data
    /\ Forall splits_range (nodes t).
Proof.
  intros HN Hfuel.
  destruct (new_BinarySpaceTree_returns n_rows n_cols new_BoundType
              expand_to_cols Diameter Centroid Metric_Evaluate
              default_StatisticType new_StatisticType new_SplitType
              splitter_SplitNode indeterminate Hin fuel data maxLeafSize s
              HN Hfuel)
    as (t & s' & calls & E & Hr & _ & _ & _ & Hs).
  exists t, s'. injection Hr as Hb Hc. auto.
Qed.

(** X15: the tree that the constructor returns for a matrix of [N]
    columns, [N] below 2^63, is a full binary tree whose leaves are not
    empty unless the matrix is: [TreeSize()] is one less than twice the
    number of leaves, there are at most [N] leaves (one when [N] is 0),
    and [TreeDepth()] is at most the number of leaves. *)
Theorem constructor_bounds_the_size
    (fuel : nat) (data : MatType) (maxLeafSize : Z) (s : state) :
  0 <= n_cols data < 2 ^ 63 -> (Z.to_nat (n_cols data) < fuel)%nat ->
  exists t s',
    new_BinarySpaceTree_ fuel data maxLeafSize s = Ok (t, s')
    /\ TreeSize t = 2 * Z.of_nat (length (leaves t)) - 1
    /\ 1 <= Z.of_nat (length (leaves t)) <= Z.max 1 (n_cols data)
    /\ TreeDepth t <= Z.of_nat (length (leaves t)).
Proof.
  intros HN Hfuel.
  destruct (constructor_returns_split_ranges fuel data maxLeafSize s)
    as (t & s' & E & Hb & Hc & Hs); [unfold is_size_t, size_t_modulus; lia|exact Hfuel|].
  exists t, s'. split; [exact E|].
  destruct (splits_range_counts t Hs) as (Hcount & Hleaves & Hheight).
  rewrite Hc in Hleaves.
  assert (Hone : n_cols data = 0 -> length (leaves t) = 1%nat).
  { intros H0. rewrite (nodes_unfold t) in Hs.
    apply Forall_cons in Hs as [Ht _]. unfold splits_range in Ht.
    rewrite (leaves_unfold t).
    destruct (Left t), (Right t); try tauto; try reflexivity. lia. }
  assert (Hl : 1 <= Z.of_nat (length (leaves t)) <= Z.max 1 (n_cols data)).
  { destruct (decide (n_cols data = 0)) as [H0|H0]; [rewrite (Hone H0); lia|].
    split; [|lia].
    pose proof (height_le_node_count t). destruct t; simpl in *; lia. }
  assert (Hsize : Z.of_nat (node_count t) < size_t_modulus)
    by (unfold size_t_modulus; lia).
  rewrite (TreeSize_node_count t Hsize), (TreeDepth_height t Hsize).
  split; [lia|]. split; [exact Hl|lia].
Qed.

(** X16: in the tree that the constructor returns for a matrix of [N]
    columns, the points of the leaves, from left to right, are the
    columns 0, 1, ..., [N - 1], each once; and for every node the
    descendants [Descendant(0)], ..., [Descendant(NumDescendants() - 1)]
    are the points of the leaves below the node, from left to right. *)
Theorem constructor_gives_every_point_to_one_leaf
    (fuel : nat) (data : MatType) (maxLeafSize : Z) (s : state) :
  is_size_t (n_cols data) -> (Z.to_nat (n_cols data) < fuel)%nat ->
  exists t s',
    new_BinarySpaceTree_ fuel data maxLeafSize s = Ok (t, s')
    /\ concat (map points (leaves t)) = seqZ 0 (n_cols data)
    /\ forall n, n ∈ nodes t ->
         map (Descendant n) (seqZ 0 (NumDescendants n))
         = concat (map points (leaves n)).
Proof.
  intros HN Hfuel.
  destruct (constructor_returns_split_ranges fuel data maxLeafSize s HN Hfuel)
    as (t & s' & E & Hb & Hc & Hs).
  exists t, s'. split; [exact E|].
  destruct HN as [HN0 HN].
  assert (Hall : forall n, n ∈ nodes t ->
            concat (map points (leaves n)) = seqZ (Begin n) (Count n)
            /\ 0 <= Begin n /\ Begin n + Count n <= size_t_modulus).
  { intros n Hn.
    destruct (nodes_inside t Hs n Hn) as (H1 & H2 & H3).
    assert (0 <= Count n) by (destruct H3 as [->|H3]; lia).
    split; [|lia].
    rewrite points_of_leaves.
    rewrite (tiles_points _ (Begin n) (Begin n + Count n)); try lia.
    - f_equal. lia.
    - apply splits_range_tiles; [|assumption].
      apply (splits_range_subtree t Hs n Hn). }
  split.
  - destruct (Hall t) as [-> _]; [rewrite nodes_unfold; left|].
    rewrite Hb, Hc. reflexivity.
  - intros n Hn. destruct (Hall n Hn) as (-> & H0 & Hle).
    unfold Descendant, NumDescendants.
    replace (seqZ (Begin n) (Count n)) with (seqZ (Begin n + 0) (Count n))
      by (f_equal; lia).
    rewrite <- (fmap_add_seqZ (Begin n) 0 (Count n)).
    apply Forall_fmap_ext_1, Forall_forall. intros i Hi.
    apply elem_of_seqZ in Hi. apply wrap_small. unfold is_size_t. lia.
Qed.
End WithSplitsInside.
End BuiltTreeProperties.

(** ** The copy constructor and the destructor *)

Lemma elem_of_concat {A : Type} (x : A) (ls : list (list A)) :
  x ∈ concat ls <-> exists l, x ∈ l /\ l ∈ ls.
Proof.
  induction ls as [|l ls IH]; simpl.
  - split; [intros H; by apply elem_of_nil in H|].
    intros (l & _ & H). by apply elem_of_nil in H.
  - rewrite elem_of_app, IH. split.
    + intros [H|(l' & H & H')]; [exists l; split; [auto|left]|].
      exists l'. split; [auto|right; auto].
    + intros (l' & H & H'). apply elem_of_cons in H' as [->|H']; eauto.
Qed.

Section CopyShape.
Context {BoundType StatisticType MatType : Type}.
Abbreviation tree := (BinarySpaceTree BoundType StatisticType).
Abbreviation copy_ := (copy_BinarySpaceTree (MatType:=MatType)).

Lemma erase_unfold (t : tree) :
  erase t
  = Node 1%positive
         (match Left t with Some x => Some (erase x) | None => None end)
         (match Right t with Some x => Some (erase x) | None => None end)
         None (Begin t) (Count t) (Bound t) (Stat t) (ParentDistance t)
         (FurthestDescendantDistance t) None.
Proof. destruct t; reflexivity. Qed.

Lemma erase_set_Parent p (t : tree) : erase (set_Parent p t) = erase t.
Proof. rewrite (erase_unfold (set_Parent p t)), (erase_unfold t). reflexivity. Qed.

Lemma erase_relinked visited d (t : tree) :
  erase (relinked visited d t) = erase t.
Proof.
  induction t as [t IHl IHr] using tree_induction.
  destruct t as [a l r pa b c bd st pd fd ds]; simpl in *. f_equal.
  - destruct l as [l|]; [f_equal; apply (IHl l eq_refl)|reflexivity].
  - destruct r as [r|]; [f_equal; apply (IHr r eq_refl)|reflexivity].
Qed.

Lemma links_below_intro (n : tree) :
  (forall c, c ∈ children n -> Parent c = Some (self n) /\ links_below c) ->
  links_below n.
Proof.
  intros H x c Hx Hc. rewrite nodes_children in Hx.
  apply elem_of_cons in Hx as [->|Hx]; [apply H, Hc|].
  apply elem_of_concat in Hx as (xs & Hx & Hxs).
  apply list_elem_of_fmap in Hxs as (y & -> & Hy).
  destruct (H y Hy) as [_ Hl]. apply (Hl x c Hx Hc).
Qed.

Lemma links_below_set_Parent p (t : tree) :
  links_below t -> links_below (set_Parent p t).
Proof.
  intros H. apply links_below_intro. intros c Hc.
  assert (Hc' : c ∈ children t) by exact Hc.
  split.
  - apply (H t c); [rewrite nodes_unfold; left|exact Hc'].
  - intros x y Hx Hy. apply (H x y); [|exact Hy].
    rewrite nodes_children. right.
    apply elem_of_concat.
    exists (nodes c). split; [exact Hx|]. apply list_elem_of_fmap_2, Hc'.
Qed.

Lemma children_relinked visited d (n : tree) :
  children (relinked visited d n) = map (relinked visited d) (children n).
Proof.
  destruct n as [a [l|] [r|] pa b c bd st pd fd ds]; reflexivity.
Qed.

Lemma Parent_relinked visited d (n : tree) :
  Parent (relinked visited d n) = Parent n.
Proof. destruct n; reflexivity. Qed.

Lemma links_below_relinked visited d (t : tree) :
  links_below t -> links_below (relinked visited d t).
Proof.
  intros H n c Hn Hc. rewrite nodes_relinked in Hn.
  apply list_elem_of_fmap in Hn as (n0 & -> & Hn0).
  rewrite children_relinked in Hc.
  apply list_elem_of_fmap in Hc as (c0 & -> & Hc0).
  rewrite Parent_relinked, self_relinked. apply (H n0 c0 Hn0 Hc0).
Qed.

Lemma copy_child_inv
    (copy : ptr -> tree -> memory MatType -> outcome (tree * memory MatType))
    (otherChild : option tree) (assign : option tree -> tree -> tree)
    (node : tree) (m : memory MatType) node' m' :
  copy_child copy otherChild assign node m = Ok (node', m') ->
  match otherChild with
  | None => node' = node /\ m' = m
  | Some x =>
    exists c,
      copy (next_free m) x (Memory (Pos.succ (next_free m)) (matrices m))
      = Ok (c, m')
      /\ node' = assign (Some (set_Parent (Some (self node)) c)) node
  end.
Proof.
  unfold copy_child. destruct otherChild as [x|]; [|intros [= <- <-]; auto].
  unfold allocate.
  destruct (copy _ x _) as [[c m1]|] eqn:E; [|discriminate].
  intros [= <- <-]. eauto.
Qed.

(** What the copy of a child is like. *)
Definition copies_shape
    (copy : ptr -> tree -> memory MatType -> outcome (tree * memory MatType))
    (x : tree) : Prop :=
  forall a m0 c m',
    copy a x m0 = Ok (c, m') ->
    self c = a /\ erase c = erase x /\ links_below c.

Lemma copy_children_shape
    (copy : ptr -> tree -> memory MatType -> outcome (tree * memory MatType))
    (otherLeft otherRight : option tree) (node : tree) (m : memory MatType)
    node1 m1 node2 m2 :
  Left node = None -> Right node = None ->
  (forall x, otherLeft = Some x -> copies_shape copy x) ->
  (forall x, otherRight = Some x -> copies_shape copy x) ->
  copy_child copy otherLeft set_Left node m = Ok (node1, m1) ->
  copy_child copy otherRight set_Right node1 m1 = Ok (node2, m2) ->
  self node2 = self node /\ Parent node2 = Parent node
  /\ Dataset node2 = Dataset node
  /\ links_below node2
  /\ erase node2
     = Node 1%positive
            (match otherLeft with Some x => Some (erase x) | None => None end)
            (match otherRight with Some x => Some (erase x) | None => None end)
            None (Begin node) (Count node) (Bound node) (Stat node)
            (ParentDistance node) (FurthestDescendantDistance node) None.
Proof.
  intros HL HR Hl Hr E1 E2.
  apply copy_child_inv in E1. apply copy_child_inv in E2.
  assert (Hlinks : forall (n : tree),
            (forall c, c ∈ children n ->
               exists c0, c = set_Parent (Some (self n)) c0 /\ links_below c0) ->
            links_below n).
  { intros n Hn. apply links_below_intro. intros c Hc.
    destruct (Hn c Hc) as (c0 & -> & Hc0).
    split; [reflexivity|apply links_below_set_Parent, Hc0]. }
  destruct otherLeft as [l|], otherRight as [r|].
  - destruct E1 as (cl & E1 & ->). destruct E2 as (cr & E2 & ->).
    destruct (Hl l eq_refl _ _ _ _ E1) as (_ & Hel & Hll).
    destruct (Hr r eq_refl _ _ _ _ E2) as (_ & Her & Hlr).
    repeat split; try reflexivity.
    + apply Hlinks. unfold children. simpl. intros c Hc.
      apply elem_of_cons in Hc as [->|Hc]; [eauto|].
      apply list_elem_of_singleton in Hc as ->. eauto.
    + rewrite erase_unfold.
      cbn [Left Right Begin Count Bound Stat ParentDistance
           FurthestDescendantDistance set_Left set_Right].
      rewrite !erase_set_Parent, Hel, Her.
      reflexivity.
  - destruct E1 as (cl & E1 & ->). destruct E2 as [-> ->].
    destruct (Hl l eq_refl _ _ _ _ E1) as (_ & Hel & Hll).
    repeat split; try reflexivity.
    + apply Hlinks. unfold children. simpl. rewrite HR. simpl. intros c Hc.
      apply list_elem_of_singleton in Hc as ->. eauto.
    + rewrite erase_unfold.
      cbn [Left Right Begin Count Bound Stat ParentDistance
           FurthestDescendantDistance set_Left set_Right].
      rewrite !erase_set_Parent, Hel, HR.
      reflexivity.
  - destruct E1 as [-> ->]. destruct E2 as (cr & E2 & ->).
    destruct (Hr r eq_refl _ _ _ _ E2) as (_ & Her & Hlr).
    repeat split; try reflexivity.
    + apply Hlinks. unfold children. simpl. rewrite HL. simpl. intros c Hc.
      apply list_elem_of_singleton in Hc as ->. eauto.
    + rewrite erase_unfold.
      cbn [Left Right Begin Count Bound Stat ParentDistance
           FurthestDescendantDistance set_Left set_Right].
      rewrite !erase_set_Parent, Her, HL.
      reflexivity.
  - destruct E1 as [-> ->]. destruct E2 as [-> ->].
    repeat split; try reflexivity.
    + apply Hlinks. unfold children. rewrite HL, HR. simpl. intros c Hc.
      by apply elem_of_nil in Hc.
    + rewrite erase_unfold, HL, HR. reflexivity.
Qed.

(** The copy of a node that has a parent has the members of the
    original. *)
Lemma copy_with_parent_shape (other : tree) :
  Parent other <> None -> parents_set_below other -> copies_shape copy_ other.
Proof.
  induction other as [other IHl IHr] using tree_induction.
  intros Hp Hbelow this m c m'.
  rewrite copy_BinarySpaceTree_unfold. unfold copy_dataset.
  destruct (Parent other) as [pa|] eqn:Hpa; [|congruence]. cbv zeta.
  destruct (copy_child copy_ (Left other) set_Left _ m)
    as [[node1 m1]|] eqn:E1; [|discriminate].
  destruct (copy_child copy_ (Right other) set_Right node1 m1)
    as [[node2 m2]|] eqn:E2; [|discriminate].
  destruct (copy_children_shape copy_ (Left other) (Right other)
              (Node this None None (Some pa) (Begin other) (Count other)
                    (Bound other) (Stat other) (ParentDistance other)
                    (FurthestDescendantDistance other) None)
              m node1 m1 node2 m2 eq_refl eq_refl
              (fun l HL => IHl l HL
                 (proj1 (parents_set_below_Left _ l Hbelow HL))
                 (proj2 (parents_set_below_Left _ l Hbelow HL)))
              (fun r HR => IHr r HR
                 (proj1 (parents_set_below_Right _ r Hbelow HR))
                 (proj2 (parents_set_below_Right _ r Hbelow HR)))
              E1 E2)
    as (Hs & Hp2 & _ & Hlinks & Herase).
  unfold propagate_if_root. simpl in Hp2. rewrite Hp2.
  intros [= <- <-]. split; [exact Hs|]. split; [|exact Hlinks].
  rewrite Herase, (erase_unfold other). reflexivity.
Qed.

(** The copy of a root, before and after the loop that hands the cloned
    matrix down. *)
Lemma copy_root_result (this : ptr) (other : tree) (m : memory MatType)
    (d : ptr) (data : MatType) :
  parents_set_below other -> Parent other = None ->
  Dataset other = Some d -> matrices m !! d = Some data ->
  (this < next_free m)%positive ->
  exists node2 m2,
    copy_ this other m
    = Ok (relinked (map self (walk (children node2))) (Some (next_free m))
                   node2, m2)
    /\ self node2 = this /\ Parent node2 = None
    /\ Dataset node2 = Some (next_free m)
    /\ erase node2 = erase other /\ links_below node2
    /\ matrices m2 = <[next_free m := data]> (matrices m)
    /\ NoDup (addresses node2)
    /\ (Pos.succ (next_free m) <= next_free m2)%positive
    /\ Forall (fun a => a = this
                        \/ (Pos.succ (next_free m) <= a < next_free m2)%positive)
              (addresses node2).
Proof.
  intros Hbelow Hroot Hd Hdata Hthis.
  rewrite copy_BinarySpaceTree_unfold. unfold copy_dataset, matrix_at.
  rewrite Hroot, Hd, Hdata. cbv beta iota zeta. unfold allocate_matrix.
  cbv beta iota zeta.
  set (d' := next_free m).
  set (m0 := Memory (Pos.succ d') (<[d' := data]> (matrices m))).
  set (node := Node this None None None (Begin other) (Count other)
                    (Bound other) (Stat other) (ParentDistance other)
                    (FurthestDescendantDistance other) (Some d')).
  destruct (copy_children copy_ (Left other) (Right other) node m0)
    as (node1 & m1 & node2 & m2 & E1 & E2 & Hp2 & Hd2 & Hds2 & Hm2 & Hf2);
    [reflexivity|reflexivity| | |].
  { intros l HL a mx.
    destruct (parents_set_below_Left _ l Hbelow HL) as [Hpl Hbl].
    destruct (copy_with_parent l Hpl Hbl a mx) as (c & m' & E & _ & H); eauto. }
  { intros r HR a mx.
    destruct (parents_set_below_Right _ r Hbelow HR) as [Hpr Hbr].
    destruct (copy_with_parent r Hpr Hbr a mx) as (c & m' & E & _ & H); eauto. }
  destruct (copy_children_shape copy_ (Left other) (Right other) node m0
              node1 m1 node2 m2 eq_refl eq_refl
              (fun l HL => copy_with_parent_shape l
                 (proj1 (parents_set_below_Left _ l Hbelow HL))
                 (proj2 (parents_set_below_Left _ l Hbelow HL)))
              (fun r HR => copy_with_parent_shape r
                 (proj1 (parents_set_below_Right _ r Hbelow HR))
                 (proj2 (parents_set_below_Right _ r Hbelow HR)))
              E1 E2)
    as (Hs & _ & _ & Hlinks & Herase).
  rewrite E1, E2.
  simpl in Hp2, Hd2, Hf2, Hs. destruct Hf2 as (Hs2 & Hle2 & Haddr2 & Hnd2).
  assert (Hnd : NoDup (addresses node2)) by (apply Hnd2; subst d'; simpl; lia).
  unfold propagate_if_root. rewrite Hp2, Hd2, addresses_children.
  assert (Hloop :
    propagate_dataset (node_count node2) (Some d')
      (map self (children node2)) node2
    = Ok (relinked (map self (walk (children node2))) (Some d') node2)).
  { pose proof (propagate_dataset_walk (Some d') node2 Hnd
                  (node_count node2) (children node2) []) as P.
    rewrite relinked_nil in P. apply P.
    - apply Forall_forall. intros c Hc.
      eapply child_in_nodes; [|exact Hc]. rewrite nodes_unfold. left.
    - pose proof (forest_count_children node2). lia. }
  rewrite Hloop. exists node2, m2. split; [reflexivity|].
  split; [exact Hs|]. split; [exact Hp2|]. split; [exact Hd2|].
  split; [rewrite Herase, (erase_unfold other); reflexivity|].
  split; [exact Hlinks|]. split; [exact Hm2|]. split; [exact Hnd|].
  split; [exact Hle2|exact Haddr2].
Qed.

Lemma addresses_relinked visited d (t : tree) :
  addresses (relinked visited d t) = addresses t.
Proof.
  unfold addresses. rewrite nodes_relinked, map_map.
  apply Forall_fmap_ext_1, Forall_forall. intros x _. apply self_relinked.
Qed.

(** Below the top of a copy there are new objects only. *)
Lemma copy_addresses_below (this lo hi : ptr) (c : tree) :
  self c = this -> NoDup (addresses c) ->
  Forall (fun a => a = this \/ (lo <= a < hi)%positive) (addresses c) ->
  Forall (fun a => (lo <= a < hi)%positive) (map self (descendants c)).
Proof.
  intros Hs Hnd Ha. rewrite addresses_descendants, Hs in Hnd, Ha.
  apply NoDup_cons in Hnd as [Hthis _]. apply Forall_cons in Ha as [_ Ha].
  rewrite Forall_forall in Ha. apply Forall_forall. intros a Hin.
  destruct (Ha a Hin) as [->|H]; [contradiction|exact H].
Qed.

(** Trees that are equal apart from addresses, parent pointers and dataset
    pointers have the same nodes with the same ranges, in the same
    places. *)
Lemma ranges_erase (t : tree) :
  map range (nodes (erase t)) = map range (nodes t).
Proof.
  induction t as [t IHl IHr] using tree_induction.
  rewrite (nodes_unfold (erase t)), (nodes_unfold t), erase_unfold.
  cbn [Left Right]. rewrite !map_cons, !map_app. f_equal. f_equal.
  - destruct (Left t) as [l|]; [apply (IHl l eq_refl)|reflexivity].
  - destruct (Right t) as [r|]; [apply (IHr r eq_refl)|reflexivity].
Qed.

(** C10: the copy constructor copies the whole subtree: the copy has the
    nodes of the original, in the same places, with the same begin,
    count, bound, statistic and distances, and every child in the copy
    refers to its parent in the copy.  When the node copied has a parent,
    every node of the copy has a null dataset pointer, the top of the copy
    holds the parent pointer of the original, and no matrix is cloned;
    when it is a root (of a tree whose other nodes all have a parent), the
    matrix is cloned to a new address and every node of the copy refers to
    the clone. *)
Theorem C10_copy_clones_dataset_only_at_root
    (this : ptr) (other : tree) (m : memory MatType) :
  parents_set_below other ->
  (forall p, Parent other = Some p ->
     exists c m',
       copy_ this other m = Ok (c, m')
       /\ self c = this
       /\ Parent c = Some p
       /\ erase c = erase other
       /\ map range (nodes c) = map range (nodes other)
       /\ links_below c
       /\ (forall n, n ∈ nodes c -> Dataset n = None)
       /\ matrices m' = matrices m)
  /\ (Parent other = None ->
      forall d data,
        Dataset other = Some d -> matrices m !! d = Some data ->
        (this < next_free m)%positive ->
        (forall k, is_Some (matrices m !! k) -> (k < next_free m)%positive) ->
        exists c m' d',
          copy_ this other m = Ok (c, m')
          /\ self c = this
          /\ Parent c = None
          /\ erase c = erase other
          /\ map range (nodes c) = map range (nodes other)
          /\ links_below c
          /\ d' <> d /\ matrices m !! d' = None
          /\ matrices m' = <[d' := data]> (matrices m)
          /\ (forall n, n ∈ nodes c -> Dataset n = Some d')).
Proof.
  intros Hbelow. split.
  - intros p Hp.
    assert (Hpn : Parent other <> None) by congruence.
    destruct (copy_with_parent (MatType:=MatType) other Hpn Hbelow this m)
      as (c & m' & E & Hpc & Hds & Hm & _).
    destruct (copy_with_parent_shape other Hpn Hbelow this m c m' E)
      as (Hs & He & Hl).
    exists c, m'. rewrite Forall_forall in Hds.
    split; [exact E|]. split; [exact Hs|]. split; [congruence|].
    split; [exact He|].
    split; [rewrite <- (ranges_erase c), He; apply ranges_erase|].
    split; [exact Hl|]. split; [exact Hds|exact Hm].
  - intros Hroot d data Hd Hdata Hthis Hmem.
    destruct (copy_root_result this other m d data Hbelow Hroot Hd Hdata Hthis)
      as (node2 & m2 & E & Hs & Hp2 & Hd2 & He & Hl & Hm2 & _).
    assert (Hfresh : matrices m !! next_free m = None).
    { destruct (matrices m !! next_free m) eqn:F; [|reflexivity].
      assert (next_free m < next_free m)%positive by (apply Hmem; eauto).
      lia. }
    eexists _, m2, (next_free m). split; [exact E|].
    rewrite self_relinked, Parent_relinked, erase_relinked.
    split; [exact Hs|]. split; [exact Hp2|]. split; [exact He|].
    split.
    { rewrite <- (ranges_erase (relinked _ _ node2)), erase_relinked, He.
      apply ranges_erase. }
    split; [apply links_below_relinked, Hl|].
    split; [congruence|]. split; [exact Hfresh|]. split; [exact Hm2|].
    apply relinked_all_datasets, Hd2.
Qed.

(** X17: the copy constructor, for an object at an address in use and a
    tree whose nodes below the top all have a parent, returns a tree that
    differs from the original in addresses, parent pointers and dataset
    pointers only: the same shape and the same begin, count, bound,
    statistic and distances everywhere.  The top keeps the parent pointer
    of the original, every child in the copy refers to its parent in the
    copy, and the nodes below the top are new objects at different
    addresses. *)
Theorem copy_is_a_deep_copy (this : ptr) (other : tree) (m : memory MatType) :
  parents_set_below other -> (this < next_free m)%positive ->
  (Parent other = None ->
   exists d, Dataset other = Some d /\ is_Some (matrices m !! d)) ->
  exists c m',
    copy_ this other m = Ok (c, m')
    /\ self c = this /\ Parent c = Parent other
    /\ erase c = erase other /\ links_below c
    /\ NoDup (addresses c)
    /\ Forall (fun a => (next_free m <= a < next_free m')%positive)
              (map self (descendants c)).
Proof.
  intros Hbelow Hthis Hdata.
  destruct (Parent other) as [pa|] eqn:Hp.
  - assert (Hpn : Parent other <> None) by congruence.
    destruct (copy_with_parent (MatType:=MatType) other Hpn Hbelow this m)
      as (c & m' & E & Hpc & _ & _ & Hs & Hle & Ha & Hnd).
    destruct (copy_with_parent_shape other Hpn Hbelow this m c m' E)
      as (_ & He & Hl).
    exists c, m'. split; [exact E|]. split; [exact Hs|].
    split; [congruence|]. split; [exact He|]. split; [exact Hl|].
    split; [apply Hnd, Hthis|].
    apply (copy_addresses_below this); auto.
  - destruct (Hdata eq_refl) as (d & Hd & data & Hm).
    destruct (copy_root_result this other m d data Hbelow Hp Hd Hm Hthis)
      as (node2 & m2 & E & Hs & Hp2 & _ & He & Hl & _ & Hnd & Hle & Ha).
    eexists _, m2. split; [exact E|].
    rewrite self_relinked, Parent_relinked, erase_relinked, addresses_relinked.
    split; [exact Hs|]. split; [exact Hp2|]. split; [exact He|].
    split; [apply links_below_relinked, Hl|]. split; [exact Hnd|].
    eapply Forall_impl.
    + apply (copy_addresses_below this (Pos.succ (next_free m)) (next_free m2));
        [rewrite self_relinked; exact Hs|rewrite addresses_relinked; exact Hnd|
         rewrite addresses_relinked; exact Ha].
    + simpl. intros a Hr. lia.
Qed.

Lemma delete_BinarySpaceTree_unfold (this : tree) (m : memory MatType) :
  delete_BinarySpaceTree this m
  = match
      match Left this with
      | Some l => delete_BinarySpaceTree l m
      | None => Ok m
      end
    with
    | Stop f => Stop f
    | Ok m =>
      match
        match Right this with
        | Some r => delete_BinarySpaceTree r m
        | None => Ok m
        end
      with
      | Stop f => Stop f
      | Ok m =>
        match Parent this with
        | None => delete_matrix (Dataset this) m
        | Some _ => Ok m
        end
      end
    end.
Proof. destruct this; reflexivity. Qed.

(** Deleting the nodes below touches no matrix when they all have a
    parent. *)
Lemma delete_below (t : tree) (m : memory MatType) :
  parents_set_below t ->
  delete_BinarySpaceTree t m
  = match Parent t with
    | None => delete_matrix (Dataset t) m
    | Some _ => Ok m
    end.
Proof.
  revert m. induction t as [t IHl IHr] using tree_induction.
  intros m Hbelow. rewrite delete_BinarySpaceTree_unfold.
  assert (Hl : match Left t with
               | Some l => delete_BinarySpaceTree l m
               | None => Ok m
               end = Ok m).
  { destruct (Left t) as [l|] eqn:HL; [|reflexivity].
    destruct (parents_set_below_Left _ l Hbelow HL) as [Hpl Hbl].
    rewrite (IHl l eq_refl m Hbl). destruct (Parent l); [reflexivity|congruence]. }
  rewrite Hl.
  assert (Hr : match Right t with
               | Some r => delete_BinarySpaceTree r m
               | None => Ok m
               end = Ok m).
  { destruct (Right t) as [r|] eqn:HR; [|reflexivity].
    destruct (parents_set_below_Right _ r Hbelow HR) as [Hpr Hbr].
    rewrite (IHr r eq_refl m Hbr). destruct (Parent r); [reflexivity|congruence]. }
  rewrite Hr. reflexivity.
Qed.

Lemma links_below_parents_set (t : tree) :
  links_below t -> parents_set_below t.
Proof.
  induction t as [t IHl IHr] using tree_induction. intros Hl n Hn.
  assert (Hsub : forall c, c ∈ children t -> Parent c <> None /\ links_below c).
  { intros c Hc. split.
    - rewrite (Hl t c); [discriminate|rewrite nodes_unfold; left|exact Hc].
    - intros x y Hx Hy. apply (Hl x y); [|exact Hy].
      rewrite nodes_children. right. apply elem_of_concat.
      exists (nodes c). split; [exact Hx|]. apply list_elem_of_fmap_2, Hc. }
  rewrite descendants_unfold in Hn. apply elem_of_app in Hn as [Hn|Hn].
  - destruct (Left t) as [l|] eqn:HL; [|by apply elem_of_nil in Hn].
    destruct (Hsub l) as [Hpl Hll];
      [unfold children; rewrite HL; apply elem_of_app; left; left|].
    rewrite nodes_unfold in Hn. apply elem_of_cons in Hn as [->|Hn]; [exact Hpl|].
    apply (IHl l eq_refl Hll). rewrite descendants_unfold. exact Hn.
  - destruct (Right t) as [r|] eqn:HR; [|by apply elem_of_nil in Hn].
    destruct (Hsub r) as [Hpr Hlr];
      [unfold children; rewrite HR; apply elem_of_app; right; left|].
    rewrite nodes_unfold in Hn. apply elem_of_cons in Hn as [->|Hn]; [exact Hpr|].
    apply (IHr r eq_refl Hlr). rewrite descendants_unfold. exact Hn.
Qed.

(** X18: destroying a tree whose nodes below the top all have a parent
    deletes the matrix that the top refers to when the top has no parent,
    once, and deletes nothing when the top has a parent; it stops when the
    top has no parent and its matrix is not there. *)
Theorem destructor_deletes_the_matrix_of_a_root
    (t : tree) (m : memory MatType) :
  parents_set_below t ->
  (forall p, Parent t = Some p -> delete_BinarySpaceTree t m = Ok m)
  /\ (Parent t = None ->
      (Dataset t = None -> delete_BinarySpaceTree t m = Ok m)
      /\ (forall d, Dataset t = Some d ->
            (is_Some (matrices m !! d) ->
             delete_BinarySpaceTree t m
             = Ok (Memory (next_free m) (delete d (matrices m))))
            /\ (matrices m !! d = None ->
                delete_BinarySpaceTree t m = Stop BadPointer))).
Proof.
  intros Hbelow. rewrite (delete_below t m Hbelow). split.
  - intros p ->. reflexivity.
  - intros ->. unfold delete_matrix. split; [intros ->; reflexivity|].
    intros d ->. split.
    + intros [x ->]. reflexivity.
    + intros ->. reflexivity.
Qed.

(** X19: copying a tree whose nodes below the top all have a parent and
    destroying the copy leaves the matrices as they were: what the copy
    constructor clones, the destructor of the copy deletes, and the matrix
    of the original stays. *)
Theorem copy_then_destroy_restores_the_matrices
    (this : ptr) (other : tree) (m : memory MatType) :
  parents_set_below other -> (this < next_free m)%positive ->
  (forall k, is_Some (matrices m !! k) -> (k < next_free m)%positive) ->
  (Parent other = None ->
   exists d, Dataset other = Some d /\ is_Some (matrices m !! d)) ->
  exists c m' m'',
    copy_ this other m = Ok (c, m')
    /\ delete_BinarySpaceTree c m' = Ok m''
    /\ matrices m'' = matrices m.
Proof.
  intros Hbelow Hthis Hmem Hdata.
  destruct (Parent other) as [pa|] eqn:Hp.
  - assert (Hpn : Parent other <> None) by congruence.
    destruct (copy_with_parent (MatType:=MatType) other Hpn Hbelow this m)
      as (c & m' & E & Hpc & _ & Hm & _).
    destruct (copy_with_parent_shape other Hpn Hbelow this m c m' E)
      as (_ & _ & Hl).
    exists c, m', m'. split; [exact E|]. split; [|exact Hm].
    rewrite (delete_below c m' (links_below_parents_set c Hl)), Hpc, Hp.
    reflexivity.
  - destruct (Hdata eq_refl) as (d & Hd & data & Hm).
    destruct (copy_root_result this other m d data Hbelow Hp Hd Hm Hthis)
      as (node2 & m2 & E & Hs & Hp2 & Hd2 & _ & Hl & Hm2 & _).
    assert (Hfresh : matrices m !! next_free m = None).
    { destruct (matrices m !! next_free m) eqn:El; [|reflexivity].
      assert (next_free m < next_free m)%positive by (apply Hmem; eauto). lia. }
    eexists _, m2, _. split; [exact E|].
    rewrite delete_below
      by (apply links_below_parents_set, links_below_relinked, Hl).
    rewrite Parent_relinked, Hp2, Dataset_relinked, Hd2.
    assert (HD : (if decide (self node2 ∈ map self (walk (children node2)))
                  then Some (next_free m) else Some (next_free m))
                 = Some (next_free m)) by (case_decide; reflexivity).
    rewrite HD. unfold delete_matrix. rewrite Hm2, lookup_insert_eq.
    split; [reflexivity|]. simpl. apply delete_insert_id, Hfresh.
Qed.
End CopyShape.

(** ** Building and destroying *)

Section BuildAndDestroy.
Context {BoundType StatisticType MatType SplitType VecType : Type}.
Abbreviation tree := (BinarySpaceTree BoundType StatisticType).
Abbreviation state := (machine MatType SplitType).
Variable n_rows n_cols : MatType -> Z.
Variable new_BoundType : Z -> BoundType.
Variable expand_to_cols : BoundType -> MatType -> Z -> Z -> BoundType.
Variable Diameter : BoundType -> float.
Variable Centroid : BoundType -> VecType.
Variable Metric_Evaluate : BoundType -> VecType -> VecType -> float.
Variable default_StatisticType : StatisticType.
Variable new_StatisticType : tree -> StatisticType.
Variable new_SplitType : SplitType.
Variable splitter_SplitNode :
  SplitType -> BoundType -> MatType -> Z -> Z -> bool * Z * MatType * SplitType.
Variable indeterminate : float.

Abbreviation new_BinarySpaceTree_ :=
  (new_BinarySpaceTree n_rows n_cols new_BoundType expand_to_cols Diameter
     Centroid Metric_Evaluate default_StatisticType new_StatisticType
     new_SplitType splitter_SplitNode indeterminate).

(** X20: destroying a tree that the constructor returned deletes the copy
    of the matrix that the constructor made, and nothing else: when every
    matrix in memory lay below the allocator before the construction, the
    matrices after construction and destruction are the ones before. *)
Theorem build_then_destroy_restores_the_matrices
    (fuel : nat) (data : MatType) (maxLeafSize : Z) (s s' : state) (t : tree) :
  new_BinarySpaceTree_ fuel data maxLeafSize s = Ok (t, s') ->
  (forall k, is_Some (matrices (mem s) !! k) ->
             (k < next_free (mem s))%positive) ->
  exists m'',
    delete_BinarySpaceTree t (mem s') = Ok m''
    /\ matrices m'' = matrices (mem s).
Proof.
  intros H Hmem.
  destruct (new_BinarySpaceTree_links n_rows n_cols new_BoundType
              expand_to_cols Diameter Centroid Metric_Evaluate
              default_StatisticType new_StatisticType new_SplitType
              splitter_SplitNode indeterminate fuel data maxLeafSize s s' t H)
    as (Hp & _ & _ & [_ Hl] & d & -> & Hd & _ & [x Hx] & Hf).
  rewrite (delete_below t (mem s') (links_below_parents_set t Hl)), Hp.
  rewrite (Hd t) by (rewrite nodes_unfold; left).
  exists (Memory (next_free (mem s'))
                 (delete (Pos.succ (next_free (mem s))) (matrices (mem s')))).
  split; [unfold delete_matrix, ptr in *; rewrite Hx; reflexivity|].
  simpl. apply map_eq. intros p.
  destruct (decide (p = Pos.succ (next_free (mem s)))) as [->|Hne].
  - rewrite lookup_delete_eq. symmetry. apply eq_None_not_Some.
    intros Hs. apply Hmem in Hs. lia.
  - rewrite lookup_delete_ne by congruence. apply Hf, Hne.
Qed.
End BuildAndDestroy.

(** ** Saving with a depth *)

Section SavingDepth.
Context {BoundType StatisticType : Type}.
Abbreviation tree := (BinarySpaceTree BoundType StatisticType).

(** X21: the depth given to [Serialize] counts the levels that are saved,
    the level of the root included.  For a root, depth 1 saves the root
    alone; for a root whose children refer to it as their parent, depth 2
    saves the root and its children, and nothing below them. *)
Theorem depth_counts_the_levels_saved
    (parentDistance_at : ptr -> float) (t : tree) :
  Parent t = None ->
  archive_ranges (fst (Serialize_saving parentDistance_at 1 t)) = [range t]
  /\ ((forall c, c ∈ children t -> Parent c = Some (self t)) ->
      archive_ranges (fst (Serialize_saving parentDistance_at 2 t))
      = range t :: map range (children t)).
Proof.
  intros Hp. split.
  - rewrite Serialize_saving_hides; [reflexivity|].
    unfold levels_remaining. rewrite Hp. vm_compute. reflexivity.
  - intros Hc. rewrite Serialize_saving_recurses
      by (unfold levels_remaining; rewrite Hp; vm_compute; reflexivity).
    cbv zeta.
    assert (Hhide : forall c, c ∈ children t ->
      archive_ranges
        (fst (Serialize_saving
                (fun p : positive =>
                   if Pos.eqb p (self t)
                   then levels_remaining parentDistance_at 2 t
                   else parentDistance_at p) 0 c))
      = [range c]).
    { intros c Hin. rewrite Serialize_saving_hides; [reflexivity|].
      unfold levels_remaining at 1. rewrite (Hc c Hin), Pos.eqb_refl.
      unfold levels_remaining. rewrite Hp. vm_compute. reflexivity. }
    rewrite archive_ranges_unfold.
    cbn [saved_begin saved_count saved_left saved_right].
    unfold children in *.
    destruct (Left t) as [l|], (Right t) as [r|].
    + rewrite (Hhide l), (Hhide r); [reflexivity|right; left|left].
    + rewrite (Hhide l); [reflexivity|left].
    + rewrite (Hhide r); [reflexivity|left].
    + reflexivity.
Qed.
End SavingDepth.

(** ** The constructors that track the permutation *)

Section TrackingProperties.
Context {BoundType StatisticType MatType SplitType VecType : Type}.
Abbreviation tree := (BinarySpaceTree BoundType StatisticType).
Abbreviation state := (machine MatType SplitType).
Variable n_rows n_cols : MatType -> Z.
Variable new_BoundType : Z -> BoundType.
Variable expand_to_cols : BoundType -> MatType -> Z -> Z -> BoundType.
Variable Diameter : BoundType -> float.
Variable Centroid : BoundType -> VecType.
Variable Metric_Evaluate : BoundType -> VecType -> VecType -> float.
Variable default_StatisticType : StatisticType.
Variable new_StatisticType : tree -> StatisticType.
Variable new_SplitType : SplitType.
Variable splitter_SplitNode :
  SplitType -> BoundType -> MatType -> Z -> Z -> bool * Z * MatType * SplitType.
Variable splitter_SplitNode_tracking :
  SplitType -> BoundType -> MatType -> Z -> Z -> list Z ->
  bool * Z * MatType * list Z * SplitType.
Variable indeterminate : float.

Abbreviation SplitNode_ :=
  (SplitNode n_rows new_BoundType expand_to_cols Diameter Centroid
     Metric_Evaluate default_StatisticType new_StatisticType
     splitter_SplitNode indeterminate).
Abbreviation SplitNode_tracking_ :=
  (SplitNode_tracking n_rows n_cols new_BoundType expand_to_cols Diameter
     Centroid Metric_Evaluate default_StatisticType new_StatisticType
     splitter_SplitNode_tracking indeterminate).
Abbreviation new_child_ :=
  (new_BinarySpaceTree_child n_rows new_BoundType default_StatisticType
     new_StatisticType indeterminate).
Abbreviation new_child_tracking_ :=
  (new_BinarySpaceTree_child_tracking n_rows n_cols new_BoundType
     default_StatisticType new_StatisticType indeterminate).
Abbreviation new_BinarySpaceTree_ :=
  (new_BinarySpaceTree n_rows n_cols new_BoundType expand_to_cols Diameter
     Centroid Metric_Evaluate default_StatisticType new_StatisticType
     new_SplitType splitter_SplitNode indeterminate).
Abbreviation new_BinarySpaceTree_oldFromNew_ :=
  (new_BinarySpaceTree_oldFromNew n_rows n_cols new_BoundType expand_to_cols
     Diameter Centroid Metric_Evaluate default_StatisticType
     new_StatisticType new_SplitType splitter_SplitNode_tracking
     indeterminate).
Abbreviation new_BinarySpaceTree_tracking_ :=
  (new_BinarySpaceTree_tracking n_rows n_cols new_BoundType expand_to_cols
     Diameter Centroid Metric_Evaluate default_StatisticType
     new_StatisticType new_SplitType splitter_SplitNode_tracking
     indeterminate).

Ltac run_tracking H :=
  repeat match type of H with
  | bind ?m ?k ?s = _ =>
      let E := fresh "E" in
      unfold bind at 1 in H;
      destruct (m s) as [[? ?]|?] eqn:E; [|discriminate H]
  | ret _ _ = _ => unfold ret in H
  | stop _ _ = _ => discriminate H
  | (let '(_, _) := ?x in _) _ = _ => destruct x
  | (if ?c then _ else _) _ = _ => let C := fresh "C" in destruct c eqn:C
  end.

Lemma call_splitter_tracking_plain (Hagree : overloads_agree splitter_SplitNode
                              splitter_SplitNode_tracking)
    bound dataset begin count old (s : state) split col old' s' :
  call_splitter_tracking splitter_SplitNode_tracking bound dataset begin count
                         old s
  = Ok (split, col, old', s') ->
  call_splitter splitter_SplitNode bound dataset begin count s
  = Ok (split, col, s').
Proof.
  unfold call_splitter_tracking, call_splitter.
  destruct dataset as [d|]; [|discriminate].
  destruct (matrices (mem s) !! d) as [data|]; [|discriminate].
  rewrite (Hagree (splitter s) bound data begin count old).
  destruct (splitter_SplitNode_tracking _ _ _ _ _ _)
    as [[[[sp0 col0] data'] old1] sp'].
  intros [= -> -> -> <-]. reflexivity.
Qed.

Lemma new_child_tracking_plain
    (split_tracking : list Z -> Z -> tree -> M (tree * list Z))
    (split_plain : Z -> tree -> M tree) parent begin count old k
    (s : state) c old' s' :
  (forall old n s1 t old1 s2,
     split_tracking old k n s1 = Ok (t, old1, s2) ->
     split_plain k n s1 = Ok (t, s2)) ->
  new_child_tracking_ split_tracking parent begin count old k s
  = Ok (c, old', s') ->
  new_child_ split_plain parent begin count k s = Ok (c, s').
Proof.
  intros Hsplit H.
  unfold new_BinarySpaceTree_child_tracking in H.
  unfold new_BinarySpaceTree_child.
  run_tracking H. injection H as <- <- <-.
  apply deref_inv in E1 as [-> _].
  erewrite bind_ok by exact E.
  erewrite bind_ok by exact E0.
  erewrite bind_ok by (eapply Hsplit; exact E2).
  reflexivity.
Qed.

Lemma SplitNode_tracking_plain (Hagree : overloads_agree splitter_SplitNode
                              splitter_SplitNode_tracking) :
  forall fuel old k (this : tree) (s : state) t old' s',
    SplitNode_tracking_ fuel old k this s = Ok (t, old', s') ->
    SplitNode_ fuel k this s = Ok (t, s').
Proof.
  induction fuel as [|fuel IH]; intros old k this s t old' s' H; [discriminate|].
  destruct this as [a l r p b c bd st pd fd ds].
  simpl in H. simpl. run_tracking H.
  - injection H as <- <- <-. erewrite bind_ok by exact E.
    reflexivity.
  - injection H as <- <- <-. erewrite bind_ok by exact E.
    erewrite bind_ok by (eapply call_splitter_tracking_plain; eassumption).
    cbv beta iota. rewrite C0. reflexivity.
  - injection H as <- <- <-. erewrite bind_ok by exact E.
    erewrite bind_ok by (eapply call_splitter_tracking_plain; eassumption).
    cbv beta iota. rewrite C0.
    erewrite bind_ok
      by (eapply new_child_tracking_plain; [|exact E1]; intros; eapply IH; eassumption).
    erewrite bind_ok
      by (eapply new_child_tracking_plain; [|exact E2]; intros; eapply IH; eassumption).
    reflexivity.
Qed.

(** X22: tracking the permutation does not change the tree.  When the two
    overloads of the split strategy agree, a tree that the constructor
    with [oldFromNew] returns is the tree that the constructor without it
    returns for the same matrix and leaf size, and the memory, the
    splitter and its calls are the same afterwards. *)
Theorem tracking_builds_the_same_tree (Hagree : overloads_agree splitter_SplitNode
                              splitter_SplitNode_tracking)
    (fuel : nat) (data : MatType) (oldFromNew0 : list Z) (maxLeafSize : Z)
    (s s' : state) (t : tree) (oldFromNew : list Z) :
  new_BinarySpaceTree_oldFromNew_ fuel data oldFromNew0 maxLeafSize s
  = Ok (t, oldFromNew, s') ->
  new_BinarySpaceTree_ fuel data maxLeafSize s = Ok (t, s').
Proof.
  unfold new_BinarySpaceTree_oldFromNew, new_BinarySpaceTree. intros H.
  run_tracking H. injection H as <- <- <-.
  erewrite bind_ok by exact E.
  erewrite bind_ok by exact E0.
  unfold lift in E1.
  destruct (fill_identity _ _) as [v|]; [|discriminate].
  injection E1 as <- <-.
  erewrite bind_ok by exact E2.
  erewrite bind_ok by (eapply SplitNode_tracking_plain; eassumption).
  reflexivity.
Qed.

(** X23: the constructor with both vectors is the constructor with
    [oldFromNew] followed by the loop that inverts it: for what the
    constructor with [oldFromNew] returns, it returns the same tree, the
    same [oldFromNew], and the vector that the loop writes into
    [newFromOld]. *)
Theorem both_vectors_is_oldFromNew_then_inversion
    (fuel : nat) (data : MatType) (oldFromNew0 newFromOld0 : list Z)
    (maxLeafSize : Z) (s s' : state) (t : tree) (oldFromNew : list Z) :
  new_BinarySpaceTree_oldFromNew_ fuel data oldFromNew0 maxLeafSize s
  = Ok (t, oldFromNew, s') ->
  new_BinarySpaceTree_tracking_ fuel data oldFromNew0 newFromOld0
                                maxLeafSize s
  = match invert_mapping (n_cols data) oldFromNew
                         (vector_resize (n_cols data) newFromOld0) with
    | Ok newFromOld => Ok (t, oldFromNew, newFromOld, s')
    | Stop f => Stop f
    end.
Proof.
  unfold new_BinarySpaceTree_oldFromNew, new_BinarySpaceTree_tracking.
  intros H. run_tracking H. injection H as <- <- <-.
  erewrite bind_ok by exact E.
  erewrite bind_ok by exact E0.
  erewrite bind_ok by exact E1.
  erewrite bind_ok by exact E2.
  erewrite bind_ok by exact E3.
  cbv beta iota zeta. unfold bind, lift, ret.
  destruct (invert_mapping _ _ _); reflexivity.
Qed.

(** Every property of the matrix and the vector that the split strategy
    keeps is kept by [SplitNode]. *)
Lemma SplitNode_tracking_keeps (I : MatType -> list Z -> Prop) :
  (forall sp b data begin count old split col data' old' sp',
     splitter_SplitNode_tracking sp b data begin count old
     = (split, col, data', old', sp') ->
     I data old -> I data' old') ->
  forall fuel old k (this : tree) (s : state) t old' s' d data,
    Left this = None -> Right this = None ->
    SplitNode_tracking_ fuel old k this s = Ok (t, old', s') ->
    Dataset this = Some d -> matrices (mem s) !! d = Some data ->
    I data old ->
    Dataset t = Some d
    /\ exists data', matrices (mem s') !! d = Some data' /\ I data' old'.
Proof.
  intros Hkeep.
  induction fuel as [|fuel IH];
    intros old k this s t old' s' d data HL HR H Hd Hdata HI; [discriminate|].
  destruct this as [a l r p b c bd st pd fd ds]; simpl in HL, HR, Hd.
  subst l r ds. simpl in H. run_tracking H.
  - injection H as <- <- <-. apply deref_inv in E as [-> _]. eauto.
  - injection H as <- <- <-. apply deref_inv in E as [-> _].
    unfold call_splitter_tracking in E0. unfold ptr in *. rewrite Hdata in E0.
    destruct (splitter_SplitNode_tracking _ _ _ _ _ _)
      as [[[[sp0 col0] data'] old1] sp'] eqn:Hs.
    injection E0 as -> -> <- <-.
    split; [reflexivity|]. exists data'. simpl.
    rewrite lookup_insert_eq. split; [reflexivity|].
    eapply Hkeep; eassumption.
  - injection H as <- <- <-. apply deref_inv in E as [-> _].
    unfold call_splitter_tracking in E0. unfold ptr in *. rewrite Hdata in E0.
    destruct (splitter_SplitNode_tracking _ _ _ _ _ _)
      as [[[[sp0 col0] data'] old1] sp'] eqn:Hs.
    injection E0 as -> -> <- <-.
    assert (HI1 : I data' old1) by (eapply Hkeep; eassumption).
    assert (Hchild : forall parent begin count old k (s : state) c old' s' x,
              Dataset parent = Some d -> matrices (mem s) !! d = Some x ->
              I x old ->
              new_child_tracking_ (SplitNode_tracking_ fuel) parent begin count
                                  old k s = Ok (c, old', s') ->
              exists x', matrices (mem s') !! d = Some x' /\ I x' old').
    { intros parent begin count old2 k2 s2 c2 old2' s2' x Hdp Hx HIx Hc.
      unfold new_BinarySpaceTree_child_tracking in Hc. run_tracking Hc.
      injection Hc as <- <- <-.
      unfold alloc, allocate in E. injection E as <- <-.
      apply deref_inv in E0 as [-> _]. apply deref_inv in E3 as [-> _].
      eapply (IH _ _ _ _ _ _ _ d x) in E4 as (_ & Hx'); eauto. }
    split; [reflexivity|].
    eapply Hchild in E1 as (x1 & Hx1 & HIx1);
      [|reflexivity|simpl; apply lookup_insert_eq|exact HI1].
    eapply Hchild in E2 as (x2 & Hx2 & HIx2);
      [|reflexivity|exact Hx1|exact HIx1].
    eauto.
Qed.

(** X24: a property of the pair of a matrix and a vector that every call
    of the split strategy keeps, and that holds for the matrix given with
    the vector 0, 1, ..., [N - 1], holds for the matrix that the tree
    holds with the [oldFromNew] that the constructor returns. *)
Theorem oldFromNew_follows_the_matrix (I : MatType -> list Z -> Prop)
    (fuel : nat) (data : MatType) (oldFromNew0 : list Z) (maxLeafSize : Z)
    (s s' : state) (t : tree) (oldFromNew : list Z) :
  (forall sp b data begin count old split col data' old' sp',
     splitter_SplitNode_tracking sp b data begin count old
     = (split, col, data', old', sp') ->
     I data old -> I data' old') ->
  is_size_t (n_cols data) ->
  I data (seqZ 0 (n_cols data)) ->
  new_BinarySpaceTree_oldFromNew_ fuel data oldFromNew0 maxLeafSize s
  = Ok (t, oldFromNew, s') ->
  exists d data',
    Dataset t = Some d /\ matrices (mem s') !! d = Some data'
    /\ I data' oldFromNew.
Proof.
  intros Hkeep HN HI. unfold new_BinarySpaceTree_oldFromNew. intros H.
  run_tracking H. injection H as <- <- <-.
  unfold alloc, allocate in E. injection E as <- <-.
  unfold new_matrix, allocate_matrix in E0. simpl in E0. injection E0 as <- <-.
  unfold lift in E1.
  rewrite fill_identity_Ok in E1 by (auto using length_vector_resize).
  injection E1 as <- <-.
  unfold declare_splitter in E2. simpl in E2. injection E2 as _ <-.
  eapply (SplitNode_tracking_keeps I Hkeep) in E3 as (Hd & data' & Hdata' & HI');
    [|reflexivity|reflexivity|reflexivity|simpl; apply lookup_insert_eq|exact HI].
  exists (Pos.succ (next_free (mem s))), data'. auto.
Qed.
End TrackingProperties.

(** * The further properties on the instance *)

Lemma scenarioA_small :
  Z.of_nat (node_count Example.scenarioA) < size_t_modulus.
Proof. vm_compute. reflexivity. Qed.

Lemma TreeSize_counts_the_nodes_witness :
  TreeSize Example.scenarioA = 7
  /\ NumDescendantNodes Example.scenarioA = 6.
Proof.
  destruct (TreeSize_counts_the_nodes Example.scenarioA scenarioA_small)
    as (H1 & H2 & H3).
  split; [rewrite H1|rewrite H3]; vm_compute; reflexivity.
Defined.

Lemma TreeDepth_bounds_TreeSize_witness :
  1 <= TreeDepth Example.scenarioA <= TreeSize Example.scenarioA
  /\ TreeSize Example.scenarioA < 2 ^ TreeDepth Example.scenarioA.
Proof. exact (TreeDepth_bounds_TreeSize Example.scenarioA scenarioA_small). Defined.

Lemma DescendantNode_reaches_every_descendant_witness :
  map (DescendantNode Example.scenarioA) (seqZ 0 6)
  ≡ₚ map Ok (descendants Example.scenarioA).
Proof.
  exact (DescendantNode_reaches_every_descendant Example.scenarioA
           scenarioA_small).
Defined.

Lemma Child_below_NumChildren_witness :
  exists c, Child Example.scenarioA 1 = Ok c
            /\ children Example.scenarioA !! 1%nat = Some c.
Proof.
  apply (Child_below_NumChildren Example.scenarioA 1).
  change (NumChildren Example.scenarioA) with 2. lia.
Defined.

Lemma FindByBeginCount_returns_only_matching_nodes_witness :
  Example.scenarioA_right ∈ nodes Example.scenarioA
  /\ Begin Example.scenarioA_right = 4 /\ Count Example.scenarioA_right = 4.
Proof.
  apply (FindByBeginCount_returns_only_matching_nodes Example.scenarioA 4 4).
  left. vm_compute. reflexivity.
Defined.

Lemma FindByBeginCount_reaches_one_level_witness :
  FindByBeginCount_const Example.scenarioA 0 4
  = Ok (Some Example.scenarioA_left).
Proof.
  destruct (FindByBeginCount_reaches_one_level Example.scenarioA
              scenarioA_splits_range) as (_ & _ & H).
  apply H. split; [|split; reflexivity].
  right. apply scenarioA_leaf_below_left.
Defined.

Lemma scenarioA_first_level (sq sr : side) :
  exists q r,
    dual_descent Example.scenarioA Example.scenarioA [(sq, sr)] q r
    /\ child sq Example.scenarioA = Ok q /\ child sr Example.scenarioA = Ok r.
Proof.
  assert (Hq : exists q, child sq Example.scenarioA = Ok q)
    by (destruct sq; eexists; reflexivity).
  assert (Hr : exists r, child sr Example.scenarioA = Ok r)
    by (destruct sr; eexists; reflexivity).
  destruct Hq as [q Hq], Hr as [r Hr]. exists q, r.
  split; [|auto].
  apply (descent_step Example.scenarioA Example.scenarioA []
                      Example.scenarioA Example.scenarioA (sq, sr));
    [apply descent_roots|reflexivity|reflexivity|exact Hq|exact Hr].
Qed.

Lemma GetTarget_separates_pairs_witness :
  exists target1 target2,
    GetTarget Example.scenarioA Example.scenarioA
              Example.scenarioA_right Example.scenarioA_left = Ok target1
    /\ GetTarget Example.scenarioA Example.scenarioA
                 Example.scenarioA_left Example.scenarioA_right = Ok target2
    /\ 1 <= target1 <= 4 /\ target1 <> target2.
Proof.
  destruct (scenarioA_first_level R L) as (q1 & r1 & D1 & Hq1 & Hr1).
  destruct (scenarioA_first_level L R) as (q2 & r2 & D2 & Hq2 & Hr2).
  injection Hq1 as <-. injection Hr1 as <-.
  injection Hq2 as <-. injection Hr2 as <-.
  destruct (GetTarget_separates_pairs Example.scenarioA Example.scenarioA
              [(R, L)] [(L, R)] _ _ _ _
              scenarioA_well_linked scenarioA_well_linked eq_refl eq_refl
              D1 D2 eq_refl)
    as (t1 & t2 & E1 & E2 & Hrange & Hsep); [simpl; lia|].
  exists t1, t2. split; [exact E1|]. split; [exact E2|].
  split; [exact Hrange|].
  intros Heq. destruct (Hsep Heq) as [Hpath _]. discriminate.
Defined.

Lemma base_cases_visit_every_pair_of_points_witness :
  base_cases Example.BaseCase Example.scenarioA_leaf_0
             Example.scenarioA_leaf_1 0 = Ok 4
  /\ base_cases Example.BaseCase Example.scenarioA
                Example.scenarioA_leaf_1 0 = Ok 0.
Proof.
  split.
  - destruct (base_cases_visit_every_pair_of_points Example.BaseCase
                Example.scenarioA_leaf_0 Example.scenarioA_leaf_1 0)
      as [E _]; [vm_compute; split; [discriminate|reflexivity]..|].
    rewrite E. vm_compute. reflexivity.
  - destruct (base_cases_visit_every_pair_of_points Example.BaseCase
                Example.scenarioA Example.scenarioA_leaf_1 0)
      as [_ E]; [vm_compute; split; [discriminate|reflexivity]..|].
    apply E. left. reflexivity.
Defined.

Lemma four_workers_get_the_four_pairs_of_children_witness :
  exists c, Example.dispatching 5 = Ok c
            /\ map target_rank (sent c) = [1; 2; 3; 4]
            /\ rule c = 0.
Proof.
  unfold Example.dispatching.
  rewrite (four_workers_get_the_four_pairs_of_children
             Example.Score Example.BaseCase 0 0 0%float
             Example.scenarioA Example.scenarioA
             Example.scenarioA_left Example.scenarioA_right
             Example.scenarioA_left Example.scenarioA_right
             scenarioA_well_linked scenarioA_well_linked
             eq_refl eq_refl eq_refl eq_refl eq_refl eq_refl eq_refl).
  eexists. split; [vm_compute; reflexivity|]. split; reflexivity.
Defined.

Lemma leaf_query_root_sends_both_pairs_to_rank_1_witness :
  exists c,
    Traverse_dispatching Example.Score Example.BaseCase 4 0
                         Example.two_points Example.scenarioA = Ok c
    /\ map target_rank (sent c) = [1; 1]
    /\ resultRequests c = [Some 1; None; None].
Proof.
  rewrite (leaf_query_root_sends_both_pairs_to_rank_1
             Example.Score Example.BaseCase 4 0 0 0%float
             Example.two_points Example.scenarioA
             Example.scenarioA_left Example.scenarioA_right);
    [|lia|reflexivity..].
  eexists. split; [reflexivity|]. split; reflexivity.
Defined.

Lemma one_worker_gets_the_roots_witness :
  Traverse_dispatching Example.Score Example.BaseCase 2 0
                       Example.scenarioA Example.scenarioA
  = Ok (Coordinator 0 [Message 1 1%positive 1%positive 0] [Some 1]).
Proof.
  apply (one_worker_gets_the_roots Example.Score Example.BaseCase 0
           Example.scenarioA Example.scenarioA).
  left. reflexivity.
Defined.

Lemma constructor_links_the_nodes_witness :
  Parent Example.scenarioA = None /\ Begin Example.scenarioA = 0
  /\ Count Example.scenarioA = 8
  /\ well_linked Example.scenarioA
  /\ exists d,
       (forall n, n ∈ nodes Example.scenarioA -> Dataset n = Some d)
       /\ (d ∉ addresses Example.scenarioA)
       /\ is_Some (matrices Example.scenarioA_memory !! d)
       /\ (forall p, p <> d ->
             matrices Example.scenarioA_memory !! p
             = matrices (mem Example.boot) !! p).
Proof.
  exact (constructor_links_the_nodes
           Example.n_rows Example.n_cols Example.new_BoundType
           Example.expand_to_cols Example.Diameter Example.Centroid
           Example.Metric_Evaluate Example.default_StatisticType
           Example.new_StatisticType Example.new_SplitType
           Example.splitter_SplitNode Example.indeterminate
           9 Example.scenarioA_data 2 Example.boot _ Example.scenarioA
           scenarioA_built).
Defined.

Lemma constructor_sets_the_distances_witness :
  ParentDistance Example.scenarioA = 0%float
  /\ forall n, n ∈ nodes Example.scenarioA ->
       FurthestDescendantDistance n
       = PrimFloat.mul 0.5%float (Example.Diameter (Bound n))
       /\ (IsLeaf n = true ->
           FurthestPointDistance Example.Diameter n
           = FurthestDescendantDistance n)
       /\ (IsLeaf n = false ->
           FurthestPointDistance Example.Diameter n = 0%float)
       /\ forall c, c ∈ children n ->
            ParentDistance c
            = Example.Metric_Evaluate (Bound n) (Example.Centroid (Bound n))
                                      (Example.Centroid (Bound c)).
Proof.
  exact (constructor_sets_the_distances
           Example.n_rows Example.n_cols Example.new_BoundType
           Example.expand_to_cols Example.Diameter Example.Centroid
           Example.Metric_Evaluate Example.default_StatisticType
           Example.new_StatisticType Example.new_SplitType
           Example.splitter_SplitNode Example.indeterminate
           9 Example.scenarioA_data 2 Example.boot _ Example.scenarioA
           scenarioA_built).
Defined.

Lemma few_points_make_one_leaf_witness :
  exists t,
    Example.build 1 [5; 5] 2 Example.boot
    = Ok (t, Machine (Memory 3%positive {[ 2%positive := [5; 5] ]}) tt [])
    /\ Left t = None /\ Right t = None /\ Parent t = None
    /\ Begin t = 0 /\ Count t = 2 /\ Dataset t = Some 2%positive.
Proof.
  apply (few_points_make_one_leaf
           Example.n_rows Example.n_cols Example.new_BoundType
           Example.expand_to_cols Example.Diameter Example.Centroid
           Example.Metric_Evaluate Example.default_StatisticType
           Example.new_StatisticType Example.new_SplitType
           Example.splitter_SplitNode Example.indeterminate
           0 [5; 5] 2 Example.boot).
  - vm_compute. reflexivity.
  - vm_compute. discriminate.
Defined.

Lemma constructor_bounds_the_size_witness :
  exists t s',
    Example.build 9 Example.scenarioA_data 2 Example.boot = Ok (t, s')
    /\ TreeSize t = 2 * Z.of_nat (length (leaves t)) - 1
    /\ 1 <= Z.of_nat (length (leaves t)) <= Z.max 1 8
    /\ TreeDepth t <= Z.of_nat (length (leaves t)).
Proof.
  apply (constructor_bounds_the_size
           Example.n_rows Example.n_cols Example.new_BoundType
           Example.expand_to_cols Example.Diameter Example.Centroid
           Example.Metric_Evaluate Example.default_StatisticType
           Example.new_StatisticType Example.new_SplitType
           Example.splitter_SplitNode Example.indeterminate
           Example_splits_inside 9 Example.scenarioA_data 2 Example.boot).
  - vm_compute. split; [discriminate|reflexivity].
  - vm_compute. lia.
Defined.

Lemma constructor_gives_every_point_to_one_leaf_witness :
  exists t s',
    Example.build 9 Example.scenarioA_data 2 Example.boot = Ok (t, s')
    /\ concat (map points (leaves t)) = seqZ 0 8
    /\ forall n, n ∈ nodes t ->
         map (Descendant n) (seqZ 0 (NumDescendants n))
         = concat (map points (leaves n)).
Proof.
  apply (constructor_gives_every_point_to_one_leaf
           Example.n_rows Example.n_cols Example.new_BoundType
           Example.expand_to_cols Example.Diameter Example.Centroid
           Example.Metric_Evaluate Example.default_StatisticType
           Example.new_StatisticType Example.new_SplitType
           Example.splitter_SplitNode Example.indeterminate
           Example_splits_inside 9 Example.scenarioA_data 2 Example.boot).
  - vm_compute. split; [discriminate|reflexivity].
  - vm_compute. lia.
Defined.

(** The memory of scenario A with one more address in use, for an object
    that is to hold a copy. *)
Lemma scenarioA_memory_in_use :
  forall k,
    is_Some (matrices (Memory 10%positive
                              (matrices Example.scenarioA_memory)) !! k) ->
    (k < 10)%positive.
Proof.
  intros k [x Hk]. cbn [matrices next_free Example.scenarioA_memory] in Hk.
  apply lookup_singleton_Some in Hk as [<- _]. reflexivity.
Qed.

Lemma scenarioA_has_its_matrix :
  Parent Example.scenarioA = None ->
  exists d, Dataset Example.scenarioA = Some d
            /\ is_Some (matrices (Memory 10%positive
                                    (matrices Example.scenarioA_memory)) !! d).
Proof. intros _. exists 2%positive. split; [reflexivity|]. vm_compute. eauto. Qed.

(** The copy of the left child of scenario A, and the copy of its root,
    made at the address 9. *)
Lemma C10_witness :
  (exists c m',
      copy_BinarySpaceTree 9%positive Example.scenarioA_left
        (Memory 10%positive (matrices Example.scenarioA_memory))
      = Ok (c, m')
      /\ self c = 9%positive
      /\ Parent c = Some 1%positive
      /\ erase c = erase Example.scenarioA_left
      /\ map range (nodes c) = map range (nodes Example.scenarioA_left)
      /\ links_below c
      /\ (forall n, n ∈ nodes c -> Dataset n = None)
      /\ matrices m' = matrices Example.scenarioA_memory)
  /\ (exists c m' d',
        copy_BinarySpaceTree 9%positive Example.scenarioA
          (Memory 10%positive (matrices Example.scenarioA_memory))
        = Ok (c, m')
        /\ self c = 9%positive
        /\ Parent c = None
        /\ erase c = erase Example.scenarioA
        /\ map range (nodes c) = map range (nodes Example.scenarioA)
        /\ links_below c
        /\ d' <> 2%positive
        /\ matrices Example.scenarioA_memory !! d' = None
        /\ matrices m'
           = <[d' := [5; 6; 7; 8; 1; 2; 3; 4]]>
               (matrices Example.scenarioA_memory)
        /\ (forall n, n ∈ nodes c -> Dataset n = Some d')).
Proof.
  split.
  - destruct (C10_copy_clones_dataset_only_at_root 9%positive
                Example.scenarioA_left
                (Memory 10%positive (matrices Example.scenarioA_memory)))
      as [H _]; [apply scenarioA_parents_set_below|].
    apply (H 1%positive). reflexivity.
  - destruct (C10_copy_clones_dataset_only_at_root 9%positive
                Example.scenarioA
                (Memory 10%positive (matrices Example.scenarioA_memory)))
      as [_ H]; [apply scenarioA_parents_set_below|].
    apply (H eq_refl 2%positive [5; 6; 7; 8; 1; 2; 3; 4]).
    + reflexivity.
    + vm_compute. reflexivity.
    + reflexivity.
    + intros k [x Hk]. cbn [matrices next_free Example.scenarioA_memory] in *.
      apply lookup_singleton_Some in Hk as [<- _]. reflexivity.
Defined.

Lemma copy_is_a_deep_copy_witness :
  exists c m',
    copy_BinarySpaceTree 9%positive Example.scenarioA
      (Memory 10%positive (matrices Example.scenarioA_memory)) = Ok (c, m')
    /\ self c = 9%positive /\ Parent c = None
    /\ erase c = erase Example.scenarioA /\ links_below c
    /\ NoDup (addresses c)
    /\ Forall (fun a => (10 <= a < next_free m')%positive)
              (map self (descendants c)).
Proof.
  apply (copy_is_a_deep_copy 9%positive Example.scenarioA
           (Memory 10%positive (matrices Example.scenarioA_memory))).
  - apply scenarioA_parents_set_below.
  - reflexivity.
  - exact scenarioA_has_its_matrix.
Defined.

Lemma destructor_deletes_the_matrix_of_a_root_witness :
  delete_BinarySpaceTree Example.scenarioA Example.scenarioA_memory
  = Ok (Memory 9%positive (delete 2%positive
                             (matrices Example.scenarioA_memory)))
  /\ delete_BinarySpaceTree Example.scenarioA_left Example.scenarioA_memory
     = Ok Example.scenarioA_memory.
Proof.
  split.
  - destruct (destructor_deletes_the_matrix_of_a_root Example.scenarioA
                Example.scenarioA_memory) as [_ H];
      [apply scenarioA_parents_set_below|].
    destruct (H eq_refl) as [_ H2].
    destruct (H2 2%positive eq_refl) as [H3 _]. apply H3.
    vm_compute. eauto.
  - destruct (destructor_deletes_the_matrix_of_a_root Example.scenarioA_left
                Example.scenarioA_memory) as [H _];
      [apply scenarioA_parents_set_below|].
    apply (H 1%positive). reflexivity.
Defined.

Lemma copy_then_destroy_restores_the_matrices_witness :
  exists c m' m'',
    copy_BinarySpaceTree 9%positive Example.scenarioA
      (Memory 10%positive (matrices Example.scenarioA_memory)) = Ok (c, m')
    /\ delete_BinarySpaceTree c m' = Ok m''
    /\ matrices m'' = matrices Example.scenarioA_memory.
Proof.
  apply (copy_then_destroy_restores_the_matrices 9%positive Example.scenarioA
           (Memory 10%positive (matrices Example.scenarioA_memory))).
  - apply scenarioA_parents_set_below.
  - reflexivity.
  - exact scenarioA_memory_in_use.
  - exact scenarioA_has_its_matrix.
Defined.

Lemma build_then_destroy_restores_the_matrices_witness :
  exists m'',
    delete_BinarySpaceTree Example.scenarioA Example.scenarioA_memory = Ok m''
    /\ matrices m'' = ∅.
Proof.
  apply (build_then_destroy_restores_the_matrices
           Example.n_rows Example.n_cols Example.new_BoundType
           Example.expand_to_cols Example.Diameter Example.Centroid
           Example.Metric_Evaluate Example.default_StatisticType
           Example.new_StatisticType Example.new_SplitType
           Example.splitter_SplitNode Example.indeterminate
           9 Example.scenarioA_data 2 Example.boot _ Example.scenarioA
           scenarioA_built).
  intros k [x Hk]. simpl in Hk. rewrite lookup_empty in Hk. discriminate.
Defined.

Lemma depth_counts_the_levels_saved_witness :
  archive_ranges (Example.saved 1) = [(0, 8)]
  /\ archive_ranges (Example.saved 2) = [(0, 8); (0, 4); (4, 4)].
Proof.
  destruct (depth_counts_the_levels_saved (fun _ => 0%float) Example.scenarioA
              eq_refl) as [H1 H2].
  split; [exact H1|]. unfold Example.saved. rewrite H2; [reflexivity|].
  intros c Hc.
  assert (H : Forall (fun c => Parent c = Some 1%positive)
                     (children Example.scenarioA)) by (repeat constructor).
  rewrite Forall_forall in H. apply H, Hc.
Defined.

Lemma Example_overloads_agree :
  overloads_agree Example.splitter_SplitNode
                  Example.splitter_SplitNode_tracking.
Proof.
  intros sp b data begin count old.
  unfold Example.splitter_SplitNode, Example.splitter_SplitNode_tracking.
  destruct (2 <=? count); reflexivity.
Qed.

Lemma scenarioA_built_with_oldFromNew :
  Example.build_oldFromNew 9 Example.scenarioA_data [] 2 Example.boot
  = Ok (Example.scenarioA, [4; 5; 6; 7; 0; 1; 2; 3],
        Machine Example.scenarioA_memory tt
                [SplitCall 0 8 true; SplitCall 0 4 true; SplitCall 4 4 true]).
Proof. vm_compute. reflexivity. Qed.

Lemma tracking_builds_the_same_tree_witness :
  Example.build 9 Example.scenarioA_data 2 Example.boot
  = Ok (Example.scenarioA,
        Machine Example.scenarioA_memory tt
                [SplitCall 0 8 true; SplitCall 0 4 true; SplitCall 4 4 true]).
Proof.
  exact (tracking_builds_the_same_tree
           Example.n_rows Example.n_cols Example.new_BoundType
           Example.expand_to_cols Example.Diameter Example.Centroid
           Example.Metric_Evaluate Example.default_StatisticType
           Example.new_StatisticType Example.new_SplitType
           Example.splitter_SplitNode Example.splitter_SplitNode_tracking
           Example.indeterminate Example_overloads_agree
           9 Example.scenarioA_data [] 2 Example.boot _ Example.scenarioA _
           scenarioA_built_with_oldFromNew).
Defined.

Lemma both_vectors_is_oldFromNew_then_inversion_witness :
  Example.build_tracking 9 Example.scenarioA_data [] [] 2 Example.boot
  = Ok (Example.scenarioA, [4; 5; 6; 7; 0; 1; 2; 3],
        [4; 5; 6; 7; 0; 1; 2; 3],
        Machine Example.scenarioA_memory tt
                [SplitCall 0 8 true; SplitCall 0 4 true; SplitCall 4 4 true]).
Proof.
  unfold Example.build_tracking.
  rewrite (both_vectors_is_oldFromNew_then_inversion
             Example.n_rows Example.n_cols Example.new_BoundType
             Example.expand_to_cols Example.Diameter Example.Centroid
             Example.Metric_Evaluate Example.default_StatisticType
             Example.new_StatisticType Example.new_SplitType
             Example.splitter_SplitNode_tracking Example.indeterminate
             9 Example.scenarioA_data [] [] 2 Example.boot _
             Example.scenarioA _ scenarioA_built_with_oldFromNew).
  vm_compute. reflexivity.
Defined.

(** The columns of a matrix of this instance, picked by a vector. *)
Lemma reverse_range_fmap {A B} (f : A -> B) (begin count : Z) (v : list A) :
  Example.reverse_range begin count (map f v)
  = map f (Example.reverse_range begin count v).
Proof.
  unfold Example.reverse_range.
  rewrite !skipn_map, !firstn_map, <- map_rev, <- !map_app. reflexivity.
Qed.

Lemma oldFromNew_follows_the_matrix_witness :
  exists d data',
    Dataset Example.scenarioA = Some d
    /\ matrices Example.scenarioA_memory !! d = Some data'
    /\ data' = map (fun j => default 0 (Example.scenarioA_data !! Z.to_nat j))
                   [4; 5; 6; 7; 0; 1; 2; 3].
Proof.
  apply (oldFromNew_follows_the_matrix
           Example.n_rows Example.n_cols Example.new_BoundType
           Example.expand_to_cols Example.Diameter Example.Centroid
           Example.Metric_Evaluate Example.default_StatisticType
           Example.new_StatisticType Example.new_SplitType
           Example.splitter_SplitNode_tracking Example.indeterminate
           (fun data' old =>
              data' = map (fun j => default 0 (Example.scenarioA_data
                                                 !! Z.to_nat j)) old)
           9 Example.scenarioA_data [] 2 Example.boot
           (Machine Example.scenarioA_memory tt
                    [SplitCall 0 8 true; SplitCall 0 4 true;
                     SplitCall 4 4 true])
           Example.scenarioA [4; 5; 6; 7; 0; 1; 2; 3]).
  - intros sp b data begin count old split col data' old' sp'.
    unfold Example.splitter_SplitNode_tracking.
    destruct (2 <=? count); intros [= _ _ <- <- _] ->; [|reflexivity].
    apply reverse_range_fmap.
  - vm_compute. split; [discriminate|reflexivity].
  - vm_compute. reflexivity.
  - exact scenarioA_built_with_oldFromNew.
Defined.
